(** * django-resend: webhook receipt and the pending/retry processing loop

    A shallow embedding of [django_resend/models.py], [views.py], [utils.py]
    and [signals.py], with the admin actions of [admin.py] and the API
    client of [client.py] and [conf.py].  The database table is a list of rows, a model instance
    is a record held by the caller (a copy of a row), and every function
    threads the world (table, primary-key counter, clock) explicitly.
    Exceptions are values of [outcome]; the calls made to the handler and to
    the signals are collected in a log.

    What the framework does is modelled where the code calls it:
    - [Model.save(update_fields=...)] writes the listed columns of the
      instance to the row with its primary key, refreshes an [auto_now]
      column that is listed, and raises [DatabaseError] when no row has that
      key;
    - a [QuerySet] is a lazy description of a query: [update], [count] and
      iteration each run it against the table as it is at that moment, and
      [update] refuses a sliced query;
    - [Signal.send] calls the receivers in order and lets the first
      exception out;
    - [get_or_create] looks the row up by [event_id] and inserts it when
      there is none; a [CharField] stores text, and [event_type] refuses
      null;
    - [json.loads], [parse_datetime], [float], [datetime.fromtimestamp] and
      [str] are parameters: the receiver is verified for every behaviour of
      them. *)

From Stdlib Require Import ZArith List String Bool Lia Sorted Permutation.
Import ListNotations.
Open Scope string_scope.
Open Scope Z_scope.
Open Scope list_scope.

(** ** Python values *)

(** What [json.loads] builds.  Numbers are integers here; an object is the
    list of the items of the dict, each key once; a text is held as the
    bytes of its UTF-8 form. *)
#[local] Unset Elimination Schemes.
Inductive json : Type :=
| JNull
| JBool (b : bool)
| JNum (n : Z)
| JStr (s : string)
| JArr (items : list json)
| JObj (members : list (string * json)).
#[local] Set Elimination Schemes.

(** Python truth value: [None], [False], [0], [''], [[]] and [{}] are false. *)
Definition truthy (v : json) : bool :=
  match v with
  | JNull => false
  | JBool b => b
  | JNum n => negb (n =? 0)
  | JStr s => negb (s =? "")%string
  | JArr items => match items with [] => false | _ => true end
  | JObj members => match members with [] => false | _ => true end
  end.

(** [a or b] *)
Definition py_or (a b : json) : json := if truthy a then a else b.

Fixpoint json_eqb (a b : json) {struct a} : bool :=
  match a, b with
  | JNull, JNull => true
  | JBool x, JBool y => Bool.eqb x y
  | JNum x, JNum y => (x =? y)
  | JStr x, JStr y => (x =? y)%string
  | JArr xs, JArr ys =>
      (fix all2 (xs ys : list json) {struct xs} : bool :=
         match xs, ys with
         | [], [] => true
         | x :: xs', y :: ys' => json_eqb x y && all2 xs' ys'
         | _, _ => false
         end) xs ys
  | JObj xs, JObj ys =>
      (fix all2 (xs ys : list (string * json)) {struct xs} : bool :=
         match xs, ys with
         | [], [] => true
         | (k, x) :: xs', (k', y) :: ys' =>
             (k =? k')%string && json_eqb x y && all2 xs' ys'
         | _, _ => false
         end) xs ys
  | _, _ => false
  end.

Fixpoint assoc (key : string) (members : list (string * json)) : option json :=
  match members with
  | [] => None
  | (k, v) :: rest => if (k =? key)%string then Some v else assoc key rest
  end.

(** Exception classes the code can meet; all of them derive from
    [Exception]. *)
Inductive exn_class : Type :=
| ValueError | TypeError | OverflowError | OSError
| AttributeError | DatabaseError | IntegrityError | OtherError.

Record pyexn : Type := mkExn { exn_cls : exn_class; exn_str : string }.

Inductive outcome (A : Type) : Type :=
| Ok (a : A)
| Raise (e : pyexn).
Arguments Ok {A} a.
Arguments Raise {A} e.

(** [dict.get(key, default)] *)
Definition member (key : string) (members : list (string * json))
    (default : json) : json :=
  match assoc key members with
  | Some v => v
  | None => default
  end.

(** [obj.get(key, default)]: only a dict has the method. *)
Definition get (obj : json) (key : string) (default : json) : outcome json :=
  match obj with
  | JObj members => Ok (member key members default)
  | _ => Raise (mkExn AttributeError "object has no attribute 'get'")
  end.

(** ** The model (models.py) *)

Inductive Status : Type :=
| STATUS_PENDING | STATUS_PROCESSING | STATUS_PROCESSED | STATUS_FAILED.

Definition status_eqb (a b : Status) : bool :=
  match a, b with
  | STATUS_PENDING, STATUS_PENDING
  | STATUS_PROCESSING, STATUS_PROCESSING
  | STATUS_PROCESSED, STATUS_PROCESSED
  | STATUS_FAILED, STATUS_FAILED => true
  | _, _ => false
  end.

(** A point in time, as a number of ticks. *)
Definition datetime : Type := Z.

(** A row of the table, and also an instance in memory.  In a row,
    [event_id], [event_type], [email] and [message_id] are text or null (see
    [char_field]); the length limits of the columns are left to the
    database. *)
Record ResendWebhookEvent : Type := mkEvent {
  pk : Z;
  event_id : json;
  event_type : json;
  timestamp : datetime;
  email : json;
  message_id : json;
  payload : json;
  status : Status;
  created_at : datetime;
  updated_at : datetime;
  processed_at : option datetime;
  error_message : string;
  retry_count : Z
}.

Definition set_status (v : Status) (e : ResendWebhookEvent) :=
  mkEvent (pk e) (event_id e) (event_type e) (timestamp e) (email e)
    (message_id e) (payload e) v (created_at e) (updated_at e)
    (processed_at e) (error_message e) (retry_count e).
Definition set_updated_at (v : datetime) (e : ResendWebhookEvent) :=
  mkEvent (pk e) (event_id e) (event_type e) (timestamp e) (email e)
    (message_id e) (payload e) (status e) (created_at e) v
    (processed_at e) (error_message e) (retry_count e).
Definition set_processed_at (v : option datetime) (e : ResendWebhookEvent) :=
  mkEvent (pk e) (event_id e) (event_type e) (timestamp e) (email e)
    (message_id e) (payload e) (status e) (created_at e) (updated_at e)
    v (error_message e) (retry_count e).
Definition set_error_message (v : string) (e : ResendWebhookEvent) :=
  mkEvent (pk e) (event_id e) (event_type e) (timestamp e) (email e)
    (message_id e) (payload e) (status e) (created_at e) (updated_at e)
    (processed_at e) v (retry_count e).
Definition set_retry_count (v : Z) (e : ResendWebhookEvent) :=
  mkEvent (pk e) (event_id e) (event_type e) (timestamp e) (email e)
    (message_id e) (payload e) (status e) (created_at e) (updated_at e)
    (processed_at e) (error_message e) v.

(** The columns that [save(update_fields=...)] is asked to write. *)
Inductive Field : Type :=
| F_status | F_updated_at | F_processed_at | F_error_message | F_retry_count.

Definition field_eqb (a b : Field) : bool :=
  match a, b with
  | F_status, F_status | F_updated_at, F_updated_at
  | F_processed_at, F_processed_at | F_error_message, F_error_message
  | F_retry_count, F_retry_count => true
  | _, _ => false
  end.

Definition listed (f : Field) (fields : list Field) : bool :=
  existsb (field_eqb f) fields.

(** Copy one column from the instance [src] into the row [dst]. *)
Definition write_field (src : ResendWebhookEvent) (f : Field)
    (dst : ResendWebhookEvent) : ResendWebhookEvent :=
  match f with
  | F_status => set_status (status src) dst
  | F_updated_at => set_updated_at (updated_at src) dst
  | F_processed_at => set_processed_at (processed_at src) dst
  | F_error_message => set_error_message (error_message src) dst
  | F_retry_count => set_retry_count (retry_count src) dst
  end.

Definition write_fields (src : ResendWebhookEvent) (fields : list Field)
    (dst : ResendWebhookEvent) : ResendWebhookEvent :=
  fold_left (fun row f => write_field src f row) fields dst.

(** ** The world: the table, the key counter and the clock *)

Record World : Type := mkWorld {
  rows : list ResendWebhookEvent;
  next_pk : Z;
  ticks : nat          (* how many times the clock has been read *)
}.

Definition with_rows (rs : list ResendWebhookEvent) (w : World) : World :=
  mkWorld rs (next_pk w) (ticks w).

Definition has_pk (k : Z) (rs : list ResendWebhookEvent) : bool :=
  existsb (fun r => pk r =? k) rs.

(** What the code can be seen doing to its collaborators. *)
Inductive SignalName : Type :=
| webhook_event_received | webhook_event_processed | webhook_event_failed.

Inductive Effect : Type :=
| HandlerCalled (event_pk : Z)
| SignalSent (signal : SignalName) (event_pk : Z).

(** Keyword arguments of a signal. *)
Record Kwargs : Type := mkKwargs {
  kw_event : ResendWebhookEvent;
  kw_payload : option json;
  kw_error : option pyexn
}.

(** A receiver returns ([None]) or raises. *)
Definition Receiver : Type := Kwargs -> option pyexn.

Record Signals : Type := mkSignals {
  received_receivers : list Receiver;
  processed_receivers : list Receiver;
  failed_receivers : list Receiver
}.

(** [Signal.send]: the receivers run in registration order and the first
    exception goes to the caller; the remaining receivers are not called. *)
Fixpoint send (receivers : list Receiver) (named : Kwargs) : option pyexn :=
  match receivers with
  | [] => None
  | r :: rest =>
      match r named with
      | Some e => Some e
      | None => send rest named
      end
  end.

(** A handler is given the event and returns or raises; it is taken not to
    touch the instance or the table itself. *)
Definition Handler : Type := ResendWebhookEvent -> option pyexn.

(** [float] values, as far as the receiver tells them apart. *)
Inductive pyfloat : Type :=
| FFinite (seconds : Z)
| FInfinity (negative : bool)
| FNaN.

(** The library functions the receiver relies on. *)
Record Library : Type := mkLibrary {
  (* django.utils.dateparse.parse_datetime on a str: a datetime, None when
     the text is not in the format, ValueError when it is but names no date *)
  parse_datetime : string -> outcome (option datetime);
  (* float(str) *)
  float_of_str : string -> outcome pyfloat;
  (* datetime.fromtimestamp(x, tz=utc) *)
  fromtimestamp : pyfloat -> outcome datetime;
  (* str(value), for a value that is neither a str nor None *)
  str_of : json -> string
}.

(** ** Saving an instance (models.py, lines 112-128) *)

Section Pipeline.

(** The clock: [clock n] is what the [n]-th call of [timezone.now()] returns. *)
Variable clock : nat -> datetime.
Variable lib : Library.
Variable signals : Signals.

(** [timezone.now()] *)
Definition now (w : World) : datetime * World :=
  (clock (ticks w), mkWorld (rows w) (next_pk w) (S (ticks w))).

(** [self.save(update_fields=fields)]: [updated_at] is [auto_now], so it is
    set on the instance from the clock when it is listed; then the listed
    columns are written to the row with the instance's key.  With no such row
    the update touches nothing and Django raises [DatabaseError]. *)
Definition save (fields : list Field) (w : World) (self : ResendWebhookEvent)
    : World * ResendWebhookEvent * option pyexn :=
  let '(self1, w1) :=
    if listed F_updated_at fields
    then let '(t, w') := now w in (set_updated_at t self, w')
    else (self, w) in
  if has_pk (pk self1) (rows w1)
  then (with_rows
          (map (fun row => if pk row =? pk self1
                           then write_fields self1 fields row else row)
               (rows w1)) w1,
        self1, None)
  else (w1, self1,
        Some (mkExn DatabaseError
                "Save with update_fields did not affect any rows.")).

Definition mark_processing (w : World) (self : ResendWebhookEvent) :=
  let self := set_status STATUS_PROCESSING self in
  save [F_status; F_updated_at] w self.

Definition mark_processed (w : World) (self : ResendWebhookEvent) :=
  let self := set_status STATUS_PROCESSED self in
  let '(t, w) := now w in
  let self := set_processed_at (Some t) self in
  save [F_status; F_processed_at; F_updated_at] w self.

Definition mark_failed (w : World) (self : ResendWebhookEvent)
    (message : string) :=
  let self := set_status STATUS_FAILED self in
  let self := set_error_message message self in
  let self := set_retry_count (retry_count self + 1) self in
  save [F_status; F_error_message; F_retry_count; F_updated_at] w self.

(** ** Processing one event (utils.py, lines 38-82) *)

(** What a call of [process_event] leaves behind: the world, the caller's
    instance, the log, and the value returned or the exception let out. *)
Record EventRun : Type := mkRun {
  run_world : World;
  run_event : ResendWebhookEvent;
  run_log : list Effect;
  run_result : outcome bool
}.

(** The [except Exception as e] branch. *)
Definition on_exception (w : World) (event : ResendWebhookEvent)
    (log : list Effect) (e : pyexn) : EventRun :=
  let message := exn_str e in
  let '(w1, event1, raised) := mark_failed w event message in
  match raised with
  | Some e' => mkRun w1 event1 log (Raise e')
  | None =>
      let log1 := log ++ [SignalSent webhook_event_failed (pk event1)] in
      match send (failed_receivers signals)
                 (mkKwargs event1 None (Some e)) with
      | Some e' => mkRun w1 event1 log1 (Raise e')
      | None => mkRun w1 event1 log1 (Ok false)
      end
  end.

Definition process_event (w : World) (event : ResendWebhookEvent)
    (handler : option Handler) : EventRun :=
  if negb (status_eqb (status event) STATUS_PENDING)
  then mkRun w event [] (Ok false)
  else
    let '(w1, event1, raised1) := mark_processing w event in
    match raised1 with
    | Some e => on_exception w1 event1 [] e
    | None =>
        let '(log2, raised2) :=
          match handler with
          | Some h => ([HandlerCalled (pk event1)], h event1)
          | None => ([], None)
          end in
        match raised2 with
        | Some e => on_exception w1 event1 log2 e
        | None =>
            let '(w3, event3, raised3) := mark_processed w1 event1 in
            match raised3 with
            | Some e => on_exception w3 event3 log2 e
            | None =>
                let log4 :=
                  log2 ++ [SignalSent webhook_event_processed (pk event3)] in
                match send (processed_receivers signals)
                           (mkKwargs event3 None None) with
                | Some e => on_exception w3 event3 log4 e
                | None => mkRun w3 event3 log4 (Ok true)
                end
            end
        end
    end.

(** ** Query sets *)

(** The queries the code builds: [filter(status=...)], optionally
    [filter(event_type=...)] and [retry_count__lt], [order_by('created_at')],
    optionally a slice [[:high]]. *)
Record QuerySet : Type := mkQuery {
  q_status : Status;
  q_event_type : option string;
  q_retry_count_lt : option Z;
  q_high_mark : option Z
}.

Definition matches (q : QuerySet) (row : ResendWebhookEvent) : bool :=
  status_eqb (status row) (q_status q)
  && match q_event_type q with
     | Some t => json_eqb (event_type row) (JStr t)
     | None => true
     end
  && match q_retry_count_lt q with
     | Some m => retry_count row <? m
     | None => true
     end.

(** [order_by('created_at')]: rows with equal [created_at] keep the order of
    the table. *)
Fixpoint insert_by_created_at (row : ResendWebhookEvent)
    (sorted : list ResendWebhookEvent) : list ResendWebhookEvent :=
  match sorted with
  | [] => [row]
  | r :: rest =>
      if created_at row <=? created_at r
      then row :: r :: rest
      else r :: insert_by_created_at row rest
  end.

Definition order_by_created_at (rs : list ResendWebhookEvent) :=
  fold_right insert_by_created_at [] rs.

(** The rows a query set yields on the table as it is now. *)
Definition fetch (q : QuerySet) (w : World) : list ResendWebhookEvent :=
  let ordered := order_by_created_at (filter (matches q) (rows w)) in
  match q_high_mark q with
  | Some high => firstn (Z.to_nat high) ordered
  | None => ordered
  end.

(** [queryset[:limit]]: a negative bound is refused. *)
Definition slice (q : QuerySet) (limit : Z) : outcome QuerySet :=
  if limit <? 0
  then Raise (mkExn ValueError "Negative indexing is not supported.")
  else Ok (mkQuery (q_status q) (q_event_type q) (q_retry_count_lt q)
             (Some limit)).

(** [queryset.update(status=v)]: one UPDATE over the rows matching now; a
    sliced query is refused.  [updated_at] is not touched. *)
Definition update_status (q : QuerySet) (v : Status) (w : World)
    : outcome World :=
  match q_high_mark q with
  | Some _ =>
      Raise (mkExn TypeError
               "Cannot update a query once a slice has been taken.")
  | None =>
      Ok (with_rows
            (map (fun row => if matches q row then set_status v row else row)
                 (rows w)) w)
  end.

(** [queryset.count()] on a query set that has not been iterated. *)
Definition count (q : QuerySet) (w : World) : Z :=
  Z.of_nat (List.length (fetch q w)).

(** ** The batch functions (utils.py) *)

Definition get_pending_events (limit : option Z) (type_filter : option string)
    : outcome QuerySet :=
  let queryset := mkQuery STATUS_PENDING None None None in
  let queryset :=
    match type_filter with
    | Some t =>
        if negb (t =? "")%string
        then mkQuery (q_status queryset) (Some t)
               (q_retry_count_lt queryset) (q_high_mark queryset)
        else queryset
    | None => queryset
    end in
  match limit with
  | Some n => if negb (n =? 0) then slice queryset n else Ok queryset
  | None => Ok queryset
  end.

Record Stats : Type := mkStats { total : Z; processed : Z; failed : Z }.

Record BatchRun : Type := mkBatch {
  batch_world : World;
  batch_log : list Effect;
  batch_result : outcome Stats
}.

(** The [for event in events] loop of [process_pending_events]. *)
Fixpoint pending_loop (handler : option Handler)
    (events : list ResendWebhookEvent) (w : World) (log : list Effect)
    (stats : Stats) : BatchRun :=
  match events with
  | [] => mkBatch w log (Ok stats)
  | event :: rest =>
      let stats := mkStats (total stats + 1) (processed stats) (failed stats) in
      let r := process_event w event handler in
      match run_result r with
      | Raise e => mkBatch (run_world r) (log ++ run_log r) (Raise e)
      | Ok true =>
          pending_loop handler rest (run_world r) (log ++ run_log r)
            (mkStats (total stats) (processed stats + 1) (failed stats))
      | Ok false =>
          pending_loop handler rest (run_world r) (log ++ run_log r)
            (mkStats (total stats) (processed stats) (failed stats + 1))
      end
  end.

Definition process_pending_events (limit : option Z)
    (type_filter : option string) (handler : option Handler) (w : World)
    : BatchRun :=
  match get_pending_events limit type_filter with
  | Raise e => mkBatch w [] (Raise e)
  | Ok events =>
      pending_loop handler (fetch events w) w [] (mkStats 0 0 0)
  end.

(** The [for event in queryset] loop of [retry_failed_events]: [total] was
    set from [count()] and is not touched here. *)
Fixpoint retry_loop (events : list ResendWebhookEvent) (w : World)
    (log : list Effect) (stats : Stats) : BatchRun :=
  match events with
  | [] => mkBatch w log (Ok stats)
  | event :: rest =>
      let r := process_event w event None in
      match run_result r with
      | Raise e => mkBatch (run_world r) (log ++ run_log r) (Raise e)
      | Ok true =>
          retry_loop rest (run_world r) (log ++ run_log r)
            (mkStats (total stats) (processed stats + 1) (failed stats))
      | Ok false =>
          retry_loop rest (run_world r) (log ++ run_log r)
            (mkStats (total stats) (processed stats) (failed stats + 1))
      end
  end.

Definition retry_failed_events (limit : option Z) (max_retries : Z)
    (w : World) : BatchRun :=
  let queryset := mkQuery STATUS_FAILED None (Some max_retries) None in
  let sliced :=
    match limit with
    | Some n => if negb (n =? 0) then slice queryset n else Ok queryset
    | None => Ok queryset
    end in
  match sliced with
  | Raise e => mkBatch w [] (Raise e)
  | Ok queryset =>
      match update_status queryset STATUS_PENDING w with
      | Raise e => mkBatch w [] (Raise e)
      | Ok w1 =>
          let stats := mkStats (count queryset w1) 0 0 in
          retry_loop (fetch queryset w1) w1 [] stats
      end
  end.

(** ** The webhook receiver (views.py) *)

(** A request body, by what [json.loads] makes of it: it raises
    [JSONDecodeError], it raises something else (bytes that are not text), or
    it returns a value. *)
Inductive Body : Type :=
| NotJSON
| NotText (e : pyexn)
| Parsed (data : json).

Record HttpRequest : Type := mkRequest { method : string; body : Body }.

Record HttpResponse : Type := mkResponse { status_code : Z; content : json }.

Definition bad_request (message : string) : HttpResponse :=
  mkResponse 400 (JObj [("error", JStr message)]).
Definition server_error : HttpResponse :=
  mkResponse 500 (JObj [("error", JStr "Internal server error")]).
Definition duplicate_response : HttpResponse :=
  mkResponse 200 (JObj [("status", JStr "duplicate");
                        ("message", JStr "Event already processed")]).
Definition received_response (id : json) : HttpResponse :=
  mkResponse 200 (JObj [("status", JStr "received"); ("event_id", id)]).
Definition not_allowed : HttpResponse := mkResponse 405 JNull.

Record ViewRun : Type := mkView {
  view_world : World;
  view_log : list Effect;
  response : HttpResponse
}.

Definition bind {A B : Type} (m : outcome A) (k : A -> outcome B) : outcome B :=
  match m with
  | Ok a => k a
  | Raise e => Raise e
  end.

Notation "x <- m ;; k" := (bind m (fun x => k))
  (at level 61, m at next level, right associativity).

(** Lines 41-43. *)
Definition read_head (data : json) : outcome (json * json * json) :=
  id <- get data "id" JNull ;;
  type <- get data "type" (JStr "") ;;
  event_data <- get data "data" (JObj []) ;;
  Ok (id, type, event_data).

(** Line 53. *)
Definition read_timestamp_str (data : json) : outcome json :=
  a <- get data "created_at" JNull ;;
  if truthy a then Ok a else get data "timestamp" JNull.

(** Lines 56-62, the body of the inner [try].  [parse_datetime] of a value
    that is not a [str] raises [TypeError]. *)
Definition read_datetime (timestamp_str : json) : outcome datetime :=
  match timestamp_str with
  | JStr s =>
      parsed <- parse_datetime lib s ;;
      match parsed with
      | Some t => Ok t
      | None => x <- float_of_str lib s ;; fromtimestamp lib x
      end
  | _ => Raise (mkExn TypeError "fromisoformat: argument must be str")
  end.

(** Lines 54-66.  [ValueError] and [TypeError] are caught and the clock is
    read instead; any other exception leaves the block. *)
Definition parse_timestamp (timestamp_str : json) (w : World)
    : World * outcome datetime :=
  if truthy timestamp_str
  then
    match read_datetime timestamp_str with
    | Ok t => (w, Ok t)
    | Raise e =>
        match exn_cls e with
        | ValueError | TypeError => let '(t, w') := now w in (w', Ok t)
        | _ => (w, Raise e)
        end
    end
  else let '(t, w') := now w in (w', Ok t).

(** Lines 69-71. *)
Definition read_email (event_data : json) : outcome json :=
  a <- get event_data "to" JNull ;;
  b <- get event_data "email" JNull ;;
  c <- get event_data "recipient" JNull ;;
  let email := py_or (py_or a b) c in
  Ok (match email with
      | JArr (first :: _) => first
      | _ => email
      end).

(** Line 73. *)
Definition read_message_id (event_data : json) : outcome json :=
  a <- get event_data "email_id" JNull ;;
  b <- get event_data "message_id" JNull ;;
  c <- get event_data "id" JNull ;;
  Ok (py_or (py_or a b) c).

Fixpoint find_event (id : json) (rs : list ResendWebhookEvent)
    : option ResendWebhookEvent :=
  match rs with
  | [] => None
  | row :: rest =>
      if json_eqb (event_id row) id then Some row else find_event id rest
  end.

(** What a [CharField] stores and looks up for a value: a [str] and [None]
    as they are, anything else through [str()]. *)
Definition char_field (v : json) : json :=
  match v with
  | JStr _ | JNull => v
  | _ => JStr (str_of lib v)
  end.

(** [objects.get_or_create(event_id=..., defaults=...)]: the row with that
    [event_id] if there is one, else a new row; [created_at] and [updated_at]
    are read from the clock, the remaining columns take their defaults.  The
    [event_type] column does not accept null: the insert fails with
    [IntegrityError], which [get_or_create] lets out.  The instance handed
    back for a new row holds the values as they were passed. *)
Definition get_or_create (w : World) (id type : json) (ts : datetime)
    (mail message data : json)
    : World * outcome (ResendWebhookEvent * bool) :=
  match find_event (char_field id) (rows w) with
  | Some row => (w, Ok (row, false))
  | None =>
      let '(t1, w1) := now w in
      let '(t2, w2) := now w1 in
      match char_field type with
      | JNull =>
          (w2, Raise (mkExn IntegrityError
                        "NOT NULL constraint failed: event_type"))
      | type_text =>
          let instance := mkEvent (next_pk w2) id type ts mail message data
                            STATUS_PENDING t1 t2 None "" 0 in
          let row := mkEvent (next_pk w2) (char_field id) type_text ts
                       (char_field mail) (char_field message) data
                       STATUS_PENDING t1 t2 None "" 0 in
          (mkWorld (rows w2 ++ [row]) (next_pk w2 + 1) (ticks w2),
           Ok (instance, true))
      end
  end.

(** The values read from the payload (lines 41-73). *)
Record Extracted : Type := mkExtracted {
  x_id : json;
  x_type : json;
  x_timestamp : datetime;
  x_email : json;
  x_message_id : json
}.

(** Lines 41-73, inside the outer [try]: the response when the request ends
    here (the 400 of line 47, or the 500 of the outer [except Exception] for
    an exception raised on the way), else the values read.  Only the clock
    is touched. *)
Definition extract (data : json) (w : World)
    : World * (HttpResponse + Extracted) :=
  match read_head data with
  | Raise _ => (w, inl server_error)
  | Ok (id, type, event_data) =>
      if negb (truthy id)
      then (w, inl (bad_request "Missing event ID"))
      else
        match read_timestamp_str data with
        | Raise _ => (w, inl server_error)
        | Ok timestamp_str =>
            let '(w1, parsed) := parse_timestamp timestamp_str w in
            match parsed with
            | Raise _ => (w1, inl server_error)
            | Ok ts =>
                match read_email event_data with
                | Raise _ => (w1, inl server_error)
                | Ok mail =>
                    match read_message_id event_data with
                    | Raise _ => (w1, inl server_error)
                    | Ok message =>
                        (w1, inr (mkExtracted id type ts mail message))
                    end
                end
            end
        end
  end.

(** Lines 75-104: [get_or_create], then the signal and the response. *)
Definition store_and_notify (data : json) (x : Extracted) (w : World)
    : ViewRun :=
  let '(w2, got) :=
    get_or_create w (x_id x) (x_type x) (x_timestamp x) (x_email x)
      (x_message_id x) data in
  match got with
  | Raise _ => mkView w2 [] server_error
  | Ok (event, created) =>
      if negb created
      then mkView w2 [] duplicate_response
      else
        let log := [SignalSent webhook_event_received (pk event)] in
        match send (received_receivers signals)
                (mkKwargs event (Some data) None) with
        | Some _ => mkView w2 log server_error
        | None => mkView w2 log (received_response (x_id x))
        end
  end.

(** Lines 40-112, after the body has been parsed. *)
Definition receive (data : json) (w : World) : ViewRun :=
  let '(w1, read) := extract data w in
  match read with
  | inl early => mkView w1 [] early
  | inr x => store_and_notify data x w1
  end.

Definition resend_webhook_view (request : HttpRequest) (w : World) : ViewRun :=
  if negb (method request =? "POST")%string
  then mkView w [] not_allowed
  else
    match body request with
    | NotJSON => mkView w [] (bad_request "Invalid JSON payload")
    | NotText _ => mkView w [] server_error
    | Parsed data => receive data w
    end.

(** ** Two invocations of [process_event] at once

    Each invocation holds its own instance and runs the statements of
    [process_event] one at a time; the table is shared.  A statement that
    reads or writes the table is one step. *)

Inductive Pc : Type :=
| AtCheck                      (* line 49 *)
| AtClaim                      (* line 54 *)
| AtHandler                    (* lines 57-58 *)
| AtMarkProcessed              (* line 64 *)
| AtSendProcessed              (* line 65 *)
| AtMarkFailed (e : pyexn)     (* lines 74-76 *)
| AtSendFailed (e : pyexn)     (* line 77 *)
| Finished (r : outcome bool).

Record Worker : Type := mkWorker {
  worker_event : ResendWebhookEvent;
  worker_handler : option Handler;
  worker_pc : Pc
}.

Definition worker_step (w : World) (t : Worker)
    : World * Worker * list Effect :=
  let event := worker_event t in
  let h := worker_handler t in
  match worker_pc t with
  | AtCheck =>
      if negb (status_eqb (status event) STATUS_PENDING)
      then (w, mkWorker event h (Finished (Ok false)), [])
      else (w, mkWorker event h AtClaim, [])
  | AtClaim =>
      let '(w1, event1, raised) := mark_processing w event in
      match raised with
      | Some e => (w1, mkWorker event1 h (AtMarkFailed e), [])
      | None => (w1, mkWorker event1 h AtHandler, [])
      end
  | AtHandler =>
      match h with
      | Some f =>
          match f event with
          | Some e => (w, mkWorker event h (AtMarkFailed e),
                       [HandlerCalled (pk event)])
          | None => (w, mkWorker event h AtMarkProcessed,
                     [HandlerCalled (pk event)])
          end
      | None => (w, mkWorker event h AtMarkProcessed, [])
      end
  | AtMarkProcessed =>
      let '(w1, event1, raised) := mark_processed w event in
      match raised with
      | Some e => (w1, mkWorker event1 h (AtMarkFailed e), [])
      | None => (w1, mkWorker event1 h AtSendProcessed, [])
      end
  | AtSendProcessed =>
      let log := [SignalSent webhook_event_processed (pk event)] in
      match send (processed_receivers signals) (mkKwargs event None None) with
      | Some e => (w, mkWorker event h (AtMarkFailed e), log)
      | None => (w, mkWorker event h (Finished (Ok true)), log)
      end
  | AtMarkFailed e =>
      let '(w1, event1, raised) := mark_failed w event (exn_str e) in
      match raised with
      | Some e' => (w1, mkWorker event1 h (Finished (Raise e')), [])
      | None => (w1, mkWorker event1 h (AtSendFailed e), [])
      end
  | AtSendFailed e =>
      let log := [SignalSent webhook_event_failed (pk event)] in
      match send (failed_receivers signals)
              (mkKwargs event None (Some e)) with
      | Some e' => (w, mkWorker event h (Finished (Raise e')), log)
      | None => (w, mkWorker event h (Finished (Ok false)), log)
      end
  | Finished r => (w, t, [])
  end.

(** One worker on its own, [n] steps. *)
Fixpoint run_alone (n : nat) (w : World) (t : Worker) (log : list Effect)
    : World * Worker * list Effect :=
  match n with
  | O => (w, t, log)
  | S n' =>
      let '(w1, t1, l1) := worker_step w t in
      run_alone n' w1 t1 (log ++ l1)
  end.

(** Two workers under a schedule: [true] lets the first one take a step,
    [false] the second. *)
Record Pair : Type := mkPair {
  shared : World;
  first : Worker;
  second : Worker;
  trace : list Effect
}.

Definition pair_step (turn : bool) (s : Pair) : Pair :=
  if turn
  then let '(w1, t1, l1) := worker_step (shared s) (first s) in
       mkPair w1 t1 (second s) (trace s ++ l1)
  else let '(w1, t1, l1) := worker_step (shared s) (second s) in
       mkPair w1 (first s) t1 (trace s ++ l1).

Definition interleave (schedule : list bool) (s : Pair) : Pair :=
  fold_left (fun s turn => pair_step turn s) schedule s.

Definition is_finished (t : Worker) : bool :=
  match worker_pc t with
  | Finished _ => true
  | _ => false
  end.

End Pipeline.

Definition handler_calls (log : list Effect) : nat :=
  List.length (filter (fun x => match x with HandlerCalled _ => true
                                | _ => false end) log).

Definition sends_of (s : SignalName) (log : list Effect) : nat :=
  List.length
    (filter (fun x => match x, s with
                      | SignalSent webhook_event_received _,
                        webhook_event_received
                      | SignalSent webhook_event_processed _,
                        webhook_event_processed
                      | SignalSent webhook_event_failed _,
                        webhook_event_failed => true
                      | _, _ => false
                      end) log).

(** ** The three transitions, as values

    The instance (or row) after a claim, a success and a failure; [t] is the
    clock reading stored in [updated_at]. *)

Definition claimed (t : datetime) (e : ResendWebhookEvent) :=
  set_updated_at t (set_status STATUS_PROCESSING e).

Definition completed (t_done t : datetime) (e : ResendWebhookEvent) :=
  set_updated_at t
    (set_processed_at (Some t_done) (set_status STATUS_PROCESSED e)).

Definition failed_with (message : string) (retries : Z) (t : datetime)
    (e : ResendWebhookEvent) :=
  set_updated_at t
    (set_retry_count retries
       (set_error_message message (set_status STATUS_FAILED e))).

(** Apply [f] to the rows with key [k]. *)
Definition on_rows (k : Z) (f : ResendWebhookEvent -> ResendWebhookEvent)
    (rs : list ResendWebhookEvent) : list ResendWebhookEvent :=
  map (fun row => if pk row =? k then f row else row) rs.

(** What the handler does with the event it is handed ([None] when there is
    no handler, or when it returns). *)
Definition handler_outcome (handler : option Handler)
    (handed : ResendWebhookEvent) : option pyexn :=
  match handler with
  | Some h => h handed
  | None => None
  end.

(** The keys of the events the handler was called on, in order. *)
Fixpoint handled (log : list Effect) : list Z :=
  match log with
  | [] => []
  | HandlerCalled k :: rest => k :: handled rest
  | SignalSent _ _ :: rest => handled rest
  end.


(** [if limit:] and [if event_type:] take [0] and [''] for absent. *)
Definition given_limit (limit : option Z) : option Z :=
  match limit with
  | Some n => if n =? 0 then None else Some n
  | None => None
  end.

Definition given_type (type_filter : option string) : option string :=
  match type_filter with
  | Some t => if (t =? "")%string then None else Some t
  | None => None
  end.

(** How many handler calls a worker still has ahead of it, its row being in
    the table. *)
Definition owes (t : Worker) : nat :=
  match worker_handler t with
  | None => 0
  | Some _ =>
      match worker_pc t with
      | AtCheck =>
          if status_eqb (status (worker_event t)) STATUS_PENDING
          then 1 else 0
      | AtClaim | AtHandler => 1
      | _ => 0
      end
  end%nat.

(** How many steps a worker has left at most. *)
Definition steps_left (t : Worker) : nat :=
  match worker_pc t with
  | AtCheck => 7
  | AtClaim => 6
  | AtHandler => 5
  | AtMarkProcessed => 4
  | AtSendProcessed => 3
  | AtMarkFailed _ => 2
  | AtSendFailed _ => 1
  | Finished _ => 0
  end%nat.

(** How often a schedule gives the turn to the first worker ([true]) or to
    the second ([false]). *)
Definition turns (who : bool) (schedule : list bool) : nat :=
  List.length (filter (Bool.eqb who) schedule).

(** What every schedule keeps: both rows are in the table, and the handler
    calls made so far plus those still owed are the ones owed at the
    start. *)
Definition pair_invariant (owed : nat) (s : Pair) : Prop :=
  has_pk (pk (worker_event (first s))) (rows (shared s)) = true
  /\ has_pk (pk (worker_event (second s))) (rows (shared s)) = true
  /\ (handler_calls (trace s) + owes (first s) + owes (second s) = owed)%nat.

(** ** Sample data for the examples *)

Definition sample_clock (n : nat) : datetime := 1000 + Z.of_nat n.

(** The date functions on the texts used below, as CPython 3.11 and Django
    4.2 answer: ["2024-01-15T10:30:00+00:00"] is a date; ["inf"] is no date,
    [float("inf")] is infinity and [fromtimestamp] of it raises
    [OverflowError]; ["1700000000"] is no date but a number of seconds;
    any other text is taken to be neither.  The ids and types of the
    examples are texts, so [str_of] is not called on them; it is given for
    [True], [False] and [0]. *)
Definition sample_lib : Library :=
  mkLibrary
    (fun s => if (s =? "2024-01-15T10:30:00+00:00")%string
              then Ok (Some 1705314600) else Ok None)
    (fun s => if (s =? "inf")%string then Ok (FInfinity false)
              else if (s =? "1700000000")%string then Ok (FFinite 1700000000)
              else Raise (mkExn ValueError "could not convert string to float"))
    (fun x => match x with
              | FFinite seconds => Ok seconds
              | FInfinity _ =>
                  Raise (mkExn OverflowError
                           "timestamp out of range for platform time_t")
              | FNaN => Raise (mkExn ValueError
                                 "Invalid value NaN (not a number)")
              end)
    (fun v => match v with
              | JBool true => "True"
              | JBool false => "False"
              | _ => "0"
              end).

Definition no_receivers : Signals := mkSignals [] [] [].

(** A receiver that raises, whatever it is sent. *)
Definition raising_receiver : Receiver :=
  fun _ => Some (mkExn OtherError "receiver failed").

Definition empty_world : World := mkWorld [] 1 0.

Definition post (data : json) : HttpRequest := mkRequest "POST" (Parsed data).

(** A stored event as the receiver creates it, with the given key, creation
    time, status and retry count. *)
Definition sample_event (k : Z) (created : datetime) (s : Status)
    (retries : Z) : ResendWebhookEvent :=
  mkEvent k (JStr "evt") (JStr "email.sent") created JNull JNull
    (JObj [("id", JStr "evt")]) s created created None "" retries.

(** A handler that raises on the event with key 2 and returns otherwise. *)
Definition fails_on_second : Handler :=
  fun event => if pk event =? 2
               then Some (mkExn OtherError "boom") else None.

(** A handler that raises an exception built without a message. *)
Definition raises_bare : Handler := fun _ => Some (mkExn OtherError "").

Definition always_raises : Handler :=
  fun _ => Some (mkExn ValueError "bad address").

Definition returns_quietly : Handler := fun _ => None.

(** ** The rest of the model (models.py, lines 130-136) *)

(** [self.payload.get('data', {})] *)
Definition get_payload_data (self : ResendWebhookEvent) : outcome json :=
  get (payload self) "data" (JObj []).

(** [self.payload.get('type', '')] *)
Definition get_payload_type (self : ResendWebhookEvent) : outcome json :=
  get (payload self) "type" (JStr "").

(** ** Relations between a table before and after *)

(** The columns written at receipt only. *)
Definition same_receipt (old new : ResendWebhookEvent) : Prop :=
  pk new = pk old
  /\ event_id new = event_id old
  /\ event_type new = event_type old
  /\ timestamp new = timestamp old
  /\ email new = email old
  /\ message_id new = message_id old
  /\ payload new = payload old
  /\ created_at new = created_at old.

(** A row before and after an operation that may write the processing
    columns of the rows whose key is in [keys]. *)
Definition touches (keys : list Z) (old new : ResendWebhookEvent) : Prop :=
  same_receipt old new
  /\ (~ In (pk old) keys -> new = old)
  /\ (processed_at old <> None -> processed_at new <> None).

(** A table as the receiver builds it: no two rows share an [event_id] or a
    key, and the key counter is above every key in use. *)
Definition table_ok (w : World) : Prop :=
  NoDup (map event_id (rows w))
  /\ NoDup (map pk (rows w))
  /\ Forall (fun row => pk row < next_pk w) (rows w).

(** ** The admin actions (admin.py, lines 58-120) *)

(** The queryset an action is handed: a lazy selection of rows, run against
    the table each time it is used. *)
Definition Selection : Type := ResendWebhookEvent -> bool.

(** [queryset.update(...)] with [change] the assignment, then
    [queryset.count()], which goes into the message shown to the user. *)
Record ActionRun : Type := mkAction {
  action_world : World;
  reported : Z
}.

Definition bulk_update (queryset : Selection)
    (change : ResendWebhookEvent -> ResendWebhookEvent) (w : World) : World :=
  with_rows (map (fun row => if queryset row then change row else row)
               (rows w)) w.

Definition selected_count (queryset : Selection) (w : World) : Z :=
  Z.of_nat (List.length (filter queryset (rows w))).

Definition mark_as_pending (queryset : Selection) (w : World) : ActionRun :=
  let w1 := bulk_update queryset (set_status STATUS_PENDING) w in
  mkAction w1 (selected_count queryset w1).

Definition mark_as_failed (queryset : Selection) (w : World) : ActionRun :=
  let w1 := bulk_update queryset (set_status STATUS_FAILED) w in
  mkAction w1 (selected_count queryset w1).

(** [processed_at=timezone.now()] is evaluated once, before the update. *)
Definition mark_as_processed (clock : nat -> datetime) (queryset : Selection)
    (w : World) : ActionRun :=
  let '(t, w0) := now clock w in
  let w1 := bulk_update queryset
              (fun row => set_processed_at (Some t)
                            (set_status STATUS_PROCESSED row)) w0 in
  mkAction w1 (selected_count queryset w1).

(** A byte of the form [10xxxxxx] continues a character; every other byte
    starts one. *)
Definition is_continuation (c : Ascii.ascii) : bool :=
  match c with
  | Ascii.Ascii _ _ _ _ _ _ b6 b7 => b7 && negb b6
  end.

(** [len(s)]: the number of characters, not of bytes. *)
Fixpoint py_len (s : string) : nat :=
  match s with
  | EmptyString => 0%nat
  | String c rest =>
      if is_continuation c then py_len rest else S (py_len rest)
  end.

(** [s[:n]] for [n >= 0]: the first [n] characters, each with all its
    bytes. *)
Fixpoint py_prefix (n : nat) (s : string) : string :=
  match s with
  | EmptyString => EmptyString
  | String c rest =>
      if is_continuation c then String c (py_prefix n rest)
      else match n with
           | O => EmptyString
           | S m => String c (py_prefix m rest)
           end
  end.

(** [event_id_short] (admin.py, lines 60-64): [len] of a value that is not
    a [str] raises. *)
Definition event_id_short (obj : ResendWebhookEvent) : outcome string :=
  match event_id obj with
  | JStr id =>
      Ok (if (20 <? py_len id)%nat
          then (py_prefix 20 id ++ "...")%string
          else id)
  | _ => Raise (mkExn TypeError "object has no len()")
  end.

(** ** Settings and the API client (conf.py, client.py) *)

(** [getattr(settings, 'RESEND_APIKEY', '')], the settings being the list of
    the attributes that are set. *)
Definition get_resend_api_key (settings : list (string * json)) : json :=
  member "RESEND_APIKEY" settings (JStr "").

(** The [resend] module as the client sees it: [None] when the package is
    not installed, else the value of its [api_key] attribute. *)
Definition ResendModule : Type := option json.

Record ResendClient : Type := mkClient { api_key : json }.

(** [ResendClient.__init__] (lines 34-54): the module after the call, and
    the client or the exception. *)
Definition ResendClient_init (key : json) (settings : list (string * json))
    (resend : ResendModule) : ResendModule * outcome ResendClient :=
  match resend with
  | None =>
      (resend, Raise (mkExn OtherError "resend package is not installed."))
  | Some _ =>
      let self_api_key := py_or key (get_resend_api_key settings) in
      if negb (truthy self_api_key)
      then (resend, Raise (mkExn ValueError "Resend API key is required."))
      else (Some self_api_key, Ok (mkClient self_api_key))
  end.

(** [params[key] = value] on a dict held as the list of its items. *)
Fixpoint dict_set (key : string) (value : json)
    (items : list (string * json)) : list (string * json) :=
  match items with
  | [] => [(key, value)]
  | (k, v) :: rest =>
      if (k =? key)%string then (key, value) :: rest
      else (k, v) :: dict_set key value rest
  end.

(** [params.update(kwargs)] *)
Definition dict_update (items kwargs : list (string * json))
    : list (string * json) :=
  fold_left (fun d kv => dict_set (fst kv) (snd kv) d) kwargs items.

(** [v if isinstance(v, list) else [v]] *)
Definition as_list (v : json) : json :=
  match v with
  | JArr _ => v
  | _ => JArr [v]
  end.

(** The arguments of [send_email] other than [to] and [subject]; [None] is
    [JNull]. *)
Record Optional : Type := mkOptional {
  html : json;
  text : json;
  from_email : json;
  reply_to : json;
  cc : json;
  bcc : json;
  tags : json;
  attachments : json;
  headers : json
}.

(** Lines 94-119 of [send_email]. *)
Definition build_params (to subject : json) (o : Optional)
    (kwargs : list (string * json)) : list (string * json) :=
  let params := [("to", as_list to); ("subject", subject)] in
  let params := if truthy (html o)
                then dict_set "html" (html o) params else params in
  let params := if truthy (text o)
                then dict_set "text" (text o) params else params in
  let params := if truthy (from_email o)
                then dict_set "from" (from_email o) params else params in
  let params := if truthy (reply_to o)
                then dict_set "reply_to" (as_list (reply_to o)) params
                else params in
  let params := if truthy (cc o)
                then dict_set "cc" (as_list (cc o)) params else params in
  let params := if truthy (bcc o)
                then dict_set "bcc" (as_list (bcc o)) params else params in
  let params := if truthy (tags o)
                then dict_set "tags" (tags o) params else params in
  let params := if truthy (attachments o)
                then dict_set "attachments" (attachments o) params
                else params in
  let params := if truthy (headers o)
                then dict_set "headers" (headers o) params else params in
  dict_update params kwargs.

(** [ResendClient.send_email] (lines 56-127).  [emails_send] is
    [resend.Emails.send], given the module's [api_key] and the params; its
    exception is raised again, and so is the one of [response.get('id')] in
    the log line when the response is not a dict. *)
Definition client_send_email (emails_send : json -> json -> outcome json)
    (resend : ResendModule) (self : ResendClient) (to subject : json)
    (o : Optional) (kwargs : list (string * json)) : outcome json :=
  match resend with
  | None => Raise (mkExn AttributeError
                     "'NoneType' object has no attribute 'Emails'")
  | Some module_key =>
      bind (emails_send module_key
              (JObj (build_params to subject o kwargs)))
        (fun response =>
           bind (get response "id" JNull) (fun _ => Ok response))
  end.

(** The names [send_email] binds itself; a keyword argument of the module
    function with one of these names goes to the parameter, the others stay
    in [kwargs]. *)
Definition bound_names : list string :=
  ["from_email"; "reply_to"; "cc"; "bcc"; "tags"; "attachments"; "headers"].

(** The module-level [send_email] (lines 148-168): a new client with the key
    of the settings, then its [send_email]. *)
Definition send_email (emails_send : json -> json -> outcome json)
    (settings : list (string * json)) (resend : ResendModule)
    (to subject html text : json) (kwargs : list (string * json))
    : ResendModule * outcome json :=
  let '(resend1, made) := ResendClient_init JNull settings resend in
  match made with
  | Raise e => (resend1, Raise e)
  | Ok client =>
      let o := mkOptional html text
                 (member "from_email" kwargs JNull)
                 (member "reply_to" kwargs JNull)
                 (member "cc" kwargs JNull)
                 (member "bcc" kwargs JNull)
                 (member "tags" kwargs JNull)
                 (member "attachments" kwargs JNull)
                 (member "headers" kwargs JNull) in
      let rest := filter (fun kv =>
                            negb (existsb (String.eqb (fst kv)) bound_names))
                    kwargs in
      (resend1, client_send_email emails_send resend1 client to subject o rest)
  end.

(** * Properties *)

(** ** Python values *)

Lemma json_eqb_refl : forall v, json_eqb v v = true.
Proof.
  fix IH 1.
  intros [ | b | n | s | items | members]; simpl.
  - reflexivity.
  - destruct b; reflexivity.
  - apply Z.eqb_refl.
  - apply String.eqb_refl.
  - induction items as [ | x xs IHxs]; [reflexivity | ].
    rewrite IH, IHxs. reflexivity.
  - induction members as [ | [k x] xs IHxs]; [reflexivity | ].
    rewrite String.eqb_refl, IH, IHxs. reflexivity.
Qed.

Lemma status_eqb_eq : forall a b, status_eqb a b = true <-> a = b.
Proof.
  intros a b; split.
  - destruct a, b; simpl; intro H; try reflexivity; discriminate H.
  - intros ->. destruct b; reflexivity.
Qed.

Lemma status_eqb_refl : forall a, status_eqb a a = true.
Proof. intro a. apply status_eqb_eq. reflexivity. Qed.

(** ** Saving *)

Section SaveFacts.

Variable clock : nat -> datetime.

(** A map over the table that keeps every key keeps [has_pk]. *)
Lemma has_pk_map : forall (f : ResendWebhookEvent -> ResendWebhookEvent) k rs,
  (forall row, pk (f row) = pk row) ->
  has_pk k (map f rs) = has_pk k rs.
Proof.
  intros f k rs Hf. unfold has_pk.
  induction rs as [ | r rs IH]; simpl; [reflexivity | ].
  rewrite Hf, IH. reflexivity.
Qed.

Lemma write_fields_pk : forall src fields dst,
  pk (write_fields src fields dst) = pk dst.
Proof.
  intros src fields. unfold write_fields.
  induction fields as [ | f fs IH]; intro dst; simpl; [reflexivity | ].
  rewrite IH. destruct f; reflexivity.
Qed.

(** Saving with [updated_at] listed, when the row is there. *)
Lemma save_stored : forall fields w self,
  listed F_updated_at fields = true ->
  has_pk (pk self) (rows w) = true ->
  save clock fields w self =
    (mkWorld
       (map (fun row =>
               if pk row =? pk self
               then write_fields (set_updated_at (clock (ticks w)) self)
                      fields row
               else row) (rows w))
       (next_pk w) (S (ticks w)),
     set_updated_at (clock (ticks w)) self, None).
Proof.
  intros fields w self Hl Hpk. unfold save. rewrite Hl. simpl.
  rewrite Hpk. reflexivity.
Qed.

(** Saving when no row has the key: nothing is written and the call raises. *)
Lemma save_missing : forall fields w self,
  listed F_updated_at fields = true ->
  has_pk (pk self) (rows w) = false ->
  exists e,
    save clock fields w self =
      (mkWorld (rows w) (next_pk w) (S (ticks w)),
       set_updated_at (clock (ticks w)) self, Some e)
    /\ exn_cls e = DatabaseError.
Proof.
  intros fields w self Hl Hpk. unfold save. rewrite Hl. simpl.
  rewrite Hpk. eexists. split; reflexivity.
Qed.

(** Every save keeps the keys of the table, in order. *)
Lemma save_keys : forall fields w self w' self' raised,
  save clock fields w self = (w', self', raised) ->
  map pk (rows w') = map pk (rows w) /\ pk self' = pk self.
Proof.
  intros fields w self w' self' raised. unfold save.
  destruct (listed F_updated_at fields); simpl;
    match goal with |- context [has_pk ?k ?rs] => destruct (has_pk k rs) end;
    intro H; inversion H; subst; clear H; simpl; split; try reflexivity.
  all: rewrite map_map; apply map_ext; intro row;
    destruct (pk row =? _); [apply write_fields_pk | reflexivity].
Qed.

Lemma has_pk_keys : forall k rs rs',
  map pk rs' = map pk rs -> has_pk k rs' = has_pk k rs.
Proof.
  intros k rs rs' H. unfold has_pk.
  rewrite <- (map_id rs), <- (map_id rs').
  assert (E : forall l, existsb (fun r => pk r =? k) (map (fun x => x) l)
                        = existsb (fun z => z =? k) (map pk l)).
  { induction l as [ | a l IH]; simpl; [reflexivity | now rewrite IH ]. }
  rewrite !E, H. reflexivity.
Qed.

End SaveFacts.

(** ** The three transitions *)

Section EngineFacts.

Variable clock : nat -> datetime.
Variable signals : Signals.

Lemma has_pk_on_rows : forall k k' f rs,
  (forall row, pk (f row) = pk row) ->
  has_pk k (on_rows k' f rs) = has_pk k rs.
Proof.
  intros k k' f rs Hf. unfold on_rows. apply has_pk_map.
  intro row. destruct (pk row =? k'); [apply Hf | reflexivity].
Qed.

Lemma mark_processing_stored : forall w event,
  has_pk (pk event) (rows w) = true ->
  mark_processing clock w event =
    (mkWorld (on_rows (pk event) (claimed (clock (ticks w))) (rows w))
       (next_pk w) (S (ticks w)),
     claimed (clock (ticks w)) event, None).
Proof.
  intros w event H. unfold mark_processing.
  rewrite save_stored; [reflexivity | reflexivity | exact H].
Qed.

Lemma mark_processed_stored : forall w event,
  has_pk (pk event) (rows w) = true ->
  mark_processed clock w event =
    (mkWorld
       (on_rows (pk event)
          (completed (clock (ticks w)) (clock (S (ticks w)))) (rows w))
       (next_pk w) (S (S (ticks w))),
     completed (clock (ticks w)) (clock (S (ticks w))) event, None).
Proof.
  intros w event H. unfold mark_processed, now.
  rewrite save_stored; [reflexivity | reflexivity | exact H].
Qed.

Lemma mark_failed_stored : forall w event message,
  has_pk (pk event) (rows w) = true ->
  mark_failed clock w event message =
    (mkWorld
       (on_rows (pk event)
          (failed_with message (retry_count event + 1) (clock (ticks w)))
          (rows w))
       (next_pk w) (S (ticks w)),
     failed_with message (retry_count event + 1) (clock (ticks w)) event,
     None).
Proof.
  intros w event message H. unfold mark_failed.
  rewrite save_stored; [reflexivity | reflexivity | exact H].
Qed.

(** A row with key [k] after [on_rows k f] is [f] of a row that had key
    [k]. *)
Lemma in_on_rows : forall k f rs row,
  (forall r, pk (f r) = pk r) ->
  In row (on_rows k f rs) -> pk row = k ->
  exists old, In old rs /\ pk old = k /\ row = f old.
Proof.
  intros k f rs row Hf Hin Hk. unfold on_rows in Hin.
  apply in_map_iff in Hin. destruct Hin as [old [Heq Hold]].
  destruct (pk old =? k) eqn:E.
  - exists old. apply Z.eqb_eq in E. auto.
  - subst row. apply Z.eqb_neq in E. contradiction.
Qed.

(** The rows with another key are left as they were. *)
Lemma on_rows_other : forall k f rs row,
  (forall r, pk (f r) = pk r) ->
  In row (on_rows k f rs) -> pk row <> k -> In row rs.
Proof.
  intros k f rs row Hf Hin Hk. unfold on_rows in Hin.
  apply in_map_iff in Hin. destruct Hin as [old [Heq Hold]].
  destruct (pk old =? k) eqn:E.
  - subst row. rewrite Hf in Hk. apply Z.eqb_eq in E. contradiction.
  - subst row. exact Hold.
Qed.

(** The [except] branch on a stored event. *)
Lemma on_exception_stored : forall w event log e,
  has_pk (pk event) (rows w) = true ->
  on_exception clock signals w event log e =
    let t := clock (ticks w) in
    let event1 := failed_with (exn_str e) (retry_count event + 1) t event in
    let w1 := mkWorld (on_rows (pk event)
                         (failed_with (exn_str e) (retry_count event + 1) t)
                         (rows w))
                (next_pk w) (S (ticks w)) in
    let log1 := log ++ [SignalSent webhook_event_failed (pk event)] in
    match send (failed_receivers signals) (mkKwargs event1 None (Some e)) with
    | Some e' => mkRun w1 event1 log1 (Raise e')
    | None => mkRun w1 event1 log1 (Ok false)
    end.
Proof.
  intros w event log e H. unfold on_exception.
  rewrite mark_failed_stored by exact H. reflexivity.
Qed.

(** [process_event] on a stored Pending event, spelled out. *)
Lemma process_event_stored : forall w event handler,
  status event = STATUS_PENDING ->
  has_pk (pk event) (rows w) = true ->
  process_event clock signals w event handler =
    let t0 := clock (ticks w) in
    let event1 := claimed t0 event in
    let w1 := mkWorld (on_rows (pk event) (claimed t0) (rows w))
                (next_pk w) (S (ticks w)) in
    let called :=
      match handler with
      | Some _ => [HandlerCalled (pk event)]
      | None => []
      end in
    match match handler with Some h => h event1 | None => None end with
    | Some e => on_exception clock signals w1 event1 called e
    | None =>
        let t1 := clock (S (ticks w)) in
        let t2 := clock (S (S (ticks w))) in
        let event3 := completed t1 t2 event1 in
        let w3 := mkWorld (on_rows (pk event) (completed t1 t2) (rows w1))
                    (next_pk w) (S (S (S (ticks w)))) in
        let log4 :=
          called ++ [SignalSent webhook_event_processed (pk event)] in
        match send (processed_receivers signals)
                (mkKwargs event3 None None) with
        | Some e => on_exception clock signals w3 event3 log4 e
        | None => mkRun w3 event3 log4 (Ok true)
        end
    end.
Proof.
  intros w event handler Hs Hpk. unfold process_event.
  rewrite Hs. simpl negb. cbv iota.
  rewrite mark_processing_stored by exact Hpk.
  cbv zeta.
  assert (Hpk1 : has_pk (pk (claimed (clock (ticks w)) event))
                   (rows (mkWorld (on_rows (pk event)
                                     (claimed (clock (ticks w))) (rows w))
                            (next_pk w) (S (ticks w)))) = true).
  { simpl. rewrite has_pk_on_rows; [exact Hpk | reflexivity]. }
  destruct handler as [h | ].
  - destruct (h (claimed (clock (ticks w)) event)) as [e | ]; [reflexivity | ].
    rewrite mark_processed_stored by exact Hpk1. reflexivity.
  - rewrite mark_processed_stored by exact Hpk1. reflexivity.
Qed.

End EngineFacts.

(** From [Hin : In row (on_rows k f rs)] and [Hk : pk row = k], with [f]
    keeping the key: [row] is [f] of a row that was there. *)
Ltac row_after_on_rows Hin Hk :=
  apply in_on_rows in Hin; [ | reflexivity | exact Hk];
  destruct Hin as [? [? [? ->]]].

(** ** [process_event] *)

Section ProcessEvent.

Variable clock : nat -> datetime.
Variable signals : Signals.

(** The [except] branch never returns [True]. *)
Lemma on_exception_not_true : forall w event log e,
  run_result (on_exception clock signals w event log e) <> Ok true.
Proof.
  intros w event log e. unfold on_exception.
  destruct (mark_failed clock w event (exn_str e)) as [[w1 event1] raised].
  destruct raised as [e' | ]; simpl; [discriminate | ].
  destruct (send _ _); simpl; discriminate.
Qed.

(** A call that returns [True] found its row in the table. *)
Lemma success_needs_row : forall w event handler,
  run_result (process_event clock signals w event handler) = Ok true ->
  status event = STATUS_PENDING /\ has_pk (pk event) (rows w) = true.
Proof.
  intros w event handler H. unfold process_event in H.
  destruct (status_eqb (status event) STATUS_PENDING) eqn:Hs; simpl in H;
    [ | discriminate H].
  split; [apply status_eqb_eq; exact Hs | ].
  destruct (has_pk (pk event) (rows w)) eqn:Hpk; [reflexivity | exfalso].
  unfold mark_processing in H.
  destruct (save_missing clock [F_status; F_updated_at] w
              (set_status STATUS_PROCESSING event) eq_refl Hpk)
    as [e [Hsave _]].
  rewrite Hsave in H. exact (on_exception_not_true _ _ _ _ H).
Qed.

Lemma on_rows_twice : forall k f g rs,
  (forall r, pk (g r) = pk r) ->
  on_rows k f (on_rows k g rs) = on_rows k (fun r => f (g r)) rs.
Proof.
  intros k f g rs Hg. unfold on_rows. rewrite map_map. apply map_ext.
  intro row. destruct (pk row =? k) eqn:E.
  - rewrite Hg, E. reflexivity.
  - rewrite E. reflexivity.
Qed.

(** The frame of a successful call: on the instance and on the rows with its
    key, [status], [processed_at] and [updated_at] are written and nothing
    else; the other rows are not touched. *)
Lemma process_event_success_frame : forall w event handler,
  run_result (process_event clock signals w event handler) = Ok true ->
  let t1 := clock (S (ticks w)) in
  let t2 := clock (S (S (ticks w))) in
  run_event (process_event clock signals w event handler)
    = completed t1 t2 event
  /\ rows (run_world (process_event clock signals w event handler))
    = on_rows (pk event) (completed t1 t2) (rows w).
Proof.
  intros w event handler H.
  destruct (success_needs_row _ _ _ H) as [Hs Hpk].
  rewrite process_event_stored in * by assumption.
  cbv zeta in *.
  destruct (match handler with
            | Some h => h (claimed (clock (ticks w)) event)
            | None => None
            end) as [e | ];
    [exfalso; exact (on_exception_not_true _ _ _ _ H) | ].
  destruct (send (processed_receivers signals) _) as [e | ];
    [exfalso; exact (on_exception_not_true _ _ _ _ H) | ].
  simpl. split; [reflexivity | ].
  rewrite on_rows_twice by reflexivity. reflexivity.
Qed.

End ProcessEvent.

(** C7. For every event whose status is not Pending, [process_event] returns
    [False] and does nothing else: the world (every row, every column) and
    the caller's instance are the ones it was given, and the log is empty, so
    no signal was sent and the handler was not called. *)
Theorem process_event_skips_non_pending :
  forall clock signals w event handler,
    status event <> STATUS_PENDING ->
    process_event clock signals w event handler = mkRun w event [] (Ok false).
Proof.
  intros clock signals w event handler H. unfold process_event.
  destruct (status_eqb (status event) STATUS_PENDING) eqn:E.
  - apply status_eqb_eq in E. contradiction.
  - reflexivity.
Qed.

Lemma process_event_skips_non_pending_witness :
  let event := sample_event 1 10 STATUS_FAILED 3 in
  let w := mkWorld [event] 2 0 in
  process_event sample_clock (mkSignals [] [raising_receiver] [raising_receiver])
    w event (Some always_raises) = mkRun w event [] (Ok false).
Proof.
  intros event w. apply process_event_skips_non_pending.
  simpl. discriminate.
Defined.

Section Recording.

Variable clock : nat -> datetime.
Variable signals : Signals.

(** A handler error on a stored Pending event: the failure is written to the
    instance and to the rows with its key before the "failed" signal is
    sent; what the receivers of that signal do decides only how the call
    ends. *)
Lemma failure_recorded : forall w event handler e,
  status event = STATUS_PENDING ->
  has_pk (pk event) (rows w) = true ->
  handler_outcome handler (claimed (clock (ticks w)) event) = Some e ->
  let r := process_event clock signals w event handler in
  let record := fun row =>
    failed_with (exn_str e) (retry_count event + 1) (clock (S (ticks w)))
      (claimed (clock (ticks w)) row) in
  run_event r = record event
  /\ rows (run_world r) = on_rows (pk event) record (rows w)
  /\ run_result r =
       match send (failed_receivers signals)
               (mkKwargs (record event) None (Some e)) with
       | Some e' => Raise e'
       | None => Ok false
       end.
Proof.
  intros w event handler e Hs Hpk Hh. cbv zeta.
  rewrite process_event_stored by assumption. cbv zeta.
  unfold handler_outcome in Hh. rewrite Hh.
  rewrite on_exception_stored
    by (simpl; rewrite has_pk_on_rows; [exact Hpk | reflexivity]).
  cbv zeta. simpl pk. simpl ticks. simpl rows. simpl retry_count.
  rewrite on_rows_twice by reflexivity.
  destruct (send (failed_receivers signals) _); simpl; auto.
Qed.

(** A "processed" receiver that raises, after a handler that returned: the
    [except] branch runs on the event just marked Processed. *)
Lemma processed_receiver_failure_recorded : forall w event handler e,
  status event = STATUS_PENDING ->
  has_pk (pk event) (rows w) = true ->
  handler_outcome handler (claimed (clock (ticks w)) event) = None ->
  send (processed_receivers signals)
    (mkKwargs (completed (clock (S (ticks w))) (clock (S (S (ticks w))))
                 (claimed (clock (ticks w)) event)) None None) = Some e ->
  let r := process_event clock signals w event handler in
  let record := fun row =>
    failed_with (exn_str e) (retry_count event + 1)
      (clock (S (S (S (ticks w)))))
      (completed (clock (S (ticks w))) (clock (S (S (ticks w))))
         (claimed (clock (ticks w)) row)) in
  run_event r = record event
  /\ rows (run_world r) = on_rows (pk event) record (rows w)
  /\ run_result r =
       match send (failed_receivers signals)
               (mkKwargs (record event) None (Some e)) with
       | Some e' => Raise e'
       | None => Ok false
       end.
Proof.
  intros w event handler e Hs Hpk Hh Hsend. cbv zeta.
  rewrite process_event_stored by assumption. cbv zeta.
  unfold handler_outcome in Hh. rewrite Hh, Hsend.
  rewrite on_exception_stored
    by (simpl; rewrite !has_pk_on_rows; [exact Hpk | reflexivity .. ]).
  cbv zeta. simpl pk. simpl ticks. simpl rows. simpl retry_count.
  rewrite !on_rows_twice by reflexivity.
  destruct (send (failed_receivers signals) _); simpl; auto.
Qed.

(** A handler that returns and receivers that return: the success path. *)
Lemma success_recorded : forall w event handler,
  status event = STATUS_PENDING ->
  has_pk (pk event) (rows w) = true ->
  handler_outcome handler (claimed (clock (ticks w)) event) = None ->
  (forall named, send (processed_receivers signals) named = None) ->
  let r := process_event clock signals w event handler in
  let t1 := clock (S (ticks w)) in
  let t2 := clock (S (S (ticks w))) in
  run_result r = Ok true
  /\ run_event r = completed t1 t2 event
  /\ rows (run_world r) = on_rows (pk event) (completed t1 t2) (rows w).
Proof.
  intros w event handler Hs Hpk Hh Hq. cbv zeta.
  assert (Ht : run_result (process_event clock signals w event handler)
               = Ok true).
  { rewrite process_event_stored by assumption. cbv zeta.
    unfold handler_outcome in Hh. rewrite Hh, Hq. reflexivity. }
  split; [exact Ht | ].
  exact (process_event_success_frame clock signals w event handler Ht).
Qed.

End Recording.

(** C5, as the code has it.  For every stored event whose status is
    Pending, with receivers that do not raise: when the handler raises [e],
    [process_event] returns [False] (nothing is re-raised) and the instance
    and its rows are Failed with [retry_count] one more than the event's and
    [error_message] equal to [str(e)], which is empty when [e] has no
    message; with no handler, or one that returns, it returns [True] and the
    instance and its rows are Processed with [processed_at] set. *)
Theorem process_event_outcomes :
  forall clock signals w event handler,
    status event = STATUS_PENDING ->
    has_pk (pk event) (rows w) = true ->
    (forall named, send (failed_receivers signals) named = None) ->
    (forall named, send (processed_receivers signals) named = None) ->
    let r := process_event clock signals w event handler in
    match handler_outcome handler (claimed (clock (ticks w)) event) with
    | Some e =>
        run_result r = Ok false
        /\ status (run_event r) = STATUS_FAILED
        /\ retry_count (run_event r) = retry_count event + 1
        /\ error_message (run_event r) = exn_str e
        /\ (forall row, In row (rows (run_world r)) -> pk row = pk event ->
              status row = STATUS_FAILED
              /\ retry_count row = retry_count event + 1
              /\ error_message row = exn_str e)
    | None =>
        run_result r = Ok true
        /\ status (run_event r) = STATUS_PROCESSED
        /\ processed_at (run_event r) = Some (clock (S (ticks w)))
        /\ (forall row, In row (rows (run_world r)) -> pk row = pk event ->
              status row = STATUS_PROCESSED
              /\ processed_at row = Some (clock (S (ticks w))))
    end.
Proof.
  intros clock signals w event handler Hs Hpk Hqf Hqp r.
  destruct (handler_outcome handler (claimed (clock (ticks w)) event))
    as [e | ] eqn:Hh.
  - destruct (failure_recorded clock signals w event handler e Hs Hpk Hh)
      as [Hev [Hrows Hres]].
    fold r in Hev, Hrows, Hres. rewrite Hqf in Hres.
    rewrite Hev, Hrows.
    split; [exact Hres | ].
    do 3 (split; [reflexivity | ]).
    intros row Hin Hk. row_after_on_rows Hin Hk. repeat split.
  - destruct (success_recorded clock signals w event handler Hs Hpk Hh Hqp)
      as [Hres [Hev Hrows]].
    fold r in Hev, Hrows, Hres.
    rewrite Hev, Hrows.
    split; [exact Hres | ].
    do 2 (split; [reflexivity | ]).
    intros row Hin Hk. row_after_on_rows Hin Hk. repeat split.
Qed.

Lemma process_event_outcomes_witness :
  let event := sample_event 1 10 STATUS_PENDING 0 in
  let w := mkWorld [event] 2 0 in
  let r := process_event sample_clock no_receivers w event
             (Some always_raises) in
  run_result r = Ok false
  /\ status (run_event r) = STATUS_FAILED
  /\ retry_count (run_event r) = 1
  /\ error_message (run_event r) = "bad address"
  /\ (forall row, In row (rows (run_world r)) -> pk row = 1 ->
        status row = STATUS_FAILED
        /\ retry_count row = 1
        /\ error_message row = "bad address").
Proof.
  intros event w.
  exact (process_event_outcomes sample_clock no_receivers w event
           (Some always_raises) eq_refl eq_refl
           (fun _ => eq_refl) (fun _ => eq_refl)).
Defined.

(** C5, against the claim as written: an exception built without a message
    has the empty description, and the event is Failed with an empty
    [error_message]. *)
Lemma handler_error_without_message :
  let event := sample_event 1 10 STATUS_PENDING 0 in
  let w := mkWorld [event] 2 0 in
  let r := process_event sample_clock no_receivers w event
             (Some raises_bare) in
  status event = STATUS_PENDING
  /\ raises_bare (claimed (sample_clock 0) event) = Some (mkExn OtherError "")
  /\ status (run_event r) = STATUS_FAILED
  /\ error_message (run_event r) = ""
  /\ map error_message (rows (run_world r)) = [""].
Proof. vm_compute. repeat split. Qed.

(** C10, as the code has it.  A successful [process_event] writes [status],
    [processed_at] and [updated_at] and nothing else, on the instance and on its rows; so an
    event that failed with [e], was put back to Pending and is then
    processed with success ends Processed while its [error_message] is still
    [str(e)] and its [retry_count] still the one the failure left (positive,
    and the message non-empty when [e] had one). *)
Theorem retried_success_keeps_failure_record :
  forall clock signals,
    (forall w event handler,
       let r := process_event clock signals w event handler in
       run_result r = Ok true ->
       exists t1 t2,
         run_event r = completed t1 t2 event
         /\ rows (run_world r) = on_rows (pk event) (completed t1 t2) (rows w)
         /\ error_message (run_event r) = error_message event
         /\ retry_count (run_event r) = retry_count event)
    /\
    (forall w event handler e max_retries w2 event2 handler2,
       status event = STATUS_PENDING ->
       has_pk (pk event) (rows w) = true ->
       0 <= retry_count event ->
       handler_outcome handler (claimed (clock (ticks w)) event) = Some e ->
       let r1 := process_event clock signals w event handler in
       update_status (mkQuery STATUS_FAILED None (Some max_retries) None)
         STATUS_PENDING (run_world r1) = Ok w2 ->
       In event2 (rows w2) -> pk event2 = pk event ->
       let r2 := process_event clock signals w2 event2 handler2 in
       run_result r2 = Ok true ->
       status (run_event r2) = STATUS_PROCESSED
       /\ error_message (run_event r2) = exn_str e
       /\ retry_count (run_event r2) = retry_count event + 1
       /\ 0 < retry_count (run_event r2)
       /\ (exn_str e <> "" -> error_message (run_event r2) <> "")
       /\ (forall row, In row (rows (run_world r2)) -> pk row = pk event ->
             status row = STATUS_PROCESSED
             /\ error_message row = exn_str e
             /\ retry_count row = retry_count event + 1)).
Proof.
  intros clock signals. split.
  - intros w event handler r Hr.
    destruct (process_event_success_frame clock signals w event handler Hr)
      as [Hev Hrows].
    exists (clock (S (ticks w))), (clock (S (S (ticks w)))).
    fold r in Hev, Hrows. rewrite Hev. repeat split. exact Hrows.
  - intros w event handler e max_retries w2 event2 handler2
      Hs Hpk Hn Hh r1 Hupd Hin2 Hpk2 r2 Hr2.
    destruct (failure_recorded clock signals w event handler e Hs Hpk Hh)
      as [_ [Hrows1 _]].
    fold r1 in Hrows1.
    unfold update_status in Hupd. simpl in Hupd.
    inversion Hupd as [Hw2]. clear Hupd.
    (* every row of the table with the key carries the failure *)
    assert (Hcarry : forall row, In row (rows w2) -> pk row = pk event ->
              error_message row = exn_str e
              /\ retry_count row = retry_count event + 1).
    { intros row Hin Hk. rewrite <- Hw2 in Hin. simpl in Hin.
      apply in_map_iff in Hin. destruct Hin as [old [Hold Hin]].
      assert (Hko : pk old = pk event).
      { rewrite <- Hk, <- Hold. destruct (matches _ old); reflexivity. }
      rewrite Hrows1 in Hin.
      apply in_on_rows in Hin; [ | reflexivity | exact Hko].
      destruct Hin as [older [_ [_ Heq]]].
      rewrite Heq in Hold. rewrite <- Hold.
      destruct (matches _ _); split; reflexivity. }
    destruct (process_event_success_frame clock signals w2 event2 handler2 Hr2)
      as [Hev2 Hrows2].
    fold r2 in Hev2, Hrows2.
    destruct (Hcarry event2 Hin2 Hpk2) as [Hm2 Hc2].
    rewrite Hev2. simpl.
    split; [reflexivity | ].
    split; [exact Hm2 | ].
    split; [exact Hc2 | ].
    split; [rewrite Hc2; lia | ].
    split; [rewrite Hm2; auto | ].
    intros row Hin Hk. rewrite Hrows2 in Hin. rewrite <- Hpk2 in Hk.
    apply in_on_rows in Hin; [ | reflexivity | exact Hk].
    destruct Hin as [old [Hold [Hko ->]]]. simpl.
    rewrite Hpk2 in Hko.
    split; [reflexivity | exact (Hcarry old Hold Hko)].
Qed.

Lemma retried_success_keeps_failure_record_witness :
  let event := sample_event 1 10 STATUS_PENDING 0 in
  let w := mkWorld [event] 2 0 in
  let r1 := process_event sample_clock no_receivers w event
              (Some always_raises) in
  let w2 := with_rows (map (set_status STATUS_PENDING) (rows (run_world r1)))
              (run_world r1) in
  let event2 := hd event (rows w2) in
  let r2 := process_event sample_clock no_receivers w2 event2 None in
  (status (run_event r1) = STATUS_FAILED /\ run_result r2 = Ok true)
  /\ (exists t1 t2, run_event r2 = completed t1 t2 event2)
  /\ status (run_event r2) = STATUS_PROCESSED
  /\ error_message (run_event r2) = "bad address"
  /\ retry_count (run_event r2) = 1.
Proof.
  intros event w r1 w2 event2 r2.
  split; [split; reflexivity | ].
  split.
  - destruct (proj1 (retried_success_keeps_failure_record
                       sample_clock no_receivers) w2 event2 None eq_refl)
      as [t1 [t2 [H _]]].
    exists t1, t2. exact H.
  - assert (A1 : update_status
                   (mkQuery STATUS_FAILED None (Some 3) None)
                   STATUS_PENDING (run_world r1) = Ok w2)
      by (vm_compute; reflexivity).
    assert (A2 : In event2 (rows w2)) by (left; vm_compute; reflexivity).
    assert (A3 : pk event2 = pk event) by (vm_compute; reflexivity).
    assert (A4 : run_result r2 = Ok true) by (vm_compute; reflexivity).
    destruct (proj2 (retried_success_keeps_failure_record
                       sample_clock no_receivers)
                w event (Some always_raises)
                (mkExn ValueError "bad address") 3 w2 event2 None
                eq_refl eq_refl (Z.le_refl 0) eq_refl A1 A2 A3 A4)
      as [H1 [H2 [H3 _]]].
    split; [exact H1 | split; [exact H2 | exact H3]].
Defined.

(** C10, against the claim as written: the handler fails with an exception
    built without a message, the event is put back to Pending by the retry
    query and is then processed with success.  It ends Processed with the
    [retry_count] of the failure, 1, and with the [error_message] of the
    failure, which is empty. *)
Lemma retried_success_with_empty_message :
  let event := sample_event 1 10 STATUS_PENDING 0 in
  let w := mkWorld [event] 2 0 in
  let r1 := process_event sample_clock no_receivers w event
              (Some raises_bare) in
  let w2 := with_rows (map (set_status STATUS_PENDING) (rows (run_world r1)))
              (run_world r1) in
  let event2 := hd event (rows w2) in
  let r2 := process_event sample_clock no_receivers w2 event2 None in
  run_result r1 = Ok false
  /\ map status (rows (run_world r1)) = [STATUS_FAILED]
  /\ update_status (mkQuery STATUS_FAILED None (Some 3) None)
       STATUS_PENDING (run_world r1) = Ok w2
  /\ run_result r2 = Ok true
  /\ status (run_event r2) = STATUS_PROCESSED
  /\ retry_count (run_event r2) = 1
  /\ error_message (run_event r2) = ""%string
  /\ map error_message (rows (run_world r2)) = [""%string].
Proof. vm_compute. repeat split. Qed.

(** ** The receiver *)

Section Receiver.

Variable clock : nat -> datetime.
Variable lib : Library.
Variable signals : Signals.

(** Reading the timestamp touches the clock only. *)
Lemma parse_timestamp_rows : forall v w w1 parsed,
  parse_timestamp clock lib v w = (w1, parsed) ->
  rows w1 = rows w /\ next_pk w1 = next_pk w.
Proof.
  intros v w w1 parsed. unfold parse_timestamp, now.
  destruct (truthy v).
  - destruct (read_datetime lib v) as [t | e].
    + intro H; inversion H; auto.
    + destruct (exn_cls e); intro H; inversion H; auto.
  - intro H; inversion H; auto.
Qed.

(** Lines 41-73 leave the table alone. *)
Lemma extract_rows : forall data w w1 read,
  extract clock lib data w = (w1, read) ->
  rows w1 = rows w /\ next_pk w1 = next_pk w.
Proof.
  intros data w w1 read. unfold extract.
  destruct (read_head data) as [[[id type] event_data] | e];
    [ | intro H; inversion H; auto].
  destruct (negb (truthy id)); [intro H; inversion H; auto | ].
  destruct (read_timestamp_str data) as [v | e];
    [ | intro H; inversion H; auto].
  destruct (parse_timestamp clock lib v w) as [w' parsed] eqn:Hp.
  apply parse_timestamp_rows in Hp.
  destruct parsed as [ts | e]; [ | intro H; inversion H; subst; auto].
  destruct (read_email event_data);
    [ | intro H; inversion H; subst; auto].
  destruct (read_message_id event_data);
    intro H; inversion H; subst; auto.
Qed.

(** What lines 41-73 can answer: the 400 for a missing id, or the 500. *)
Lemma extract_early : forall data w w1 early,
  extract clock lib data w = (w1, inl early) ->
  early = server_error
  \/ (early = bad_request "Missing event ID"
      /\ exists id, get data "id" JNull = Ok id /\ truthy id = false).
Proof.
  intros data w w1 early. unfold extract, read_head.
  destruct (get data "id" JNull) as [id | e] eqn:Hid; simpl;
    [ | intro H; inversion H; auto].
  destruct (get data "type" (JStr "")) as [type | e]; simpl;
    [ | intro H; inversion H; auto].
  destruct (get data "data" (JObj [])) as [event_data | e]; simpl;
    [ | intro H; inversion H; auto].
  destruct (truthy id) eqn:Ht; simpl.
  - destruct (read_timestamp_str data) as [v | e];
      [ | intro H; inversion H; auto].
    destruct (parse_timestamp clock lib v w) as [w' parsed].
    destruct parsed as [ts | e]; [ | intro H; inversion H; auto].
    destruct (read_email event_data); [ | intro H; inversion H; auto].
    destruct (read_message_id event_data); intro H; inversion H; auto.
  - intro H; inversion H. right. split; [reflexivity | ].
    exists id. auto.
Qed.

(** The values read carry the payload's own id, and it is a true value. *)
Lemma extract_id : forall data w w1 x,
  extract clock lib data w = (w1, inr x) ->
  get data "id" JNull = Ok (x_id x) /\ truthy (x_id x) = true.
Proof.
  intros data w w1 x. unfold extract, read_head.
  destruct (get data "id" JNull) as [id | e]; simpl;
    [ | intro H; inversion H].
  destruct (get data "type" (JStr "")) as [type | e]; simpl;
    [ | intro H; inversion H].
  destruct (get data "data" (JObj [])) as [event_data | e]; simpl;
    [ | intro H; inversion H].
  destruct (truthy id) eqn:Ht; simpl; [ | intro H; inversion H].
  destruct (read_timestamp_str data) as [v | e];
    [ | intro H; inversion H].
  destruct (parse_timestamp clock lib v w) as [w' parsed].
  destruct parsed as [ts | e]; [ | intro H; inversion H].
  destruct (read_email event_data); [ | intro H; inversion H].
  destruct (read_message_id event_data); intro H; inversion H.
  simpl. auto.
Qed.

(** Whether the timestamp is read or an exception leaves the block does not
    depend on the world. *)
Lemma parse_timestamp_any_world : forall v w w',
  match snd (parse_timestamp clock lib v w),
        snd (parse_timestamp clock lib v w') with
  | Ok _, Ok _ => True
  | Raise e, Raise e' => e = e'
  | _, _ => False
  end.
Proof.
  intros v w w'. unfold parse_timestamp, now.
  destruct (truthy v); simpl; [ | exact I].
  destruct (read_datetime lib v) as [t | e]; simpl; [exact I | ].
  destruct (exn_cls e); simpl; auto.
Qed.

(** So a payload that got through lines 41-73 once gets through again, with
    the same id. *)
Lemma extract_again : forall data w w1 x w',
  extract clock lib data w = (w1, inr x) ->
  exists w1' x', extract clock lib data w' = (w1', inr x')
                 /\ x_id x' = x_id x.
Proof.
  intros data w w1 x w'. unfold extract.
  destruct (read_head data) as [[[id type] event_data] | e];
    [ | intro H; inversion H].
  destruct (negb (truthy id)); [intro H; inversion H | ].
  destruct (read_timestamp_str data) as [v | e];
    [ | intro H; inversion H].
  pose proof (parse_timestamp_any_world v w w') as Hany.
  destruct (parse_timestamp clock lib v w) as [wa pa].
  destruct (parse_timestamp clock lib v w') as [wb pb].
  simpl in Hany.
  destruct pa as [ts | e]; [ | intro H; inversion H].
  destruct pb as [ts' | e]; [ | contradiction].
  destruct (read_email event_data); [ | intro H; inversion H].
  destruct (read_message_id event_data); intro H; inversion H.
  eexists. eexists. split; reflexivity.
Qed.

Lemma find_event_new : forall id rs row,
  event_id row = id -> find_event id (rs ++ [row]) <> None.
Proof.
  intros id rs row Hid.
  induction rs as [ | r rs IH]; simpl.
  - rewrite Hid, json_eqb_refl. discriminate.
  - destruct (json_eqb (event_id r) id); [discriminate | exact IH].
Qed.

(** [get_or_create] finds the row: nothing is written, nothing is sent and
    the answer is the "duplicate" one. *)
Lemma store_and_notify_known : forall data x w,
  find_event (char_field lib (x_id x)) (rows w) <> None ->
  store_and_notify clock lib signals data x w
    = mkView w [] duplicate_response.
Proof.
  intros data x w H. unfold store_and_notify, get_or_create.
  destruct (find_event (char_field lib (x_id x)) (rows w));
    [reflexivity | contradiction].
Qed.

(** [get_or_create] finds no row and the type is null: the insert is
    refused, nothing is stored or sent, and the answer is the 500. *)
Lemma store_and_notify_null_type : forall data x w,
  find_event (char_field lib (x_id x)) (rows w) = None ->
  char_field lib (x_type x) = JNull ->
  store_and_notify clock lib signals data x w
    = mkView (mkWorld (rows w) (next_pk w) (S (S (ticks w)))) []
        server_error.
Proof.
  intros data x w H Hnull. unfold store_and_notify, get_or_create.
  rewrite H. simpl. rewrite Hnull. reflexivity.
Qed.

(** [get_or_create] finds no row and the type is not null: one Pending row
    is appended, the signal is sent once, and the answer depends on the
    receivers. *)
Lemma store_and_notify_new : forall data x w,
  find_event (char_field lib (x_id x)) (rows w) = None ->
  char_field lib (x_type x) <> JNull ->
  let instance := mkEvent (next_pk w) (x_id x) (x_type x) (x_timestamp x)
                    (x_email x) (x_message_id x) data STATUS_PENDING
                    (clock (ticks w)) (clock (S (ticks w))) None "" 0 in
  let row := mkEvent (next_pk w) (char_field lib (x_id x))
               (char_field lib (x_type x)) (x_timestamp x)
               (char_field lib (x_email x))
               (char_field lib (x_message_id x)) data STATUS_PENDING
               (clock (ticks w)) (clock (S (ticks w))) None "" 0 in
  let r := store_and_notify clock lib signals data x w in
  rows (view_world r) = rows w ++ [row]
  /\ view_log r = [SignalSent webhook_event_received (next_pk w)]
  /\ response r =
       match send (received_receivers signals)
               (mkKwargs instance (Some data) None) with
       | Some _ => server_error
       | None => received_response (x_id x)
       end.
Proof.
  intros data x w H Hty. unfold store_and_notify, get_or_create.
  rewrite H. simpl.
  destruct (char_field lib (x_type x)) eqn:E; try contradiction; simpl;
    destruct (send (received_receivers signals) _); simpl; auto.
Qed.

End Receiver.

Section ReceiverClaims.

Variable clock : nat -> datetime.
Variable lib : Library.
Variable signals : Signals.

(** The request ends in lines 41-73: nothing is stored or sent. *)
Lemma receive_early : forall data w w1 early,
  extract clock lib data w = (w1, inl early) ->
  receive clock lib signals data w = mkView w1 [] early.
Proof.
  intros data w w1 early H. unfold receive. rewrite H. reflexivity.
Qed.

Lemma receive_read : forall data w w1 x,
  extract clock lib data w = (w1, inr x) ->
  receive clock lib signals data w
    = store_and_notify clock lib signals data x w1.
Proof.
  intros data w w1 x H. unfold receive. rewrite H. reflexivity.
Qed.

Lemma view_post : forall data w,
  resend_webhook_view clock lib signals (post data) w
    = receive clock lib signals data w.
Proof. reflexivity. Qed.

(** A request that stored a row got through lines 41-73, found no row with
    its id, and appended one that carries the id. *)
Lemma receive_created : forall data w,
  rows (view_world (receive clock lib signals data w)) <> rows w ->
  exists w1 x row,
    extract clock lib data w = (w1, inr x)
    /\ find_event (char_field lib (x_id x)) (rows w) = None
    /\ event_id row = char_field lib (x_id x)
    /\ status row = STATUS_PENDING
    /\ rows (view_world (receive clock lib signals data w))
       = rows w ++ [row]
    /\ view_log (receive clock lib signals data w)
       = [SignalSent webhook_event_received (pk row)]
    /\ (response (receive clock lib signals data w) = server_error
        \/ response (receive clock lib signals data w)
           = received_response (x_id x))
    /\ ((forall named, send (received_receivers signals) named <> None) ->
        response (receive clock lib signals data w) = server_error)
    /\ ((forall named, send (received_receivers signals) named = None) ->
        response (receive clock lib signals data w)
          = received_response (x_id x)).
Proof.
  intros data w Hrows.
  destruct (extract clock lib data w) as [w1 [early | x]] eqn:Hx.
  - rewrite (receive_early _ _ _ _ Hx) in Hrows. simpl in Hrows.
    apply extract_rows in Hx. destruct Hx as [Hr _]. contradiction.
  - pose proof (extract_rows _ _ _ _ _ _ Hx) as [Hr Hn].
    rewrite (receive_read _ _ _ _ Hx) in *.
    destruct (find_event (char_field lib (x_id x)) (rows w1)) eqn:Hf.
    + rewrite store_and_notify_known in Hrows by (rewrite Hf; discriminate).
      simpl in Hrows. contradiction.
    + assert (Hty : char_field lib (x_type x) <> JNull).
      { intro Hnull.
        rewrite (store_and_notify_null_type clock lib signals data x w1
                   Hf Hnull) in Hrows.
        simpl in Hrows. contradiction. }
      destruct (store_and_notify_new clock lib signals data x w1 Hf Hty)
        as [H1 [H2 H3]].
      exists w1, x. eexists.
      split; [reflexivity | ].
      split; [rewrite <- Hr; exact Hf | ].
      split; [ | split; [ | split; [rewrite <- Hr; exact H1 | split;
                                     [exact H2 | ]]]];
        try reflexivity.
      rewrite H3.
      split; [ | split].
      * destruct (send (received_receivers signals) _); auto.
      * intro Hraise.
        destruct (send (received_receivers signals) _) eqn:Hs;
          [reflexivity | exfalso; exact (Hraise _ Hs)].
      * intro Hquiet. rewrite Hquiet. reflexivity.
Qed.

End ReceiverClaims.

(** C1, as the code has it.  Two POSTs carry the same top-level id and the
    first one stored the row.  Then the second stores nothing, changes no
    row and sends no signal, so that "received" was sent exactly once, by
    the first; its answer is the 200 "duplicate" one unless an exception on
    the way to the store (lines 41-73) made it the 500; with the same
    payload as the first it is always the "duplicate" one. *)
Theorem duplicate_delivery_is_idempotent :
  forall clock lib signals w data1 data2 id,
    get data1 "id" JNull = Ok id ->
    get data2 "id" JNull = Ok id ->
    let r1 := resend_webhook_view clock lib signals (post data1) w in
    let r2 := resend_webhook_view clock lib signals (post data2)
                (view_world r1) in
    rows (view_world r1) <> rows w ->
    rows (view_world r2) = rows (view_world r1)
    /\ view_log r2 = []
    /\ sends_of webhook_event_received (view_log r1 ++ view_log r2) = 1%nat
    /\ (response r2 = duplicate_response \/ response r2 = server_error)
    /\ (response r2 = server_error ->
        exists w', extract clock lib data2 (view_world r1)
                   = (w', inl server_error))
    /\ (data2 = data1 -> response r2 = duplicate_response).
Proof.
  intros clock lib signals w data1 data2 id Hid1 Hid2 r1 r2 Hcreated.
  subst r1 r2. rewrite !view_post in *.
  destruct (receive_created clock lib signals data1 w Hcreated)
    as [w1 [x [row [Hx [Hnone [Hrow [_ [Hrows [Hlog _]]]]]]]]].
  destruct (extract_id _ _ _ _ _ _ Hx) as [Hidx Htrue].
  rewrite Hid1 in Hidx. inversion Hidx as [Hid]. clear Hidx.
  set (wa := view_world (receive clock lib signals data1 w)) in *.
  assert (Hknown : forall w2, rows w2 = rows wa ->
            find_event (char_field lib id) (rows w2) <> None).
  { intros w2 H2. rewrite H2, Hrows. apply find_event_new.
    rewrite Hid. exact Hrow. }
  rewrite Hlog.
  destruct (extract clock lib data2 wa) as [w2 [early | x2]] eqn:Hx2.
  - pose proof (extract_rows _ _ _ _ _ _ Hx2) as [Hr2 _].
    rewrite (receive_early _ _ _ _ _ _ _ Hx2). simpl.
    assert (He : early = server_error).
    { destruct (extract_early _ _ _ _ _ _ Hx2) as [He | [_ [id' [Hg Hf]]]];
        [exact He | ].
      rewrite Hid2 in Hg. inversion Hg. subst id'.
      rewrite <- Hid, Hf in Htrue. discriminate Htrue. }
    subst early.
    repeat split; auto.
    + exists w2. reflexivity.
    + intros ->. destruct (extract_again _ _ _ _ _ _ wa Hx)
        as [w1' [x' [Hagain _]]].
      rewrite Hagain in Hx2. discriminate Hx2.
  - pose proof (extract_rows _ _ _ _ _ _ Hx2) as [Hr2 _].
    destruct (extract_id _ _ _ _ _ _ Hx2) as [Hidx2 _].
    rewrite Hid2 in Hidx2. inversion Hidx2 as [Hid'].
    rewrite (receive_read _ _ _ _ _ _ _ Hx2).
    rewrite store_and_notify_known by (rewrite <- Hid'; apply Hknown; exact Hr2).
    simpl. repeat split; auto.
    intro H. discriminate H.
Qed.

Lemma duplicate_delivery_is_idempotent_witness :
  let data := JObj [("id", JStr "evt_1"); ("type", JStr "email.sent");
                    ("data", JObj [("to", JArr [JStr "a@x.com";
                                                JStr "b@x.com"])])] in
  let r1 := resend_webhook_view sample_clock sample_lib no_receivers
              (post data) empty_world in
  let r2 := resend_webhook_view sample_clock sample_lib no_receivers
              (post data) (view_world r1) in
  (response r1 = received_response (JStr "evt_1")
   /\ map email (rows (view_world r1)) = [JStr "a@x.com"])
  /\ rows (view_world r2) = rows (view_world r1)
  /\ view_log r2 = []
  /\ sends_of webhook_event_received (view_log r1 ++ view_log r2) = 1%nat
  /\ response r2 = duplicate_response.
Proof.
  intros data r1 r2.
  split; [split; vm_compute; reflexivity | ].
  assert (A : rows (view_world r1) <> rows empty_world)
    by (vm_compute; discriminate).
  destruct (duplicate_delivery_is_idempotent sample_clock sample_lib
              no_receivers empty_world data data (JStr "evt_1")
              eq_refl eq_refl A)
    as [H1 [H2 [H3 [_ [_ H6]]]]].
  split; [exact H1 | split; [exact H2 | split; [exact H3 | ]]].
  exact (H6 eq_refl).
Defined.

(** C1, against the claim as written: the second POST carries the id of a
    stored event, but its [data] member is [null]; line 69 raises and the
    answer is the 500, not the 200 "duplicate" one. *)
Lemma second_delivery_can_get_500 :
  let data1 := JObj [("id", JStr "evt_1"); ("type", JStr "email.sent")] in
  let data2 := JObj [("id", JStr "evt_1"); ("type", JStr "email.sent");
                     ("data", JNull)] in
  let r1 := resend_webhook_view sample_clock sample_lib no_receivers
              (post data1) empty_world in
  let r2 := resend_webhook_view sample_clock sample_lib no_receivers
              (post data2) (view_world r1) in
  get data1 "id" JNull = get data2 "id" JNull
  /\ response r1 = received_response (JStr "evt_1")
  /\ List.length (rows (view_world r1)) = 1%nat
  /\ status_code (response r2) = 500
  /\ response r2 <> duplicate_response.
Proof.
  vm_compute. repeat split; discriminate.
Qed.

(** Lines 41-43 and 53 on a JSON object. *)
Lemma read_head_object : forall members,
  read_head (JObj members)
    = Ok (member "id" members JNull, member "type" members (JStr ""),
          member "data" members (JObj [])).
Proof. reflexivity. Qed.

Lemma read_timestamp_str_object : forall members,
  read_timestamp_str (JObj members)
    = Ok (py_or (member "created_at" members JNull)
                (member "timestamp" members JNull)).
Proof.
  intro members. unfold read_timestamp_str, py_or. simpl.
  destruct (truthy (member "created_at" members JNull)); reflexivity.
Qed.

(** C8, as the code has it.  A POST whose body [json.loads] rejects with a
    JSON decode error gets the 400 "Invalid JSON payload"; one whose body is
    a JSON object with no [id], or with an [id] that is a false value, gets
    the 400 "Missing event ID"; one whose body is JSON but not an object
    gets the 500.  In each case the world is the one before the request:
    no row is stored and no signal is sent. *)
Theorem malformed_requests_store_nothing :
  forall clock lib signals w,
    resend_webhook_view clock lib signals (mkRequest "POST" NotJSON) w
      = mkView w [] (bad_request "Invalid JSON payload")
    /\ (forall members,
          (forall v, assoc "id" members = Some v -> truthy v = false) ->
          resend_webhook_view clock lib signals (post (JObj members)) w
            = mkView w [] (bad_request "Missing event ID"))
    /\ (forall data,
          (forall members, data <> JObj members) ->
          resend_webhook_view clock lib signals (post data) w
            = mkView w [] server_error).
Proof.
  intros clock lib signals w.
  split; [reflexivity | split].
  - intros members H. rewrite view_post.
    unfold receive, extract. rewrite read_head_object.
    assert (Hf : truthy (member "id" members JNull) = false).
    { unfold member. destruct (assoc "id" members) as [v | ] eqn:E.
      - exact (H v eq_refl).
      - reflexivity. }
    rewrite Hf. reflexivity.
  - intros data H. rewrite view_post.
    destruct data; try reflexivity.
    exfalso. exact (H members eq_refl).
Qed.

Lemma malformed_requests_store_nothing_witness :
  resend_webhook_view sample_clock sample_lib no_receivers
    (post (JObj [("type", JStr "email.sent")])) empty_world
    = mkView empty_world [] (bad_request "Missing event ID")
  /\ resend_webhook_view sample_clock sample_lib no_receivers
       (post (JStr "hello")) empty_world
     = mkView empty_world [] server_error.
Proof.
  destruct (malformed_requests_store_nothing sample_clock sample_lib
              no_receivers empty_world) as [_ [H2 H3]].
  split.
  - apply H2. intros v E. vm_compute in E. discriminate E.
  - apply H3. intros members E. discriminate E.
Defined.

(** C8, against the claim as written: the body [[]] is valid JSON and has no
    top-level id, and the answer is the 500, not the 400 "Missing event
    ID". *)
Lemma json_array_body_gets_500 :
  let r := resend_webhook_view sample_clock sample_lib no_receivers
             (post (JArr [])) empty_world in
  (forall id, get (JArr []) "id" JNull <> Ok id)
  /\ status_code (response r) = 500
  /\ response r <> bad_request "Missing event ID"
  /\ rows (view_world r) = [].
Proof.
  vm_compute. repeat split; discriminate.
Qed.

Section Timestamps.

Variable clock : nat -> datetime.
Variable lib : Library.
Variable signals : Signals.

(** Lines 54-66 when the value is absent or false, or when reading it
    raises [ValueError] or [TypeError]: the timestamp is the clock reading
    taken there. *)
Lemma parse_timestamp_falls_back : forall v w,
  (truthy v = false
   \/ exists e, read_datetime lib v = Raise e
                /\ (exn_cls e = ValueError \/ exn_cls e = TypeError)) ->
  parse_timestamp clock lib v w
    = (mkWorld (rows w) (next_pk w) (S (ticks w)), Ok (clock (ticks w))).
Proof.
  intros v w [Hf | [e [He Hc]]]; unfold parse_timestamp, now.
  - rewrite Hf. reflexivity.
  - destruct (truthy v); [ | reflexivity].
    rewrite He. destruct Hc as [-> | ->]; reflexivity.
Qed.

(** Lines 54-66 when reading the value raises anything else: the exception
    leaves the block. *)
Lemma parse_timestamp_lets_out : forall v w e,
  truthy v = true ->
  read_datetime lib v = Raise e ->
  exn_cls e <> ValueError -> exn_cls e <> TypeError ->
  parse_timestamp clock lib v w = (w, Raise e).
Proof.
  intros v w e Ht He Hv Hty. unfold parse_timestamp.
  rewrite Ht, He. destruct (exn_cls e); try reflexivity; contradiction.
Qed.

(** A payload with a true id whose timestamp text is no date for
    [parse_datetime], converts with [float], and is refused by
    [fromtimestamp] with an exception other than [ValueError] and
    [TypeError]: the request is answered with the 500 and nothing is
    stored. *)
Lemma out_of_range_timestamp_rejected : forall members s x e w,
  truthy (member "id" members JNull) = true ->
  member "created_at" members JNull = JStr s -> s <> ""%string ->
  parse_datetime lib s = Ok None ->
  float_of_str lib s = Ok x ->
  fromtimestamp lib x = Raise e ->
  exn_cls e <> ValueError -> exn_cls e <> TypeError ->
  resend_webhook_view clock lib signals (post (JObj members)) w
    = mkView w [] server_error.
Proof.
  intros members s x e w Ht Hc Hs Hp Hf Hx Hv Hty.
  rewrite view_post. unfold receive, extract.
  rewrite read_head_object, Ht, read_timestamp_str_object, Hc.
  assert (Hts : truthy (JStr s) = true).
  { simpl. destruct (String.eqb_spec s ""); [contradiction | reflexivity]. }
  unfold py_or. rewrite Hts. cbv beta iota. unfold negb.
  rewrite (parse_timestamp_lets_out (JStr s) w e Hts); try assumption.
  - reflexivity.
  - unfold read_datetime. rewrite Hp. simpl. rewrite Hf. simpl. exact Hx.
Qed.

(** A payload whose [data], when present, is an object, whose type is not
    null, and whose timestamp is absent or unreadable in the caught ways,
    with an id that is not stored: the row is stored with [timestamp] equal
    to the clock reading taken at the fallback and the answer is the
    "received" one (the receivers returning). *)
Lemma unreadable_timestamp_stored_with_receipt_time :
  forall members fields w,
    let id := member "id" members JNull in
    let v := py_or (member "created_at" members JNull)
                   (member "timestamp" members JNull) in
    truthy id = true ->
    (truthy v = false
     \/ exists e, read_datetime lib v = Raise e
                  /\ (exn_cls e = ValueError \/ exn_cls e = TypeError)) ->
    member "data" members (JObj []) = JObj fields ->
    char_field lib (member "type" members (JStr "")) <> JNull ->
    find_event (char_field lib id) (rows w) = None ->
    (forall named, send (received_receivers signals) named = None) ->
    let r := resend_webhook_view clock lib signals
               (post (JObj members)) w in
    response r = received_response id
    /\ exists row, rows (view_world r) = rows w ++ [row]
                   /\ event_id row = char_field lib id
                   /\ timestamp row = clock (ticks w).
Proof.
  intros members fields w id v Ht Hbad Hdata Hty Hnone Hquiet r.
  subst r. rewrite view_post. unfold receive, extract.
  rewrite read_head_object. fold id. rewrite Ht.
  rewrite read_timestamp_str_object. fold v.
  cbv beta iota. unfold negb.
  rewrite (parse_timestamp_falls_back v w Hbad).
  rewrite Hdata. unfold read_email, read_message_id.
  cbn [get bind].
  match goal with
  | |- context [store_and_notify clock lib signals ?d ?x ?w1] =>
      destruct (store_and_notify_new clock lib signals d x w1 Hnone Hty)
        as [H1 [_ H3]]
  end.
  rewrite H3, Hquiet. split; [reflexivity | ].
  eexists. split; [exact H1 | ]. split; reflexivity.
Qed.

End Timestamps.

(** C9, at the failing input.  The payload carries [created_at] equal to the
    text ["inf"]: [parse_datetime] answers [None], [float] answers
    infinity, [fromtimestamp] raises [OverflowError], which line 63 does
    not catch.  The request is answered with the 500 and no row is stored,
    where a timestamp that names no date should have given the receipt time
    and the "received" answer. *)
Theorem infinite_timestamp_rejected :
  let data := JObj [("id", JStr "evt_1"); ("type", JStr "email.sent");
                    ("created_at", JStr "inf")] in
  let r := resend_webhook_view sample_clock sample_lib no_receivers
             (post data) empty_world in
  read_datetime sample_lib (JStr "inf")
    = Raise (mkExn OverflowError "timestamp out of range for platform time_t")
  /\ response r = server_error
  /\ rows (view_world r) = []
  /\ view_log r = [].
Proof.
  vm_compute. repeat split.
Qed.

(** C4, as the code has it.  The signals are sent with [Signal.send], so a
    receiver's exception reaches the caller.
    - Receiver: when a "received" receiver raises, no request gets the
      "received" answer; a request that stored a row is answered with the
      500 (the row stays stored).
    - Engine, "processed": when the handler returned and a "processed"
      receiver raises [e], the [except] branch runs: the event just marked
      Processed is recorded as Failed with [error_message] [str(e)] and
      [retry_count] one more, and the call does not return [True].
    - Engine, "failed": when the handler raised [e] and a "failed" receiver
      raises [e'], the status, [error_message] and [retry_count] recorded
      for the handler's failure stay as they are, and [e'] leaves
      [process_event]. *)
Theorem receiver_exceptions_reach_the_caller :
  forall clock lib signals,
    (forall request w,
       (forall named, send (received_receivers signals) named <> None) ->
       let r := resend_webhook_view clock lib signals request w in
       (forall id, response r <> received_response id)
       /\ (rows (view_world r) <> rows w ->
           response r = server_error
           /\ exists row, rows (view_world r) = rows w ++ [row]))
    /\
    (forall w event handler e,
       status event = STATUS_PENDING ->
       has_pk (pk event) (rows w) = true ->
       handler_outcome handler (claimed (clock (ticks w)) event) = None ->
       send (processed_receivers signals)
         (mkKwargs (completed (clock (S (ticks w))) (clock (S (S (ticks w))))
                      (claimed (clock (ticks w)) event)) None None)
         = Some e ->
       let r := process_event clock signals w event handler in
       run_result r <> Ok true
       /\ status (run_event r) = STATUS_FAILED
       /\ error_message (run_event r) = exn_str e
       /\ retry_count (run_event r) = retry_count event + 1
       /\ (forall row, In row (rows (run_world r)) -> pk row = pk event ->
             status row = STATUS_FAILED
             /\ error_message row = exn_str e
             /\ retry_count row = retry_count event + 1))
    /\
    (forall w event handler e e',
       status event = STATUS_PENDING ->
       has_pk (pk event) (rows w) = true ->
       handler_outcome handler (claimed (clock (ticks w)) event) = Some e ->
       send (failed_receivers signals)
         (mkKwargs (failed_with (exn_str e) (retry_count event + 1)
                      (clock (S (ticks w)))
                      (claimed (clock (ticks w)) event)) None (Some e))
         = Some e' ->
       let r := process_event clock signals w event handler in
       run_result r = Raise e'
       /\ status (run_event r) = STATUS_FAILED
       /\ error_message (run_event r) = exn_str e
       /\ retry_count (run_event r) = retry_count event + 1
       /\ (forall row, In row (rows (run_world r)) -> pk row = pk event ->
             status row = STATUS_FAILED
             /\ error_message row = exn_str e
             /\ retry_count row = retry_count event + 1)).
Proof.
  intros clock lib signals. split; [ | split].
  - intros request w Hraise r. subst r.
    unfold resend_webhook_view.
    destruct (negb (method request =? "POST")%string);
      [simpl; split; [discriminate | intro H; contradiction] | ].
    destruct (body request) as [ | e | data];
      try (simpl; split; [discriminate | intro H; contradiction]).
    split.
    + intro id.
      destruct (extract clock lib data w) as [w1 [early | x]] eqn:Hx.
      * rewrite (receive_early _ _ _ _ _ _ _ Hx). simpl.
        destruct (extract_early _ _ _ _ _ _ Hx) as [-> | [-> _]];
          discriminate.
      * rewrite (receive_read _ _ _ _ _ _ _ Hx).
        unfold store_and_notify.
        destruct (get_or_create clock lib w1 _ _ _ _ _ _) as [w2 got].
        destruct got as [[ev created] | e]; [ | simpl; discriminate].
        destruct created; simpl; [ | discriminate].
        destruct (send (received_receivers signals) _) eqn:Hs;
          [discriminate | ].
        exfalso. exact (Hraise _ Hs).
    + intro Hrows.
      destruct (receive_created clock lib signals data w Hrows)
        as [w1 [x [row [_ [_ [_ [_ [Hr [_ [_ [Hresp _]]]]]]]]]]].
      split; [exact (Hresp Hraise) | exists row; exact Hr].
  - intros w event handler e Hs Hpk Hh Hsend r.
    destruct (processed_receiver_failure_recorded clock signals w event
                handler e Hs Hpk Hh Hsend) as [Hev [Hrows Hres]].
    fold r in Hev, Hrows, Hres.
    rewrite Hev, Hrows, Hres.
    split; [destruct (send (failed_receivers signals) _); discriminate | ].
    do 3 (split; [reflexivity | ]).
    intros row Hin Hk. row_after_on_rows Hin Hk. repeat split.
  - intros w event handler e e' Hs Hpk Hh Hsend r.
    destruct (failure_recorded clock signals w event handler e Hs Hpk Hh)
      as [Hev [Hrows Hres]].
    fold r in Hev, Hrows, Hres.
    rewrite Hsend in Hres.
    rewrite Hev, Hrows, Hres.
    do 4 (split; [reflexivity | ]).
    intros row Hin Hk. row_after_on_rows Hin Hk. repeat split.
Qed.

Lemma receiver_exceptions_reach_the_caller_witness :
  let event := sample_event 1 10 STATUS_PENDING 0 in
  let w := mkWorld [event] 2 0 in
  let raising := mkSignals [raising_receiver] [raising_receiver]
                   [raising_receiver] in
  let v := resend_webhook_view sample_clock sample_lib raising
             (post (JObj [("id", JStr "evt_9")])) w in
  let r := process_event sample_clock raising w event None in
  let r' := process_event sample_clock raising w event
              (Some always_raises) in
  (response v = server_error /\ List.length (rows (view_world v)) = 2%nat)
  /\ (run_result r <> Ok true
      /\ status (run_event r) = STATUS_FAILED
      /\ error_message (run_event r) = "receiver failed")
  /\ (run_result r' = Raise (mkExn OtherError "receiver failed")
      /\ status (run_event r') = STATUS_FAILED
      /\ error_message (run_event r') = "bad address"
      /\ retry_count (run_event r') = 1).
Proof.
  intros event w raising v r r'.
  destruct (receiver_exceptions_reach_the_caller sample_clock sample_lib
              raising) as [Hview [Hprocessed Hfailed]].
  split; [ | split].
  - assert (A : forall named,
                send (received_receivers raising) named <> None)
      by (intro named; simpl; discriminate).
    assert (B : rows (view_world v) <> rows w) by (vm_compute; discriminate).
    destruct (Hview (post (JObj [("id", JStr "evt_9")])) w A) as [_ H].
    destruct (H B) as [H1 _].
    split; [exact H1 | vm_compute; reflexivity].
  - destruct (Hprocessed w event None
                (mkExn OtherError "receiver failed")
                eq_refl eq_refl eq_refl eq_refl) as [H1 [H2 [H3 _]]].
    split; [exact H1 | split; [exact H2 | exact H3]].
  - destruct (Hfailed w event (Some always_raises)
                (mkExn ValueError "bad address")
                (mkExn OtherError "receiver failed")
                eq_refl eq_refl eq_refl eq_refl) as [H1 [H2 [H3 [H4 _]]]].
    split; [exact H1 | split; [exact H2 | split; [exact H3 | exact H4]]].
Defined.

(** C4, against the claim as written: with a "received" receiver that
    raises, a first delivery is stored and answered with the 500; with a
    "processed" receiver that raises, an event whose handler returned ends
    Failed with one retry counted. *)
Lemma failing_receiver_changes_the_outcome :
  let raising := mkSignals [raising_receiver] [raising_receiver] [] in
  let v := resend_webhook_view sample_clock sample_lib raising
             (post (JObj [("id", JStr "evt_1")])) empty_world in
  let quiet := resend_webhook_view sample_clock sample_lib no_receivers
                 (post (JObj [("id", JStr "evt_1")])) empty_world in
  let event := sample_event 1 10 STATUS_PENDING 0 in
  let r := process_event sample_clock raising (mkWorld [event] 2 0) event
             (Some returns_quietly) in
  response quiet = received_response (JStr "evt_1")
  /\ status_code (response v) = 500
  /\ map event_id (rows (view_world v)) = [JStr "evt_1"]
  /\ run_result r = Ok false
  /\ map status (rows (run_world r)) = [STATUS_FAILED]
  /\ map retry_count (rows (run_world r)) = [1]
  /\ map error_message (rows (run_world r)) = ["receiver failed"].
Proof.
  vm_compute. repeat split.
Qed.

(** ** Query sets *)

Lemma insert_by_created_at_perm : forall row l,
  Permutation (insert_by_created_at row l) (row :: l).
Proof.
  intros row l. induction l as [ | r rest IH]; simpl.
  - apply Permutation_refl.
  - destruct (created_at row <=? created_at r).
    + apply Permutation_refl.
    + apply Permutation_trans with (r :: row :: rest).
      * apply perm_skip. exact IH.
      * apply perm_swap.
Qed.

Lemma order_by_created_at_perm : forall l,
  Permutation (order_by_created_at l) l.
Proof.
  induction l as [ | row rest IH]; simpl.
  - apply Permutation_refl.
  - apply Permutation_trans with (row :: order_by_created_at rest).
    + apply insert_by_created_at_perm.
    + apply perm_skip. exact IH.
Qed.





(** ... holds only rows of the table that match ... *)
Lemma fetch_in : forall q w row,
  In row (fetch q w) -> In row (rows w) /\ matches q row = true.
Proof.
  intros q w row H. unfold fetch in H.
  assert (H' : In row (order_by_created_at (filter (matches q) (rows w)))).
  { destruct (q_high_mark q); [ | exact H].
    revert H. generalize (order_by_created_at (filter (matches q) (rows w))).
    generalize (Z.to_nat z).
    induction n as [ | n IH]; intros l Hl; simpl in Hl; [contradiction | ].
    destruct l as [ | a l]; [contradiction | ].
    destruct Hl as [-> | Hl]; [left; reflexivity | right; exact (IH l Hl)]. }
  apply (Permutation_in _ (order_by_created_at_perm _)) in H'.
  apply filter_In in H'. exact H'.
Qed.

(** ... all of them when it is not sliced, and the oldest [high] of them
    when it is. *)
Lemma fetch_unsliced : forall q w,
  q_high_mark q = None ->
  Permutation (fetch q w) (filter (matches q) (rows w)).
Proof.
  intros q w H. unfold fetch. rewrite H. apply order_by_created_at_perm.
Qed.


Lemma get_pending_events_query : forall limit type_filter,
  (forall n, limit = Some n -> 0 <= n) ->
  get_pending_events limit type_filter
    = Ok (mkQuery STATUS_PENDING (given_type type_filter) None
            (given_limit limit)).
Proof.
  intros limit type_filter Hn. unfold get_pending_events, given_type.
  assert (E : (match type_filter with
               | Some t =>
                   if negb (t =? "")%string
                   then mkQuery STATUS_PENDING (Some t) None None
                   else mkQuery STATUS_PENDING None None None
               | None => mkQuery STATUS_PENDING None None None
               end)
              = mkQuery STATUS_PENDING
                  (match type_filter with
                   | Some t => if (t =? "")%string then None else Some t
                   | None => None
                   end) None None).
  { destruct type_filter as [t | ]; [ | reflexivity].
    destruct (t =? "")%string; reflexivity. }
  simpl. rewrite E. clear E.
  destruct limit as [n | ]; simpl; [ | reflexivity].
  destruct (n =? 0) eqn:E0; simpl; [reflexivity | ].
  unfold slice. simpl.
  specialize (Hn n eq_refl).
  destruct (n <? 0) eqn:E1; [apply Z.ltb_lt in E1; lia | reflexivity].
Qed.

(** ** The batch loop *)

Lemma handled_app : forall a b, handled (a ++ b) = handled a ++ handled b.
Proof.
  induction a as [ | x a IH]; intro b; simpl; [reflexivity | ].
  destruct x; simpl; rewrite IH; reflexivity.
Qed.

Lemma on_rows_keys : forall k f rs,
  (forall r, pk (f r) = pk r) -> map pk (on_rows k f rs) = map pk rs.
Proof.
  intros k f rs Hf. unfold on_rows. rewrite map_map. apply map_ext.
  intro row. destruct (pk row =? k); [apply Hf | reflexivity].
Qed.


Section Batch.

Variable clock : nat -> datetime.
Variable signals : Signals.
Hypothesis failed_receivers_return :
  forall named, send (failed_receivers signals) named = None.

(** On a stored Pending event, with "failed" receivers that return,
    [process_event] returns a value, keeps the keys of the table, and has
    called the handler, when there is one, once on that event. *)
Lemma process_event_returns : forall w event handler,
  status event = STATUS_PENDING ->
  has_pk (pk event) (rows w) = true ->
  let r := process_event clock signals w event handler in
  (exists b, run_result r = Ok b)
  /\ map pk (rows (run_world r)) = map pk (rows w)
  /\ handled (run_log r)
     = match handler with Some _ => [pk event] | None => [] end.
Proof.
  intros w event handler Hs Hpk. cbv zeta.
  rewrite process_event_stored by assumption. cbv zeta.
  assert (Hk1 : forall t, has_pk (pk event)
                  (on_rows (pk event) (claimed t) (rows w)) = true).
  { intro t. rewrite has_pk_on_rows; [exact Hpk | reflexivity]. }
  destruct (match handler with
            | Some h => h (claimed (clock (ticks w)) event)
            | None => None
            end) as [e | ].
  - rewrite on_exception_stored by (simpl; apply Hk1).
    cbv zeta. rewrite failed_receivers_return. simpl.
    split; [eexists; reflexivity | ].
    split; [rewrite !on_rows_keys by reflexivity; reflexivity | ].
    rewrite handled_app. simpl. rewrite app_nil_r.
    destruct handler; reflexivity.
  - destruct (send (processed_receivers signals) _) as [e | ].
    + rewrite on_exception_stored
        by (simpl; rewrite has_pk_on_rows; [apply Hk1 | reflexivity]).
      cbv zeta. rewrite failed_receivers_return. simpl.
      split; [eexists; reflexivity | ].
      split; [rewrite !on_rows_keys by reflexivity; reflexivity | ].
      rewrite !handled_app. simpl. rewrite app_nil_r.
      destruct handler; reflexivity.
    + simpl.
      split; [eexists; reflexivity | ].
      split; [rewrite !on_rows_keys by reflexivity; reflexivity | ].
      rewrite handled_app. simpl. rewrite app_nil_r.
      destruct handler; reflexivity.
Qed.

(** The loop goes through every event it was given, whatever the handler
    does on each, and counts each one once. *)
Lemma pending_loop_runs_all : forall handler events w log stats,
  Forall (fun e => status e = STATUS_PENDING
                   /\ has_pk (pk e) (rows w) = true) events ->
  let r := pending_loop clock signals handler events w log stats in
  exists final,
    batch_result r = Ok final
    /\ total final = total stats + Z.of_nat (List.length events)
    /\ processed final + failed final
       = processed stats + failed stats + Z.of_nat (List.length events)
    /\ handled (batch_log r)
       = handled log ++ match handler with
                        | Some _ => map pk events
                        | None => []
                        end.
Proof.
  intros handler events.
  induction events as [ | event rest IH]; intros w log stats Hall; cbv zeta.
  - simpl. exists stats. repeat split; try lia.
    destruct handler; rewrite app_nil_r; reflexivity.
  - inversion Hall as [ | ? ? [Hs Hpk] Hrest]; subst.
    destruct (process_event_returns w event handler Hs Hpk)
      as [[b Hb] [Hkeys Hlog]].
    assert (Hrest' : Forall (fun e => status e = STATUS_PENDING
                     /\ has_pk (pk e)
                          (rows (run_world
                                   (process_event clock signals w event
                                      handler))) = true) rest).
    { eapply Forall_impl; [ | exact Hrest].
      intros a [Ha Hb']. split; [exact Ha | ].
      rewrite (has_pk_keys _ _ _ Hkeys). exact Hb'. }
    simpl pending_loop. rewrite Hb.
    destruct b.
    + destruct (IH _ (log ++ run_log (process_event clock signals w event
                                        handler))
                  (mkStats (total stats + 1) (processed stats + 1)
                     (failed stats)) Hrest')
        as [final [H1 [H2 [H3 H4]]]].
      exists final. simpl in H2, H3.
      split; [exact H1 | ].
      split; [rewrite H2; simpl List.length; lia | ].
      split; [rewrite H3; simpl List.length; lia | ].
      rewrite H4, handled_app, Hlog.
      destruct handler; simpl; rewrite <- app_assoc; reflexivity.
    + destruct (IH _ (log ++ run_log (process_event clock signals w event
                                        handler))
                  (mkStats (total stats + 1) (processed stats)
                     (failed stats + 1)) Hrest')
        as [final [H1 [H2 [H3 H4]]]].
      exists final. simpl in H2, H3.
      split; [exact H1 | ].
      split; [rewrite H2; simpl List.length; lia | ].
      split; [rewrite H3; simpl List.length; lia | ].
      rewrite H4, handled_app, Hlog.
      destruct handler; simpl; rewrite <- app_assoc; reflexivity.
Qed.

End Batch.

Lemma has_pk_in : forall row rs, In row rs -> has_pk (pk row) rs = true.
Proof.
  intros row rs H. unfold has_pk. apply existsb_exists.
  exists row. split; [exact H | apply Z.eqb_refl].
Qed.



(** C6, at the failing input.  Three Pending events, all of type
    [email.sent].  A limit of 2 caps the run at the two oldest and the type
    [email.bounced] selects none of them; but a limit of 0 caps nothing,
    all three events are processed where the cap allows none, and the
    empty type filters nothing, all three are processed where none has
    that type. *)
Theorem zero_limit_caps_nothing :
  let w := mkWorld [sample_event 1 10 STATUS_PENDING 0;
                    sample_event 2 20 STATUS_PENDING 0;
                    sample_event 3 30 STATUS_PENDING 0] 4 0 in
  let run := fun limit type_filter =>
               process_pending_events sample_clock no_receivers limit
                 type_filter (Some returns_quietly) w in
  map event_type (rows w)
    = [JStr "email.sent"; JStr "email.sent"; JStr "email.sent"]
  /\ handled (batch_log (run (Some 2) None)) = [1; 2]
  /\ batch_result (run (Some 2) None) = Ok (mkStats 2 2 0)
  /\ handled (batch_log (run None (Some "email.bounced"%string))) = []
  /\ handled (batch_log (run (Some 0) None)) = [1; 2; 3]
  /\ batch_result (run (Some 0) None) = Ok (mkStats 3 3 0)
  /\ handled (batch_log (run None (Some ""%string))) = [1; 2; 3]
  /\ batch_result (run None (Some ""%string)) = Ok (mkStats 3 3 0).
Proof.
  vm_compute. repeat split.
Qed.

(** ** Retrying *)

(** After the bulk reset no row matches the query any more. *)
Lemma reset_leaves_no_match : forall max_retries rs,
  let q := mkQuery STATUS_FAILED None (Some max_retries) None in
  filter (matches q)
    (map (fun row => if matches q row
                     then set_status STATUS_PENDING row else row) rs)
  = [].
Proof.
  intros max_retries rs q.
  induction rs as [ | row rest IH]; simpl; [reflexivity | ].
  destruct (matches q row) eqn:E.
  - rewrite IH.
    assert (Hno : matches q (set_status STATUS_PENDING row) = false)
      by reflexivity.
    rewrite Hno. reflexivity.
  - rewrite E. exact IH.
Qed.

(** Without a limit (absent, or 0): the retryable rows are put back to
    Pending by the bulk update; the query set is then run again for
    [count()] and for the loop, finds nothing, and no event goes through
    [process_event]. *)
Lemma retry_failed_events_unsliced : forall clock signals limit max_retries w,
  given_limit limit = None ->
  let q := mkQuery STATUS_FAILED None (Some max_retries) None in
  retry_failed_events clock signals limit max_retries w
    = mkBatch
        (with_rows
           (map (fun row => if matches q row
                            then set_status STATUS_PENDING row else row)
                (rows w)) w)
        [] (Ok (mkStats 0 0 0)).
Proof.
  intros clock signals limit max_retries w Hl q.
  unfold retry_failed_events.
  assert (E : match limit with
              | Some n => if negb (n =? 0) then slice q n else Ok q
              | None => Ok q
              end = Ok q).
  { destruct limit as [n | ]; [ | reflexivity].
    simpl in Hl. destruct (n =? 0); [reflexivity | discriminate Hl]. }
  fold q. rewrite E.
  assert (F : forall rs k n,
            fetch q (mkWorld
                       (map (fun row => if matches q row
                                        then set_status STATUS_PENDING row
                                        else row) rs) k n) = []).
  { intros rs k n. unfold fetch. subst q. cbn [rows q_high_mark].
    rewrite (reset_leaves_no_match max_retries rs). reflexivity. }
  unfold update_status, count, with_rows.
  replace (q_high_mark q) with (@None Z) by reflexivity.
  rewrite F. reflexivity.
Qed.

(** With a positive limit the bulk update is refused and nothing is done. *)
Lemma retry_failed_events_sliced : forall clock signals n max_retries w,
  0 < n ->
  retry_failed_events clock signals (Some n) max_retries w
    = mkBatch w []
        (Raise (mkExn TypeError
                  "Cannot update a query once a slice has been taken.")).
Proof.
  intros clock signals n max_retries w Hn. unfold retry_failed_events.
  destruct (n =? 0) eqn:E0; [apply Z.eqb_eq in E0; lia | ].
  simpl negb. cbv iota. unfold slice.
  destruct (n <? 0) eqn:E1; [apply Z.ltb_lt in E1; lia | ].
  reflexivity.
Qed.

(** C2, at the failing input.  Of three Failed events, those with keys 1 and
    3 have fewer than 3 retries and are the ones selected.  Without a
    limit they are put back to Pending, but the stats are all 0 and the log
    is empty: no event went through [process_event], where [total] should
    be 2 and both should have been processed.  With a limit of 1 the call
    raises [TypeError] and changes nothing. *)
Theorem retry_failed_events_processes_nothing :
  let w := mkWorld [sample_event 1 10 STATUS_FAILED 1;
                    sample_event 2 20 STATUS_FAILED 3;
                    sample_event 3 30 STATUS_FAILED 0] 4 0 in
  let r := retry_failed_events sample_clock no_receivers None 3 w in
  let r' := retry_failed_events sample_clock no_receivers (Some 1) 3 w in
  map pk (fetch (mkQuery STATUS_FAILED None (Some 3) None) w) = [1; 3]
  /\ batch_result r = Ok (mkStats 0 0 0)
  /\ batch_log r = []
  /\ map status (rows (batch_world r))
     = [STATUS_PENDING; STATUS_FAILED; STATUS_PENDING]
  /\ batch_result r'
     = Raise (mkExn TypeError
                "Cannot update a query once a slice has been taken.")
  /\ rows (batch_world r') = rows w.
Proof.
  vm_compute. repeat split.
Qed.

(** ** Two invocations at once *)

Lemma handler_calls_app : forall a b,
  handler_calls (a ++ b) = (handler_calls a + handler_calls b)%nat.
Proof.
  intros a b. unfold handler_calls.
  rewrite filter_app, length_app. reflexivity.
Qed.

Section Workers.

Variable clock : nat -> datetime.
Variable signals : Signals.

Lemma mark_processing_keys : forall w event w1 event1 raised,
  mark_processing clock w event = (w1, event1, raised) ->
  map pk (rows w1) = map pk (rows w) /\ pk event1 = pk event.
Proof.
  intros w event w1 event1 raised H. unfold mark_processing in H.
  apply save_keys in H. exact H.
Qed.

Lemma mark_processed_keys : forall w event w1 event1 raised,
  mark_processed clock w event = (w1, event1, raised) ->
  map pk (rows w1) = map pk (rows w) /\ pk event1 = pk event.
Proof.
  intros w event w1 event1 raised H. unfold mark_processed, now in H.
  apply save_keys in H. exact H.
Qed.

Lemma mark_failed_keys : forall w event message w1 event1 raised,
  mark_failed clock w event message = (w1, event1, raised) ->
  map pk (rows w1) = map pk (rows w) /\ pk event1 = pk event.
Proof.
  intros w event message w1 event1 raised H. unfold mark_failed in H.
  apply save_keys in H. exact H.
Qed.

(** A step keeps the keys of the table, the key of the worker's instance
    and its handler. *)
Lemma worker_step_keys : forall w t w1 t1 log,
  worker_step clock signals w t = (w1, t1, log) ->
  map pk (rows w1) = map pk (rows w)
  /\ pk (worker_event t1) = pk (worker_event t)
  /\ worker_handler t1 = worker_handler t.
Proof.
  intros w [event h pc] w1 t1 log. unfold worker_step. simpl.
  destruct pc as [ | | | | | e | e | r].
  - destruct (negb _); intro H; inversion H; subst; auto.
  - destruct (mark_processing clock w event) as [[w' e'] raised] eqn:E.
    apply mark_processing_keys in E. destruct E as [E1 E2].
    destruct raised; intro H; inversion H; subst; auto.
  - destruct h as [f | ]; [destruct (f event) | ];
      intro H; inversion H; subst; auto.
  - destruct (mark_processed clock w event) as [[w' e'] raised] eqn:E.
    apply mark_processed_keys in E. destruct E as [E1 E2].
    destruct raised; intro H; inversion H; subst; auto.
  - destruct (send _ _); intro H; inversion H; subst; auto.
  - destruct (mark_failed clock w event (exn_str e))
      as [[w' e'] raised] eqn:E.
    apply mark_failed_keys in E. destruct E as [E1 E2].
    destruct raised; intro H; inversion H; subst; auto.
  - destruct (send _ _); intro H; inversion H; subst; auto.
  - intro H; inversion H; subst; auto.
Qed.

(** The claim of line 54 is an unconditional write: with the row in the
    table it succeeds whatever status the row has by now. *)
Lemma claim_is_unconditional : forall w event h,
  has_pk (pk event) (rows w) = true ->
  worker_step clock signals w (mkWorker event h AtClaim)
    = (mkWorld (on_rows (pk event) (claimed (clock (ticks w))) (rows w))
         (next_pk w) (S (ticks w)),
       mkWorker (claimed (clock (ticks w)) event) h AtHandler, []).
Proof.
  intros w event h H. unfold worker_step. simpl.
  rewrite mark_processing_stored by exact H. reflexivity.
Qed.

(** A step makes exactly the handler calls the worker owed at that point. *)
Lemma worker_step_owes : forall w t w1 t1 log,
  has_pk (pk (worker_event t)) (rows w) = true ->
  worker_step clock signals w t = (w1, t1, log) ->
  (handler_calls log + owes t1 = owes t)%nat.
Proof.
  intros w [event h pc] w1 t1 log Hpk. simpl in Hpk.
  destruct pc as [ | | | | | e | e | r].
  - unfold worker_step, owes. simpl.
    destruct (status_eqb (status event) STATUS_PENDING); simpl;
      intro H; inversion H; subst; simpl; destruct h; reflexivity.
  - rewrite claim_is_unconditional by exact Hpk.
    intro H; inversion H; subst. unfold owes. simpl.
    destruct h; reflexivity.
  - unfold worker_step, owes. simpl.
    destruct h as [f | ]; [destruct (f event) | ];
      intro H; inversion H; subst; reflexivity.
  - unfold worker_step, owes. simpl.
    destruct (mark_processed clock w event) as [[w' e'] raised].
    destruct raised; intro H; inversion H; subst; simpl;
      destruct h; reflexivity.
  - unfold worker_step, owes. simpl.
    destruct (send _ _); intro H; inversion H; subst; simpl;
      destruct h; reflexivity.
  - unfold worker_step, owes. simpl.
    destruct (mark_failed clock w event (exn_str e)) as [[w' e'] raised].
    destruct raised; intro H; inversion H; subst; simpl;
      destruct h; reflexivity.
  - unfold worker_step, owes. simpl.
    destruct (send _ _); intro H; inversion H; subst; simpl;
      destruct h; reflexivity.
  - unfold worker_step, owes. simpl.
    intro H; inversion H; subst; simpl; destruct h; reflexivity.
Qed.

(** A step brings an unfinished worker closer to the end. *)
Lemma worker_step_progress : forall w t w1 t1 log,
  worker_step clock signals w t = (w1, t1, log) ->
  (steps_left t1 <= pred (steps_left t))%nat.
Proof.
  intros w [event h pc] w1 t1 log. unfold worker_step, steps_left. simpl.
  destruct pc as [ | | | | | e | e | r].
  - destruct (negb _); intro H; inversion H; subst; simpl; lia.
  - destruct (mark_processing clock w event) as [[w' e'] raised].
    destruct raised; intro H; inversion H; subst; simpl; lia.
  - destruct h as [f | ]; [destruct (f event) | ];
      intro H; inversion H; subst; simpl; lia.
  - destruct (mark_processed clock w event) as [[w' e'] raised].
    destruct raised; intro H; inversion H; subst; simpl; lia.
  - destruct (send _ _); intro H; inversion H; subst; simpl; lia.
  - destruct (mark_failed clock w event (exn_str e)) as [[w' e'] raised].
    destruct raised; intro H; inversion H; subst; simpl; lia.
  - destruct (send _ _); intro H; inversion H; subst; simpl; lia.
  - intro H; inversion H; subst; simpl; lia.
Qed.

Lemma pair_step_invariant : forall owed turn s,
  pair_invariant owed s ->
  pair_invariant owed (pair_step clock signals turn s).
Proof.
  intros owed turn [w a b tr] [Ha [Hb Hc]]. simpl in *.
  unfold pair_step. simpl. destruct turn.
  - destruct (worker_step clock signals w a) as [[w1 a1] l1] eqn:E.
    pose proof (worker_step_keys _ _ _ _ _ E) as [K1 [K2 _]].
    pose proof (worker_step_owes _ _ _ _ _ Ha E) as O.
    unfold pair_invariant. simpl.
    rewrite K2, !(has_pk_keys _ _ _ K1), handler_calls_app.
    repeat split; try assumption. lia.
  - destruct (worker_step clock signals w b) as [[w1 b1] l1] eqn:E.
    pose proof (worker_step_keys _ _ _ _ _ E) as [K1 [K2 _]].
    pose proof (worker_step_owes _ _ _ _ _ Hb E) as O.
    unfold pair_invariant. simpl.
    rewrite K2, !(has_pk_keys _ _ _ K1), handler_calls_app.
    repeat split; try assumption. lia.
Qed.

Lemma interleave_invariant : forall owed schedule s,
  pair_invariant owed s ->
  pair_invariant owed (interleave clock signals schedule s).
Proof.
  intros owed schedule. unfold interleave.
  induction schedule as [ | turn rest IH]; intros s H; simpl; [exact H | ].
  apply IH. apply pair_step_invariant. exact H.
Qed.

Lemma finished_owes_nothing : forall t,
  is_finished t = true -> owes t = 0%nat.
Proof.
  intros [event h pc] H. unfold is_finished in H. unfold owes. simpl in *.
  destruct pc; try discriminate H. destruct h; reflexivity.
Qed.

Lemma no_steps_left_finished : forall t,
  steps_left t = 0%nat -> is_finished t = true.
Proof.
  intros [event h pc] H. unfold steps_left in H. simpl in H.
  destruct pc; try discriminate H. reflexivity.
Qed.

(** A schedule with enough turns for a worker brings it to the end. *)
Lemma enough_turns_finish : forall schedule s,
  ((steps_left (first s) <= turns true schedule)%nat ->
   is_finished (first (interleave clock signals schedule s)) = true)
  /\ ((steps_left (second s) <= turns false schedule)%nat ->
      is_finished (second (interleave clock signals schedule s)) = true).
Proof.
  unfold interleave.
  induction schedule as [ | turn rest IH]; intro s; simpl.
  - unfold turns. simpl.
    split; intro H; apply no_steps_left_finished; lia.
  - destruct (IH (pair_step clock signals turn s)) as [IH1 IH2].
    destruct s as [w a b tr]. unfold pair_step in *. simpl in *.
    unfold turns in *. destruct turn; simpl in *.
    + destruct (worker_step clock signals w a) as [[w1 a1] l1] eqn:E.
      pose proof (worker_step_progress _ _ _ _ _ E) as P.
      simpl in *. split; intro H; [apply IH1 | apply IH2]; lia.
    + destruct (worker_step clock signals w b) as [[w1 b1] l1] eqn:E.
      pose proof (worker_step_progress _ _ _ _ _ E) as P.
      simpl in *. split; intro H; [apply IH1 | apply IH2]; lia.
Qed.

End Workers.

(** C3, as the code has it.  [process_event] tests the status held by the
    caller's instance and claims with an unconditional write of [status]
    and [updated_at]; no row count is looked at.  So when two invocations
    hold instances of the same stored Pending event, under every schedule
    that lets both run to the end both end, and the handler has been called
    twice: neither invocation is a skipped no-op. *)
Theorem both_invocations_call_the_handler :
  forall clock signals w event h1 h2 schedule,
    status event = STATUS_PENDING ->
    has_pk (pk event) (rows w) = true ->
    (7 <= turns true schedule)%nat ->
    (7 <= turns false schedule)%nat ->
    let s := interleave clock signals schedule
               (mkPair w (mkWorker event (Some h1) AtCheck)
                  (mkWorker event (Some h2) AtCheck) []) in
    is_finished (first s) = true
    /\ is_finished (second s) = true
    /\ handler_calls (trace s) = 2%nat.
Proof.
  intros clock signals w event h1 h2 schedule Hs Hpk Ht Hf s.
  set (s0 := mkPair w (mkWorker event (Some h1) AtCheck)
               (mkWorker event (Some h2) AtCheck) []) in *.
  destruct (enough_turns_finish clock signals schedule s0) as [F1 F2].
  specialize (F1 Ht). specialize (F2 Hf). fold s in F1, F2.
  assert (I0 : pair_invariant 2 s0).
  { unfold pair_invariant, s0, owes. simpl. rewrite Hs, Hpk. auto. }
  pose proof (interleave_invariant clock signals 2 schedule s0 I0) as I.
  fold s in I. destruct I as [_ [_ I]].
  rewrite (finished_owes_nothing _ F1), (finished_owes_nothing _ F2) in I.
  split; [exact F1 | split; [exact F2 | lia]].
Qed.

Lemma both_invocations_call_the_handler_witness :
  let event := sample_event 1 10 STATUS_PENDING 0 in
  let w := mkWorld [event] 2 0 in
  let schedule := [true; false; true; false; true; false; true;
                   false; true; false; true; false; true; false] in
  let s := interleave sample_clock no_receivers schedule
             (mkPair w (mkWorker event (Some returns_quietly) AtCheck)
                (mkWorker event (Some always_raises) AtCheck) []) in
  is_finished (first s) = true
  /\ is_finished (second s) = true
  /\ handler_calls (trace s) = 2%nat.
Proof.
  intros event w schedule s.
  apply (both_invocations_call_the_handler sample_clock no_receivers w event
           returns_quietly always_raises schedule eq_refl eq_refl).
  - vm_compute. lia.
  - vm_compute. lia.
Defined.

(** C3, against the claim as written: two invocations on the same Pending
    event, taking turns statement by statement.  Both pass the test of line
    49, both claims succeed, both handlers run, and both calls return
    [True]; there is no skipped call. *)
Lemma two_invocations_both_win :
  let event := sample_event 1 10 STATUS_PENDING 0 in
  let w := mkWorld [event] 2 0 in
  let schedule := [true; false; true; false; true; false; true;
                   false; true; false] in
  let s := interleave sample_clock no_receivers schedule
             (mkPair w (mkWorker event (Some returns_quietly) AtCheck)
                (mkWorker event (Some returns_quietly) AtCheck) []) in
  worker_pc (first s) = Finished (Ok true)
  /\ worker_pc (second s) = Finished (Ok true)
  /\ handled (trace s) = [1; 1]
  /\ sends_of webhook_event_processed (trace s) = 2%nat
  /\ map status (rows (shared s)) = [STATUS_PROCESSED].
Proof.
  vm_compute. repeat split.
Qed.

(** One worker left alone for seven steps does what a call of
    [process_event] does: the steps are the statements of the function. *)
Lemma worker_alone_is_process_event : forall clock signals w event h,
  let r := process_event clock signals w event h in
  run_alone clock signals 7 w (mkWorker event h AtCheck) []
    = (run_world r, mkWorker (run_event r) h (Finished (run_result r)),
       run_log r).
Proof.
  intros clock signals w event h. cbv zeta.
  unfold process_event, on_exception.
  cbn [run_alone worker_step worker_event worker_handler worker_pc].
  destruct (negb (status_eqb (status event) STATUS_PENDING));
    [reflexivity | ].
  cbn [run_alone worker_step worker_event worker_handler worker_pc].
  destruct (mark_processing clock w event) as [[w1 e1] raised1].
  destruct raised1 as [x | ].
  - cbn [run_alone worker_step worker_event worker_handler worker_pc].
    destruct (mark_failed clock w1 e1 (exn_str x)) as [[w2 e2] raised2].
    destruct raised2 as [y | ]; [reflexivity | ].
    cbn [run_alone worker_step worker_event worker_handler worker_pc].
    destruct (send (failed_receivers signals) _); reflexivity.
  - cbn [run_alone worker_step worker_event worker_handler worker_pc].
    destruct h as [f | ].
    + destruct (f e1) as [x | ].
      * cbn [run_alone worker_step worker_event worker_handler worker_pc].
        destruct (mark_failed clock w1 e1 (exn_str x)) as [[w2 e2] raised2].
        destruct raised2 as [y | ]; [reflexivity | ].
        cbn [run_alone worker_step worker_event worker_handler worker_pc].
        destruct (send (failed_receivers signals) _); reflexivity.
      * cbn [run_alone worker_step worker_event worker_handler worker_pc].
        destruct (mark_processed clock w1 e1) as [[w3 e3] raised3].
        destruct raised3 as [x | ].
        -- cbn [run_alone worker_step worker_event worker_handler worker_pc].
           destruct (mark_failed clock w3 e3 (exn_str x))
             as [[w4 e4] raised4].
           destruct raised4 as [y | ]; [reflexivity | ].
           cbn [run_alone worker_step worker_event worker_handler worker_pc].
           destruct (send (failed_receivers signals) _); reflexivity.
        -- cbn [run_alone worker_step worker_event worker_handler worker_pc].
           destruct (send (processed_receivers signals) _) as [x | ];
             [ | reflexivity].
           cbn [run_alone worker_step worker_event worker_handler worker_pc].
           destruct (mark_failed clock w3 e3 (exn_str x))
             as [[w4 e4] raised4].
           destruct raised4 as [y | ]; [reflexivity | ].
           cbn [run_alone worker_step worker_event worker_handler worker_pc].
           destruct (send (failed_receivers signals) _); reflexivity.
    + cbn [run_alone worker_step worker_event worker_handler worker_pc].
      destruct (mark_processed clock w1 e1) as [[w3 e3] raised3].
      destruct raised3 as [x | ].
      * cbn [run_alone worker_step worker_event worker_handler worker_pc].
        destruct (mark_failed clock w3 e3 (exn_str x)) as [[w4 e4] raised4].
        destruct raised4 as [y | ]; [reflexivity | ].
        cbn [run_alone worker_step worker_event worker_handler worker_pc].
        destruct (send (failed_receivers signals) _); reflexivity.
      * cbn [run_alone worker_step worker_event worker_handler worker_pc].
        destruct (send (processed_receivers signals) _) as [x | ];
          [ | reflexivity].
        cbn [run_alone worker_step worker_event worker_handler worker_pc].
        destruct (mark_failed clock w3 e3 (exn_str x)) as [[w4 e4] raised4].
        destruct raised4 as [y | ]; [reflexivity | ].
        cbn [run_alone worker_step worker_event worker_handler worker_pc].
        destruct (send (failed_receivers signals) _); reflexivity.
Qed.

(** * Further properties *)

(** ** What the engine leaves alone *)

Lemma same_receipt_refl : forall r, same_receipt r r.
Proof. intro r. unfold same_receipt. repeat split. Qed.

Lemma same_receipt_trans : forall a b c,
  same_receipt a b -> same_receipt b c -> same_receipt a c.
Proof.
  unfold same_receipt. intros a b c H1 H2.
  destruct H1 as [A1 [A2 [A3 [A4 [A5 [A6 [A7 A8]]]]]]].
  destruct H2 as [B1 [B2 [B3 [B4 [B5 [B6 [B7 B8]]]]]]].
  repeat split; congruence.
Qed.

Lemma touches_refl : forall keys r, touches keys r r.
Proof.
  intros keys r. unfold touches.
  split; [apply same_receipt_refl | split; auto].
Qed.

Lemma touches_trans : forall keys a b c,
  touches keys a b -> touches keys b c -> touches keys a c.
Proof.
  intros keys a b c [R1 [O1 P1]] [R2 [O2 P2]].
  split; [exact (same_receipt_trans _ _ _ R1 R2) | split].
  - intro H. rewrite <- (O1 H). apply O2.
    destruct R1 as [Hpk _]. rewrite Hpk. exact H.
  - intro H. apply P2. apply P1. exact H.
Qed.

Lemma touches_more : forall keys keys' a b,
  incl keys keys' -> touches keys a b -> touches keys' a b.
Proof.
  intros keys keys' a b Hincl [R [O P]].
  split; [exact R | split; [ | exact P]].
  intro H. apply O. intro Hin. apply H. apply Hincl. exact Hin.
Qed.

Lemma Forall2_touches_refl : forall keys rs, Forall2 (touches keys) rs rs.
Proof.
  intros keys rs. induction rs; constructor; [apply touches_refl | assumption].
Qed.

Lemma Forall2_touches_trans : forall keys xs ys zs,
  Forall2 (touches keys) xs ys -> Forall2 (touches keys) ys zs ->
  Forall2 (touches keys) xs zs.
Proof.
  intros keys xs ys zs H. revert zs.
  induction H as [ | x y xs ys Hxy Hrest IH]; intros zs Hz.
  - inversion Hz. constructor.
  - inversion Hz as [ | ? z ? zs' Hyz Hrest']; subst.
    constructor; [exact (touches_trans _ _ _ _ Hxy Hyz) | apply IH; assumption].
Qed.

Lemma Forall2_touches_more : forall keys keys' xs ys,
  incl keys keys' ->
  Forall2 (touches keys) xs ys -> Forall2 (touches keys') xs ys.
Proof.
  intros keys keys' xs ys Hincl H.
  induction H; constructor;
    [eapply touches_more; eassumption | assumption].
Qed.

(** A map that changes the rows with key [k] only, keeps their receipt
    columns and does not clear [processed_at]. *)
Lemma Forall2_touches_map : forall k f rs,
  (forall row, same_receipt row (f row)) ->
  (forall row, processed_at row <> None -> processed_at (f row) <> None) ->
  Forall2 (touches [k])
    rs (map (fun row => if pk row =? k then f row else row) rs).
Proof.
  intros k f rs Hf Hp. induction rs as [ | r rs IH]; simpl; constructor.
  - destruct (pk r =? k) eqn:E; [ | apply touches_refl].
    split; [apply Hf | split; [ | apply Hp]].
    intro Hn. exfalso. apply Hn. left. apply Z.eqb_eq in E. auto.
  - exact IH.
Qed.

Lemma write_field_receipt : forall src f dst,
  same_receipt dst (write_field src f dst).
Proof.
  intros src f dst. destruct f; unfold same_receipt; simpl; repeat split.
Qed.

Lemma write_fields_receipt : forall src fields dst,
  same_receipt dst (write_fields src fields dst).
Proof.
  intros src fields. unfold write_fields.
  induction fields as [ | f fs IH]; intro dst; simpl.
  - apply same_receipt_refl.
  - eapply same_receipt_trans; [apply (write_field_receipt src f) | apply IH].
Qed.

(** Writing columns clears [processed_at] only by copying a cleared one. *)
Lemma write_fields_processed_at : forall src fields dst,
  processed_at dst <> None ->
  (listed F_processed_at fields = true -> processed_at src <> None) ->
  processed_at (write_fields src fields dst) <> None.
Proof.
  intros src fields. unfold write_fields.
  induction fields as [ | f fs IH]; intros dst Hdst Hsrc; simpl;
    [exact Hdst | ].
  apply IH.
  - destruct f; simpl; try exact Hdst.
    apply Hsrc. reflexivity.
  - intro H. apply Hsrc. unfold listed in *. simpl.
    rewrite H. apply orb_true_r.
Qed.

Section Frame.

Variable clock : nat -> datetime.
Variable signals : Signals.

(** A save stays within [touches] for the key of the instance, provided a
    listed [processed_at] is set on the instance. *)
Lemma save_touches : forall fields w self w1 self1 raised,
  save clock fields w self = (w1, self1, raised) ->
  (listed F_processed_at fields = true -> processed_at self <> None) ->
  Forall2 (touches [pk self]) (rows w) (rows w1)
  /\ next_pk w1 = next_pk w /\ pk self1 = pk self.
Proof.
  intros fields w self w1 self1 raised H Hp. unfold save in H.
  assert (Hmap : forall src rs,
            pk src = pk self ->
            (listed F_processed_at fields = true ->
             processed_at src <> None) ->
            Forall2 (touches [pk self]) rs
              (map (fun row => if pk row =? pk src
                               then write_fields src fields row else row)
                 rs)).
  { intros src rs Hk Hsrc. rewrite Hk. apply Forall2_touches_map.
    - intro row. apply write_fields_receipt.
    - intros row Hrow. apply write_fields_processed_at; assumption. }
  destruct (listed F_updated_at fields); simpl in H;
    match type of H with
    | context [has_pk ?k ?rs] => destruct (has_pk k rs)
    end;
    inversion H; subst; clear H; simpl;
    (split; [ | split; reflexivity]);
    try apply Forall2_touches_refl;
    match goal with
    | |- context [write_fields ?src fields] =>
        apply (Hmap src); [reflexivity | intro E; simpl; exact (Hp E)]
    end.
Qed.

Lemma mark_processing_touches : forall w event w1 event1 raised,
  mark_processing clock w event = (w1, event1, raised) ->
  Forall2 (touches [pk event]) (rows w) (rows w1)
  /\ next_pk w1 = next_pk w /\ pk event1 = pk event.
Proof.
  intros w event w1 event1 raised H. unfold mark_processing in H.
  apply save_touches in H; [exact H | intro E; discriminate E].
Qed.

Lemma mark_processed_touches : forall w event w1 event1 raised,
  mark_processed clock w event = (w1, event1, raised) ->
  Forall2 (touches [pk event]) (rows w) (rows w1)
  /\ next_pk w1 = next_pk w /\ pk event1 = pk event.
Proof.
  intros w event w1 event1 raised H. unfold mark_processed, now in H.
  apply save_touches in H; [exact H | intro E; simpl; discriminate].
Qed.

Lemma mark_failed_touches : forall w event message w1 event1 raised,
  mark_failed clock w event message = (w1, event1, raised) ->
  Forall2 (touches [pk event]) (rows w) (rows w1)
  /\ next_pk w1 = next_pk w /\ pk event1 = pk event.
Proof.
  intros w event message w1 event1 raised H. unfold mark_failed in H.
  apply save_touches in H; [exact H | intro E; discriminate E].
Qed.

Lemma on_exception_touches : forall w event log e,
  Forall2 (touches [pk event]) (rows w)
    (rows (run_world (on_exception clock signals w event log e)))
  /\ next_pk (run_world (on_exception clock signals w event log e))
     = next_pk w.
Proof.
  intros w event log e. unfold on_exception.
  destruct (mark_failed clock w event (exn_str e)) as [[w1 e1] raised] eqn:E.
  apply mark_failed_touches in E. destruct E as [E1 [E2 _]].
  destruct raised; [simpl; auto | ].
  destruct (send _ _); simpl; auto.
Qed.

(** The whole of [process_event], whatever it is given. *)
Lemma process_event_touches : forall w event handler,
  Forall2 (touches [pk event]) (rows w)
    (rows (run_world (process_event clock signals w event handler)))
  /\ next_pk (run_world (process_event clock signals w event handler))
     = next_pk w.
Proof.
  intros w event handler. unfold process_event.
  destruct (negb (status_eqb (status event) STATUS_PENDING));
    [simpl; split; [apply Forall2_touches_refl | reflexivity] | ].
  destruct (mark_processing clock w event) as [[w1 e1] r1] eqn:E1.
  apply mark_processing_touches in E1. destruct E1 as [T1 [N1 K1]].
  assert (Hexc : forall w' ev log e,
            Forall2 (touches [pk event]) (rows w) (rows w') ->
            next_pk w' = next_pk w -> pk ev = pk event ->
            Forall2 (touches [pk event]) (rows w)
              (rows (run_world (on_exception clock signals w' ev log e)))
            /\ next_pk (run_world (on_exception clock signals w' ev log e))
               = next_pk w).
  { intros w' ev log e T N K.
    destruct (on_exception_touches w' ev log e) as [T' N'].
    rewrite K in T'. split; [ | congruence].
    exact (Forall2_touches_trans _ _ _ _ T T'). }
  destruct r1 as [e | ]; [apply Hexc; assumption | ].
  destruct (match handler with
            | Some h => ([HandlerCalled (pk e1)], h e1)
            | None => ([], None)
            end) as [log2 r2].
  destruct r2 as [e | ]; [apply Hexc; assumption | ].
  destruct (mark_processed clock w1 e1) as [[w3 e3] r3] eqn:E3.
  apply mark_processed_touches in E3. destruct E3 as [T3 [N3 K3]].
  rewrite K1 in T3.
  assert (T13 : Forall2 (touches [pk event]) (rows w) (rows w3))
    by exact (Forall2_touches_trans _ _ _ _ T1 T3).
  assert (N13 : next_pk w3 = next_pk w) by congruence.
  assert (K13 : pk e3 = pk event) by congruence.
  destruct r3 as [e | ]; [apply Hexc; assumption | ].
  destruct (send (processed_receivers signals) _) as [e | ];
    [apply Hexc; assumption | ].
  simpl. auto.
Qed.

End Frame.

Lemma Forall2_touches_keys : forall keys xs ys,
  Forall2 (touches keys) xs ys -> map pk ys = map pk xs.
Proof.
  intros keys xs ys H. induction H as [ | x y xs ys [[Hk _] _] _ IH]; simpl.
  - reflexivity.
  - rewrite Hk, IH. reflexivity.
Qed.

(** X1. Whatever it is given - any event, stored or not, Pending or not,
    any handler, any receivers - [process_event] inserts, deletes and
    reorders no row, leaves the key counter alone, never writes a receipt
    column ([event_id], [event_type], [timestamp], [email], [message_id],
    [payload], [created_at]) of any row, leaves the rows with another key
    exactly as they were, and never clears a [processed_at] that is set. *)
Theorem process_event_changes_only_its_rows :
  forall clock signals w event handler,
    let w' := run_world (process_event clock signals w event handler) in
    map pk (rows w') = map pk (rows w)
    /\ next_pk w' = next_pk w
    /\ Forall2 (touches [pk event]) (rows w) (rows w').
Proof.
  intros clock signals w event handler w'.
  destruct (process_event_touches clock signals w event handler) as [T N].
  fold w' in T, N.
  split; [exact (Forall2_touches_keys _ _ _ T) | split; assumption].
Qed.

Section BatchFrame.

Variable clock : nat -> datetime.
Variable signals : Signals.

Lemma pending_loop_touches : forall handler events w log stats,
  Forall2 (touches (map pk events)) (rows w)
    (rows (batch_world (pending_loop clock signals handler events w log
                          stats)))
  /\ next_pk (batch_world (pending_loop clock signals handler events w log
                             stats)) = next_pk w.
Proof.
  intros handler events.
  induction events as [ | event rest IH]; intros w log stats; simpl.
  - split; [apply Forall2_touches_refl | reflexivity].
  - destruct (process_event_touches clock signals w event handler) as [T N].
    assert (T' : Forall2 (touches (pk event :: map pk rest)) (rows w)
                   (rows (run_world (process_event clock signals w event
                                       handler)))).
    { eapply Forall2_touches_more; [ | exact T].
      intros k [-> | []]. left. reflexivity. }
    destruct (run_result (process_event clock signals w event handler))
      as [[ | ] | e]; simpl; try (split; assumption).
    all: match goal with
         | |- context [pending_loop _ _ _ _ ?w1 ?l ?s] =>
             destruct (IH w1 l s) as [T2 N2]
         end;
         split; [ | congruence];
         eapply Forall2_touches_trans; [exact T' | ];
         eapply Forall2_touches_more; [ | exact T2];
         intros k Hk; right; exact Hk.
Qed.

End BatchFrame.

(** X2. Whatever it is given - any limit, type, handler and receivers, and
    also when an exception ends the batch early - [process_pending_events]
    changes only rows that share their key with a row that was Pending when
    the batch began; it inserts and deletes nothing, writes no receipt
    column and clears no [processed_at]. *)
Theorem process_pending_events_touches_pending_only :
  forall clock signals w limit type_filter handler,
    let w' := batch_world (process_pending_events clock signals limit
                             type_filter handler w) in
    exists keys,
      (forall k, In k keys ->
         exists row, In row (rows w) /\ pk row = k
                     /\ status row = STATUS_PENDING)
      /\ Forall2 (touches keys) (rows w) (rows w')
      /\ map pk (rows w') = map pk (rows w)
      /\ next_pk w' = next_pk w.
Proof.
  intros clock signals w limit type_filter handler w'.
  unfold w', process_pending_events.
  destruct (get_pending_events limit type_filter) as [q | e] eqn:Eq.
  - exists (map pk (fetch q w)).
    destruct (pending_loop_touches clock signals handler (fetch q w) w []
                (mkStats 0 0 0)) as [T N].
    split; [ | split; [exact T | split;
                        [exact (Forall2_touches_keys _ _ _ T) | exact N]]].
    intros k Hk. apply in_map_iff in Hk. destruct Hk as [row [Hpk Hin]].
    apply fetch_in in Hin. destruct Hin as [Hin Hm].
    exists row. split; [exact Hin | split; [exact Hpk | ]].
    assert (Hq : q_status q = STATUS_PENDING).
    { unfold get_pending_events in Eq.
      destruct type_filter as [t | ]; [destruct (negb (t =? "")%string) | ];
        (destruct limit as [n | ]; [destruct (negb (n =? 0)) | ];
         simpl in Eq;
         try (unfold slice in Eq; simpl in Eq; destruct (n <? 0));
         inversion Eq; reflexivity). }
    unfold matches in Hm. rewrite Hq in Hm.
    apply andb_prop in Hm. destruct Hm as [Hm _].
    apply andb_prop in Hm. destruct Hm as [Hm _].
    apply status_eqb_eq. exact Hm.
  - exists []. simpl.
    split; [intros k [] | ].
    split; [apply Forall2_touches_refl | split; reflexivity].
Qed.

Section Settling.

Variable clock : nat -> datetime.
Variable signals : Signals.

(** What [process_event] writes on a stored Pending event: one function [g]
    applied to the instance and to the rows with its key, which records
    either a success or a failure, in step with the value returned. *)
Lemma process_event_shape : forall w event handler,
  status event = STATUS_PENDING ->
  has_pk (pk event) (rows w) = true ->
  let r := process_event clock signals w event handler in
  exists g,
    run_event r = g event
    /\ rows (run_world r) = on_rows (pk event) g (rows w)
    /\ (forall row, pk (g row) = pk row)
    /\ ((run_result r = Ok true
         /\ forall row,
              status (g row) = STATUS_PROCESSED
              /\ retry_count (g row) = retry_count row
              /\ error_message (g row) = error_message row
              /\ processed_at (g row) <> None)
        \/ (run_result r <> Ok true
            /\ forall row,
                 status (g row) = STATUS_FAILED
                 /\ retry_count (g row) = retry_count event + 1)).
Proof.
  intros w event handler Hs Hpk r.
  destruct (handler_outcome handler (claimed (clock (ticks w)) event))
    as [e | ] eqn:Hh.
  - destruct (failure_recorded clock signals w event handler e Hs Hpk Hh)
      as [Hev [Hrows Hres]].
    fold r in Hev, Hrows, Hres.
    exists (fun row =>
              failed_with (exn_str e) (retry_count event + 1)
                (clock (S (ticks w))) (claimed (clock (ticks w)) row)).
    split; [exact Hev | split; [exact Hrows | split]].
    + intro row. reflexivity.
    + right. split.
      * rewrite Hres. destruct (send _ _); discriminate.
      * intro row. split; reflexivity.
  - destruct (send (processed_receivers signals)
                (mkKwargs (completed (clock (S (ticks w)))
                             (clock (S (S (ticks w))))
                             (claimed (clock (ticks w)) event)) None None))
      as [e | ] eqn:Hsend.
    + destruct (processed_receiver_failure_recorded clock signals w event
                  handler e Hs Hpk Hh Hsend) as [Hev [Hrows Hres]].
      fold r in Hev, Hrows, Hres.
      exists (fun row =>
                failed_with (exn_str e) (retry_count event + 1)
                  (clock (S (S (S (ticks w)))))
                  (completed (clock (S (ticks w))) (clock (S (S (ticks w))))
                     (claimed (clock (ticks w)) row))).
      split; [exact Hev | split; [exact Hrows | split]].
      * intro row. reflexivity.
      * right. split.
        -- rewrite Hres.
           destruct (send (failed_receivers signals) _); discriminate.
        -- intro row. split; reflexivity.
    + exists (fun row => completed (clock (S (ticks w)))
                           (clock (S (S (ticks w))))
                           (claimed (clock (ticks w)) row)).
      unfold r. rewrite process_event_stored by assumption. cbv zeta.
      unfold handler_outcome in Hh. rewrite Hh, Hsend. simpl.
      split; [reflexivity | split; [ | split]].
      * rewrite on_rows_twice by reflexivity. reflexivity.
      * intro row. reflexivity.
      * left. split; [reflexivity | ].
        intro row. repeat split. simpl. discriminate.
Qed.

End Settling.

(** X3. On a stored Pending event [process_event] always settles the event,
    whatever the handler and the receivers do and also when a receiver's
    exception leaves the call; never Pending or Processing.  When the call
    returns [True] the instance and every row with its key end Processed;
    the instance keeps its [retry_count], and no row's [retry_count] or
    [error_message] is written: a row keeps what it held, also where the
    instance was stale.  In every other case the instance and every row
    with its key end Failed with [retry_count] one more than the
    instance's: the instance's count is what is written, whatever the row
    held. *)
Theorem process_event_settles_the_event :
  forall clock signals w event handler,
    status event = STATUS_PENDING ->
    has_pk (pk event) (rows w) = true ->
    let r := process_event clock signals w event handler in
    (run_result r = Ok true
     /\ status (run_event r) = STATUS_PROCESSED
     /\ retry_count (run_event r) = retry_count event
     /\ Forall2 (fun old new =>
                   pk new = pk old
                   /\ retry_count new = retry_count old
                   /\ error_message new = error_message old
                   /\ (pk old = pk event -> status new = STATUS_PROCESSED))
          (rows w) (rows (run_world r)))
    \/ (run_result r <> Ok true
        /\ status (run_event r) = STATUS_FAILED
        /\ retry_count (run_event r) = retry_count event + 1
        /\ Forall2 (fun old new =>
                      pk new = pk old
                      /\ (pk old = pk event ->
                          status new = STATUS_FAILED
                          /\ retry_count new = retry_count event + 1))
             (rows w) (rows (run_world r))).
Proof.
  intros clock signals w event handler Hs Hpk r.
  destruct (process_event_shape clock signals w event handler Hs Hpk)
    as [g [Hev [Hrows [Hkey Hcase]]]].
  fold r in Hev, Hrows, Hcase. rewrite Hev, Hrows.
  destruct Hcase as [[Hres Hg] | [Hres Hg]].
  - left. destruct (Hg event) as [H1 [H2 _]].
    split; [exact Hres | split; [exact H1 | split; [exact H2 | ]]].
    unfold on_rows. generalize (rows w). intro rs.
    induction rs as [ | old rs IH]; simpl; constructor; [ | exact IH].
    destruct (pk old =? pk event) eqn:E.
    + destruct (Hg old) as [G1 [G2 [G3 _]]].
      split; [apply Hkey | split; [exact G2 | split; [exact G3 | ]]].
      intros _. exact G1.
    + apply Z.eqb_neq in E. repeat split. intro H. contradiction.
  - right. destruct (Hg event) as [H1 H2].
    split; [exact Hres | split; [exact H1 | split; [exact H2 | ]]].
    unfold on_rows. generalize (rows w). intro rs.
    induction rs as [ | old rs IH]; simpl; constructor; [ | exact IH].
    destruct (pk old =? pk event) eqn:E.
    + split; [apply Hkey | ]. intros _. exact (Hg old).
    + apply Z.eqb_neq in E. split; [reflexivity | ].
      intro H. contradiction.
Qed.

Lemma process_event_settles_the_event_witness :
  let stored := sample_event 1 10 STATUS_PENDING 5 in
  let stale := sample_event 1 10 STATUS_PENDING 0 in
  let w := mkWorld [stored] 2 0 in
  let r := process_event sample_clock no_receivers w stale
             (Some always_raises) in
  run_result r <> Ok true
  /\ status (run_event r) = STATUS_FAILED
  /\ retry_count (run_event r) = 1
  /\ map status (rows (run_world r)) = [STATUS_FAILED]
  /\ map retry_count (rows w) = [5]
  /\ map retry_count (rows (run_world r)) = [1].
Proof.
  intros stored stale w r.
  destruct (process_event_settles_the_event sample_clock no_receivers w stale
              (Some always_raises) eq_refl eq_refl) as [Hcase | Hcase];
    fold r in Hcase.
  - exfalso. destruct Hcase as [Hres _]. vm_compute in Hres.
    discriminate Hres.
  - destruct Hcase as [Hres [Hst [Hrc Hrows]]].
    split; [exact Hres | split; [exact Hst | split; [exact Hrc | ]]].
    split; [vm_compute; reflexivity | ].
    split; [reflexivity | vm_compute; reflexivity].
Defined.

(** X4. A Pending instance whose row is no longer in the table:
    [process_event] lets the [DatabaseError] of the failed save out (the
    [except] branch tries [mark_failed], whose save fails the same way);
    no row is changed, the handler is not called and no signal is sent. *)
Theorem process_event_on_deleted_row :
  forall clock signals w event handler,
    status event = STATUS_PENDING ->
    has_pk (pk event) (rows w) = false ->
    let r := process_event clock signals w event handler in
    (exists e, run_result r = Raise e /\ exn_cls e = DatabaseError)
    /\ rows (run_world r) = rows w
    /\ run_log r = [].
Proof.
  intros clock signals w event handler Hs Hpk r.
  unfold r, process_event. rewrite Hs. simpl negb. cbv iota.
  unfold mark_processing.
  destruct (save_missing clock [F_status; F_updated_at] w
              (set_status STATUS_PROCESSING event) eq_refl Hpk)
    as [e [Hsave _]].
  rewrite Hsave. unfold on_exception, mark_failed.
  match goal with
  | |- context [save clock ?fs ?w1 ?self] =>
      destruct (save_missing clock fs w1 self eq_refl Hpk)
        as [e' [Hsave' Hcls]];
      rewrite Hsave'
  end.
  simpl. split; [exists e'; auto | auto].
Qed.

Lemma process_event_on_deleted_row_witness :
  let event := sample_event 7 10 STATUS_PENDING 0 in
  let w := mkWorld [sample_event 1 10 STATUS_PENDING 0] 2 0 in
  let r := process_event sample_clock no_receivers w event
             (Some returns_quietly) in
  (exists e, run_result r = Raise e /\ exn_cls e = DatabaseError)
  /\ rows (run_world r) = rows w
  /\ run_log r = [].
Proof.
  intros event w r.
  exact (process_event_on_deleted_row sample_clock no_receivers w event
           (Some returns_quietly) eq_refl eq_refl).
Defined.

(** ** Draining the queue *)

(** With no Pending row, a pending query yields nothing. *)
Lemma fetch_nothing_pending : forall type_filter high w,
  Forall (fun row => status row <> STATUS_PENDING) (rows w) ->
  fetch (mkQuery STATUS_PENDING type_filter None high) w = [].
Proof.
  intros type_filter high w H. unfold fetch. simpl.
  assert (E : filter (matches (mkQuery STATUS_PENDING type_filter None high))
                (rows w) = []).
  { induction (rows w) as [ | row rs IH]; simpl; [reflexivity | ].
    inversion H as [ | ? ? Hrow Hrest]; subst.
    unfold matches at 1. simpl.
    destruct (status_eqb (status row) STATUS_PENDING) eqn:E.
    - apply status_eqb_eq in E. contradiction.
    - simpl. apply IH. exact Hrest. }
  rewrite E. simpl. destruct high; [apply firstn_nil | reflexivity].
Qed.

Section Draining.

Variable clock : nat -> datetime.
Variable signals : Signals.
Hypothesis failed_receivers_return :
  forall named, send (failed_receivers signals) named = None.

(** The loop, given every Pending row of the table, leaves none Pending. *)
Lemma pending_loop_drains : forall handler events w log stats,
  Forall (fun e => status e = STATUS_PENDING
                   /\ has_pk (pk e) (rows w) = true) events ->
  (forall row, In row (rows w) -> status row = STATUS_PENDING ->
               In (pk row) (map pk events)) ->
  Forall (fun row => status row <> STATUS_PENDING)
    (rows (batch_world (pending_loop clock signals handler events w log
                          stats))).
Proof.
  intros handler events.
  induction events as [ | event rest IH]; intros w log stats Hall Hcover.
  - simpl. apply Forall_forall. intros row Hin Hp.
    exact (Hcover row Hin Hp).
  - inversion Hall as [ | ? ? [Hs Hpk] Hrest]; subst.
    destruct (process_event_returns clock signals failed_receivers_return
                w event handler Hs Hpk) as [[b Hb] [Hkeys _]].
    destruct (process_event_shape clock signals w event handler Hs Hpk)
      as [g [_ [Hrows [Hkey Hcase]]]].
    set (r := process_event clock signals w event handler) in *.
    assert (Hg : forall row, status (g row) <> STATUS_PENDING).
    { intro row. destruct Hcase as [[_ H] | [_ H]];
        destruct (H row) as [-> _]; discriminate. }
    assert (Hrest' : Forall (fun e => status e = STATUS_PENDING
                     /\ has_pk (pk e) (rows (run_world r)) = true) rest).
    { eapply Forall_impl; [ | exact Hrest].
      intros a [Ha Hb']. split; [exact Ha | ].
      rewrite (has_pk_keys _ _ _ Hkeys). exact Hb'. }
    assert (Hcover' : forall row, In row (rows (run_world r)) ->
              status row = STATUS_PENDING -> In (pk row) (map pk rest)).
    { intros row Hin Hp. rewrite Hrows in Hin.
      destruct (Z.eq_dec (pk row) (pk event)) as [E | E].
      - apply in_on_rows in Hin; [ | exact Hkey | exact E].
        destruct Hin as [old [_ [_ ->]]]. exfalso. exact (Hg old Hp).
      - apply on_rows_other in Hin; [ | exact Hkey | exact E].
        destruct (Hcover row Hin Hp) as [E' | Hin']; [ | exact Hin'].
        exfalso. apply E. symmetry. exact E'. }
    simpl pending_loop. fold r. rewrite Hb.
    destruct b; apply IH; assumption.
Qed.

End Draining.

(** X5. With "failed" receivers that return, a run of
    [process_pending_events] without limit and without type leaves no row
    Pending, whatever the handler does; so a second run right after it, with
    any handler and any filter, takes no event: it returns all-zero stats,
    calls nothing and changes nothing. *)
Theorem process_pending_events_drains_the_queue :
  forall clock signals w limit type_filter handler,
    (forall named, send (failed_receivers signals) named = None) ->
    given_limit limit = None ->
    given_type type_filter = None ->
    let r := process_pending_events clock signals limit type_filter
               handler w in
    Forall (fun row => status row <> STATUS_PENDING) (rows (batch_world r))
    /\ forall limit' type' handler',
         (forall n, limit' = Some n -> 0 <= n) ->
         process_pending_events clock signals limit' type' handler'
           (batch_world r)
         = mkBatch (batch_world r) [] (Ok (mkStats 0 0 0)).
Proof.
  intros clock signals w limit type_filter handler Hquiet Hl Ht r.
  assert (Hlim : forall n, limit = Some n -> 0 <= n).
  { intros n ->. simpl in Hl. destruct (n =? 0) eqn:E; [ | discriminate Hl].
    apply Z.eqb_eq in E. lia. }
  assert (Hr : r = pending_loop clock signals handler
                     (fetch (mkQuery STATUS_PENDING None None None) w) w []
                     (mkStats 0 0 0)).
  { unfold r, process_pending_events.
    rewrite (get_pending_events_query limit type_filter Hlim), Hl, Ht.
    reflexivity. }
  assert (Hdrained : Forall (fun row => status row <> STATUS_PENDING)
                       (rows (batch_world r))).
  { rewrite Hr. apply pending_loop_drains; [exact Hquiet | | ].
    - apply Forall_forall. intros e He. apply fetch_in in He.
      destruct He as [Hin Hm]. unfold matches in Hm. simpl in Hm.
      rewrite !andb_true_r in Hm.
      split; [apply status_eqb_eq; exact Hm | apply has_pk_in; exact Hin].
    - intros row Hin Hp.
      apply in_map.
      apply (Permutation_in _
               (Permutation_sym
                  (fetch_unsliced (mkQuery STATUS_PENDING None None None) w
                     eq_refl))).
      apply filter_In. split; [exact Hin | ].
      unfold matches. simpl. rewrite Hp. reflexivity. }
  split; [exact Hdrained | ].
  intros limit' type' handler' Hlim'.
  unfold process_pending_events.
  rewrite (get_pending_events_query limit' type' Hlim').
  rewrite (fetch_nothing_pending _ _ _ Hdrained). reflexivity.
Qed.

Lemma process_pending_events_drains_the_queue_witness :
  let w := mkWorld [sample_event 1 10 STATUS_PENDING 0;
                    sample_event 2 20 STATUS_PENDING 0;
                    sample_event 3 30 STATUS_FAILED 1] 4 0 in
  let r := process_pending_events sample_clock no_receivers None None
             (Some fails_on_second) w in
  map status (rows (batch_world r))
    = [STATUS_PROCESSED; STATUS_FAILED; STATUS_FAILED]
  /\ process_pending_events sample_clock no_receivers (Some 5)
       (Some "email.sent") (Some always_raises) (batch_world r)
     = mkBatch (batch_world r) [] (Ok (mkStats 0 0 0)).
Proof.
  intros w r.
  split; [vm_compute; reflexivity | ].
  destruct (process_pending_events_drains_the_queue sample_clock
              no_receivers w None None (Some fails_on_second)
              (fun _ => eq_refl) eq_refl eq_refl) as [_ H].
  apply H. intros n E. inversion E. lia.
Defined.

(** ** Retrying, further *)

Lemma retry_failed_events_negative : forall clock signals n max_retries w,
  n < 0 ->
  retry_failed_events clock signals (Some n) max_retries w
    = mkBatch w []
        (Raise (mkExn ValueError "Negative indexing is not supported.")).
Proof.
  intros clock signals n max_retries w Hn. unfold retry_failed_events.
  destruct (n =? 0) eqn:E0; [apply Z.eqb_eq in E0; lia | ].
  simpl negb. cbv iota. unfold slice.
  destruct (n <? 0) eqn:E1; [reflexivity | apply Z.ltb_ge in E1; lia].
Qed.

(** X6. Whatever the limit and the bound, [retry_failed_events] inserts and
    deletes no row, and a row it changes was Failed with [retry_count]
    below [max_retries] and differs from before in its status only, which
    is now Pending: an event at or above the bound, or not Failed, is left
    exactly as it was, and [retry_count], [error_message], [updated_at] and
    [processed_at] of a reset event are not touched. *)
Theorem retry_failed_events_resets_below_the_bound_only :
  forall clock signals limit max_retries w,
    let w' := batch_world (retry_failed_events clock signals limit
                             max_retries w) in
    Forall2 (fun old new =>
               new = old
               \/ (status old = STATUS_FAILED
                   /\ retry_count old < max_retries
                   /\ new = set_status STATUS_PENDING old))
      (rows w) (rows w')
    /\ next_pk w' = next_pk w.
Proof.
  intros clock signals limit max_retries w w'.
  assert (Hsame : forall rs : list ResendWebhookEvent,
            Forall2 (fun old new =>
                       new = old
                       \/ (status old = STATUS_FAILED
                           /\ retry_count old < max_retries
                           /\ new = set_status STATUS_PENDING old)) rs rs).
  { induction rs; constructor; auto. }
  destruct (given_limit limit) as [n | ] eqn:E.
  - assert (Hn : limit = Some n /\ n <> 0).
    { destruct limit as [m | ]; [ | discriminate E]. simpl in E.
      destruct (m =? 0) eqn:E0; [discriminate E | ].
      inversion E. subst. apply Z.eqb_neq in E0. auto. }
    destruct Hn as [-> Hn0]. unfold w'.
    destruct (Z.lt_trichotomy n 0) as [Hlt | [Hz | Hgt]];
      [ | contradiction | ].
    + rewrite retry_failed_events_negative by exact Hlt. simpl. auto.
    + rewrite retry_failed_events_sliced by exact Hgt. simpl. auto.
  - unfold w'. rewrite retry_failed_events_unsliced by exact E.
    cbv zeta. simpl. split; [ | reflexivity].
    induction (rows w) as [ | row rs IH]; simpl; constructor; [ | exact IH].
    destruct (matches _ row) eqn:Hm; [right | left; reflexivity].
    unfold matches in Hm. simpl in Hm. rewrite andb_true_r in Hm.
    apply andb_prop in Hm. destruct Hm as [Hst Hrc].
    split; [apply status_eqb_eq; exact Hst | ].
    split; [apply Z.ltb_lt; exact Hrc | reflexivity].
Qed.

(** X7. What [retry_failed_events] resets is taken by the next pending run:
    after a call without limit, a run of [process_pending_events] without
    limit and type ("failed" receivers returning) calls the handler on
    every event that was Failed below the bound. *)
Theorem retried_events_go_through_the_pending_run :
  forall clock signals w limit max_retries h row,
    (forall named, send (failed_receivers signals) named = None) ->
    given_limit limit = None ->
    In row (rows w) ->
    status row = STATUS_FAILED ->
    retry_count row < max_retries ->
    let w1 := batch_world (retry_failed_events clock signals limit
                             max_retries w) in
    let r := process_pending_events clock signals None None (Some h) w1 in
    In (set_status STATUS_PENDING row) (rows w1)
    /\ In (pk row) (handled (batch_log r)).
Proof.
  intros clock signals w limit max_retries h row Hquiet Hl Hin Hst Hrc w1 r.
  assert (Hreset : In (set_status STATUS_PENDING row) (rows w1)).
  { unfold w1. rewrite retry_failed_events_unsliced by exact Hl.
    cbv zeta. simpl. apply in_map_iff. exists row. split; [ | exact Hin].
    unfold matches. simpl. rewrite Hst. simpl.
    destruct (retry_count row <? max_retries) eqn:E; [reflexivity | ].
    apply Z.ltb_ge in E. lia. }
  split; [exact Hreset | ].
  set (selected := fetch (mkQuery STATUS_PENDING None None None) w1).
  assert (Hsel : In (set_status STATUS_PENDING row) selected).
  { apply (Permutation_in _
             (Permutation_sym
                (fetch_unsliced (mkQuery STATUS_PENDING None None None) w1
                   eq_refl))).
    apply filter_In. split; [exact Hreset | reflexivity]. }
  assert (Hall : Forall (fun e => status e = STATUS_PENDING
                           /\ has_pk (pk e) (rows w1) = true) selected).
  { apply Forall_forall. intros e He. apply fetch_in in He.
    destruct He as [Hine Hm]. unfold matches in Hm. simpl in Hm.
    rewrite !andb_true_r in Hm.
    split; [apply status_eqb_eq; exact Hm | apply has_pk_in; exact Hine]. }
  destruct (pending_loop_runs_all clock signals Hquiet (Some h) selected w1
              [] (mkStats 0 0 0) Hall) as [final [_ [_ [_ Hlog]]]].
  unfold r, process_pending_events. simpl get_pending_events. cbv iota beta.
  fold selected. rewrite Hlog. simpl.
  change (pk row) with (pk (set_status STATUS_PENDING row)).
  apply in_map. exact Hsel.
Qed.

Lemma retried_events_go_through_the_pending_run_witness :
  let row := sample_event 1 10 STATUS_FAILED 2 in
  let w := mkWorld [row; sample_event 2 20 STATUS_FAILED 3] 3 0 in
  let w1 := batch_world (retry_failed_events sample_clock no_receivers None
                           3 w) in
  let r := process_pending_events sample_clock no_receivers None None
             (Some returns_quietly) w1 in
  In (set_status STATUS_PENDING row) (rows w1)
  /\ In (pk row) (handled (batch_log r)).
Proof.
  intros row w w1 r.
  apply (retried_events_go_through_the_pending_run sample_clock no_receivers
           w None 3 returns_quietly row (fun _ => eq_refl) eq_refl).
  - left. reflexivity.
  - reflexivity.
  - simpl. lia.
Defined.

(** X8. A negative limit is refused before anything is done: both batch
    functions end with the exception of the slice, call nothing and leave
    the world as it was - [retry_failed_events] in particular resets no
    event. *)
Theorem negative_limit_is_refused :
  forall clock signals n type_filter handler max_retries w,
    n < 0 ->
    (exists e,
       process_pending_events clock signals (Some n) type_filter handler w
         = mkBatch w [] (Raise e))
    /\ (exists e,
          retry_failed_events clock signals (Some n) max_retries w
            = mkBatch w [] (Raise e)).
Proof.
  intros clock signals n type_filter handler max_retries w Hn.
  split;
    [ | eexists; apply retry_failed_events_negative; exact Hn].
  unfold process_pending_events, get_pending_events.
  destruct (n =? 0) eqn:E0; [apply Z.eqb_eq in E0; lia | ].
  simpl negb. cbv iota. unfold slice.
  destruct (n <? 0) eqn:E1; [ | apply Z.ltb_ge in E1; lia].
  eexists. reflexivity.
Qed.

Lemma negative_limit_is_refused_witness :
  let w := mkWorld [sample_event 1 10 STATUS_FAILED 0] 2 0 in
  (exists e,
     process_pending_events sample_clock no_receivers (Some (-1)) None None w
       = mkBatch w [] (Raise e))
  /\ (exists e,
        retry_failed_events sample_clock no_receivers (Some (-1)) 3 w
          = mkBatch w [] (Raise e)).
Proof.
  intro w.
  apply (negative_limit_is_refused sample_clock no_receivers (-1) None None
           3 w).
  lia.
Defined.

(** ** The receiver and the table *)

Section ReceiverTable.

Variable clock : nat -> datetime.
Variable lib : Library.
Variable signals : Signals.

(** Every request either leaves the table and the key counter alone and
    sends nothing, or appends one row built from the values read. *)
Lemma receive_outcomes : forall data w,
  let r := receive clock lib signals data w in
  (rows (view_world r) = rows w
   /\ next_pk (view_world r) = next_pk w
   /\ view_log r = [])
  \/ (exists w1 x,
        extract clock lib data w = (w1, inr x)
        /\ find_event (char_field lib (x_id x)) (rows w) = None
        /\ char_field lib (x_type x) <> JNull
        /\ rows (view_world r)
           = rows w ++ [mkEvent (next_pk w) (char_field lib (x_id x))
                          (char_field lib (x_type x)) (x_timestamp x)
                          (char_field lib (x_email x))
                          (char_field lib (x_message_id x)) data
                          STATUS_PENDING (clock (ticks w1))
                          (clock (S (ticks w1))) None "" 0]
        /\ next_pk (view_world r) = next_pk w + 1
        /\ view_log r = [SignalSent webhook_event_received (next_pk w)]).
Proof.
  intros data w r. unfold r, receive.
  destruct (extract clock lib data w) as [w1 [early | x]] eqn:Hx.
  - left. apply extract_rows in Hx. destruct Hx as [Hr Hn]. simpl. auto.
  - pose proof (extract_rows _ _ _ _ _ _ Hx) as [Hr Hn].
    unfold store_and_notify, get_or_create.
    destruct (find_event (char_field lib (x_id x)) (rows w1)) eqn:Hf.
    + left. simpl. auto.
    + simpl.
      destruct (char_field lib (x_type x)) eqn:Hty;
        [left; simpl; auto | .. ];
        right; exists w1, x;
        (split; [reflexivity | ]);
        (split; [rewrite <- Hr; exact Hf | ]);
        (split; [rewrite Hty; discriminate | ]);
        rewrite Hty;
        destruct (send (received_receivers signals) _); simpl;
        rewrite Hr, Hn; auto.
Qed.

End ReceiverTable.

(** X9. Whatever the request - any method, any body, any payload, any
    receivers - the receiver changes or removes no stored row: afterwards
    the table is the one before, or the one before with a single row
    appended.  A row it appends is Pending, with [retry_count] 0, an empty
    [error_message], no [processed_at], the whole payload kept, and a key
    that was not in use; the "received" signal is sent once for it and
    never otherwise. *)
Theorem receiver_only_appends :
  forall clock lib signals request w,
    let r := resend_webhook_view clock lib signals request w in
    (rows (view_world r) = rows w
     /\ next_pk (view_world r) = next_pk w
     /\ view_log r = [])
    \/ (exists row data,
          body request = Parsed data
          /\ rows (view_world r) = rows w ++ [row]
          /\ pk row = next_pk w
          /\ next_pk (view_world r) = next_pk w + 1
          /\ payload row = data
          /\ status row = STATUS_PENDING
          /\ retry_count row = 0
          /\ error_message row = ""%string
          /\ processed_at row = None
          /\ view_log r = [SignalSent webhook_event_received (pk row)]).
Proof.
  intros clock lib signals request w r. unfold r, resend_webhook_view.
  destruct (negb (method request =? "POST")%string); [left; simpl; auto | ].
  destruct (body request) as [ | e | data] eqn:Hb;
    try (left; simpl; auto; fail).
  destruct (receive_outcomes clock lib signals data w)
    as [H | [w1 [x [_ [_ [_ [Hrows [Hn Hlog]]]]]]]].
  - left. exact H.
  - right. eexists. exists data.
    split; [reflexivity | ].
    split; [exact Hrows | ].
    repeat split; assumption.
Qed.

Lemma find_event_none_not_in : forall id rs,
  find_event id rs = None -> ~ In id (map event_id rs).
Proof.
  intros id rs. induction rs as [ | row rs IH]; simpl; intros H Hin.
  - exact Hin.
  - destruct (json_eqb (event_id row) id) eqn:E; [discriminate H | ].
    destruct Hin as [Heq | Hin]; [ | exact (IH H Hin)].
    rewrite Heq, json_eqb_refl in E. discriminate E.
Qed.

Lemma NoDup_app_one : forall (A : Type) (xs : list A) (x : A),
  NoDup xs -> ~ In x xs -> NoDup (xs ++ [x]).
Proof.
  intros A xs x Hnd Hx. induction Hnd as [ | y ys Hy Hnd IH]; simpl.
  - constructor; [intros [] | constructor].
  - constructor.
    + intro Hin. apply in_app_or in Hin. destruct Hin as [Hin | [Heq | []]].
      * exact (Hy Hin).
      * apply Hx. left. symmetry. exact Heq.
    + apply IH. intro Hin. apply Hx. right. exact Hin.
Qed.

Lemma Forall2_touches_event_ids : forall keys xs ys,
  Forall2 (touches keys) xs ys -> map event_id ys = map event_id xs.
Proof.
  intros keys xs ys H.
  induction H as [ | x y xs ys [[_ [Hid _]] _] _ IH]; simpl.
  - reflexivity.
  - rewrite Hid, IH. reflexivity.
Qed.

(** A table with the same keys, ids and key counter is as well-formed. *)
Lemma table_ok_same_keys : forall w w',
  map pk (rows w') = map pk (rows w) ->
  map event_id (rows w') = map event_id (rows w) ->
  next_pk w' = next_pk w ->
  table_ok w -> table_ok w'.
Proof.
  intros w w' Hk Hid Hn [H1 [H2 H3]]. unfold table_ok.
  rewrite Hk, Hid, Hn. split; [exact H1 | split; [exact H2 | ]].
  apply Forall_forall. intros row Hin.
  assert (Hpk : In (pk row) (map pk (rows w)))
    by (rewrite <- Hk; apply in_map; exact Hin).
  apply in_map_iff in Hpk. destruct Hpk as [old [Heq Hold]].
  rewrite <- Heq. rewrite Forall_forall in H3. exact (H3 old Hold).
Qed.

(** X10. The receiver keeps the table well-formed: if no two rows share an
    [event_id] or a key and the key counter is above every key, the same
    holds after any request.  The uniqueness of [event_id] that the
    duplicate check relies on is thus kept by the receiver itself. *)
Theorem receiver_keeps_table_ok :
  forall clock lib signals request w,
    table_ok w ->
    table_ok (view_world (resend_webhook_view clock lib signals request w)).
Proof.
  intros clock lib signals request w Hok. unfold resend_webhook_view.
  destruct (negb (method request =? "POST")%string); [exact Hok | ].
  destruct (body request) as [ | e | data]; try exact Hok.
  destruct (receive_outcomes clock lib signals data w)
    as [[Hr [Hn _]] | [w1 [x [_ [Hnone [_ [Hrows [Hn _]]]]]]]].
  - apply (table_ok_same_keys w); try assumption; rewrite Hr; reflexivity.
  - destruct Hok as [H1 [H2 H3]]. unfold table_ok.
    rewrite Hrows, Hn, !map_app. simpl.
    split; [ | split].
    + apply NoDup_app_one; [exact H1 | ].
      apply find_event_none_not_in. exact Hnone.
    + apply NoDup_app_one; [exact H2 | ].
      intro Hin. apply in_map_iff in Hin. destruct Hin as [row [Heq Hin]].
      rewrite Forall_forall in H3. specialize (H3 row Hin).
      simpl in H3, Heq. rewrite Heq in H3. exact (Z.lt_irrefl _ H3).
    + apply Forall_app. split.
      * eapply Forall_impl; [ | exact H3]. intros row Hrow. simpl in Hrow. lia.
      * constructor; [simpl; lia | constructor].
Qed.

Lemma receiver_keeps_table_ok_witness :
  let data := JObj [("id", JStr "evt_2"); ("type", JStr "email.sent")] in
  let w := mkWorld [sample_event 1 10 STATUS_PENDING 0] 2 0 in
  table_ok (view_world (resend_webhook_view sample_clock sample_lib
                          no_receivers (post data) w))
  /\ List.length (rows (view_world (resend_webhook_view sample_clock
                                      sample_lib no_receivers (post data)
                                      w))) = 2%nat.
Proof.
  intros data w. split; [ | vm_compute; reflexivity].
  apply receiver_keeps_table_ok.
  unfold table_ok, w. simpl.
  split; [ | split].
  - constructor; [intros [] | constructor].
  - constructor; [intros [] | constructor].
  - constructor; [reflexivity | constructor].
Defined.

(** X11. The engine keeps the table well-formed too: [process_event],
    [process_pending_events] and [retry_failed_events] never change a key,
    an [event_id] or the key counter, so a well-formed table stays
    well-formed through any of them, whatever they are given. *)
Theorem engine_keeps_table_ok :
  forall clock signals w,
    table_ok w ->
    (forall event handler,
       table_ok (run_world (process_event clock signals w event handler)))
    /\ (forall limit type_filter handler,
          table_ok (batch_world (process_pending_events clock signals limit
                                   type_filter handler w)))
    /\ (forall limit max_retries,
          table_ok (batch_world (retry_failed_events clock signals limit
                                   max_retries w))).
Proof.
  intros clock signals w Hok. split; [ | split].
  - intros event handler.
    destruct (process_event_touches clock signals w event handler) as [T N].
    apply (table_ok_same_keys w); try assumption.
    + exact (Forall2_touches_keys _ _ _ T).
    + exact (Forall2_touches_event_ids _ _ _ T).
  - intros limit type_filter handler. unfold process_pending_events.
    destruct (get_pending_events limit type_filter) as [q | e];
      [ | exact Hok].
    destruct (pending_loop_touches clock signals handler (fetch q w) w []
                (mkStats 0 0 0)) as [T N].
    apply (table_ok_same_keys w); try assumption.
    + exact (Forall2_touches_keys _ _ _ T).
    + exact (Forall2_touches_event_ids _ _ _ T).
  - intros limit max_retries.
    destruct (given_limit limit) as [n | ] eqn:E.
    + assert (Hn : limit = Some n /\ n <> 0).
      { destruct limit as [m | ]; [ | discriminate E]. simpl in E.
        destruct (m =? 0) eqn:E0; [discriminate E | ].
        inversion E. subst. apply Z.eqb_neq in E0. auto. }
      destruct Hn as [-> Hn0].
      destruct (Z.lt_trichotomy n 0) as [Hlt | [Hz | Hgt]];
        [ | contradiction | ].
      * rewrite retry_failed_events_negative by exact Hlt. exact Hok.
      * rewrite retry_failed_events_sliced by exact Hgt. exact Hok.
    + rewrite retry_failed_events_unsliced by exact E. cbv zeta.
      apply (table_ok_same_keys w); try assumption; try reflexivity;
        simpl; rewrite map_map; apply map_ext; intro row;
        destruct (matches _ row); reflexivity.
Qed.

Lemma engine_keeps_table_ok_witness :
  let w := mkWorld [sample_event 1 10 STATUS_PENDING 0] 2 0 in
  table_ok (batch_world (process_pending_events sample_clock no_receivers
                           None None (Some always_raises) w)).
Proof.
  intro w.
  refine (proj1 (proj2 (engine_keeps_table_ok sample_clock no_receivers w _))
            None None (Some always_raises)).
  unfold table_ok, w. simpl.
  split; [ | split].
  - constructor; [intros [] | constructor].
  - constructor; [intros [] | constructor].
  - constructor; [reflexivity | constructor].
Defined.

(** ** What a stored row holds *)

Section Stored.

Variable clock : nat -> datetime.
Variable lib : Library.
Variable signals : Signals.

(** The values read from a payload that got through lines 41-73, member by
    member. *)
Lemma extract_read : forall data w w1 x,
  extract clock lib data w = (w1, inr x) ->
  exists members,
    data = JObj members
    /\ x_id x = member "id" members JNull
    /\ x_type x = member "type" members (JStr "")
    /\ parse_timestamp clock lib
         (py_or (member "created_at" members JNull)
                (member "timestamp" members JNull)) w
       = (w1, Ok (x_timestamp x))
    /\ read_email (member "data" members (JObj [])) = Ok (x_email x)
    /\ read_message_id (member "data" members (JObj []))
       = Ok (x_message_id x).
Proof.
  intros data w w1 x H.
  destruct data as [ | b | n | s | items | members];
    try (unfold extract in H; simpl in H; discriminate H).
  exists members. split; [reflexivity | ].
  unfold extract in H.
  rewrite read_head_object, read_timestamp_str_object in H.
  destruct (negb (truthy (member "id" members JNull)));
    [discriminate H | ].
  destruct (parse_timestamp clock lib _ w) as [w' parsed] eqn:Hp.
  destruct parsed as [ts | e]; [ | discriminate H].
  destruct (read_email _) as [mail | e] eqn:Hm; [ | discriminate H].
  destruct (read_message_id _) as [mid | e] eqn:Hi; [ | discriminate H].
  inversion H. subst. simpl. auto.
Qed.

(** A request that stored a row: the row, written out, and the values it
    was built from. *)
Lemma stored_row : forall data w,
  rows (view_world (resend_webhook_view clock lib signals (post data) w))
    <> rows w ->
  exists w1 x,
    extract clock lib data w = (w1, inr x)
    /\ rows (view_world (resend_webhook_view clock lib signals (post data)
                           w))
       = rows w ++ [mkEvent (next_pk w) (char_field lib (x_id x))
                      (char_field lib (x_type x)) (x_timestamp x)
                      (char_field lib (x_email x))
                      (char_field lib (x_message_id x)) data
                      STATUS_PENDING (clock (ticks w1))
                      (clock (S (ticks w1))) None "" 0].
Proof.
  intros data w H. rewrite view_post in *.
  destruct (receive_outcomes clock lib signals data w)
    as [[Hr _] | [w1 [x [Hx [_ [_ [Hrows _]]]]]]].
  - contradiction.
  - exists w1, x. auto.
Qed.

End Stored.

(** X12. Round trip between the receiver and the model's accessors: for a
    row the receiver has just stored, [payload] is the payload received,
    and the columns are what the accessors give back from it -
    [event_type] is the text of [get_payload_type()], [event_id] the text
    of the payload's [id], and [email] and [message_id] are the values the
    fallback chains find in [get_payload_data()]. *)
Theorem stored_columns_come_from_the_payload :
  forall clock lib signals data w,
    let r := resend_webhook_view clock lib signals (post data) w in
    rows (view_world r) <> rows w ->
    exists row,
      rows (view_world r) = rows w ++ [row]
      /\ payload row = data
      /\ (exists id, get (payload row) "id" JNull = Ok id
                     /\ event_id row = char_field lib id)
      /\ (exists type, get_payload_type row = Ok type
                       /\ event_type row = char_field lib type)
      /\ (exists event_data mail mid,
            get_payload_data row = Ok event_data
            /\ read_email event_data = Ok mail
            /\ email row = char_field lib mail
            /\ read_message_id event_data = Ok mid
            /\ message_id row = char_field lib mid).
Proof.
  intros clock lib signals data w r Hcreated.
  destruct (stored_row clock lib signals data w Hcreated)
    as [w1 [x [Hx Hrows]]].
  destruct (extract_read clock lib data w w1 x Hx)
    as [members [Hd [Hid [Hty [_ [Hmail Hmid]]]]]].
  eexists. split; [exact Hrows | ].
  unfold get_payload_type, get_payload_data. simpl. subst data. simpl.
  split; [reflexivity | ].
  split; [exists (x_id x); rewrite Hid; auto | ].
  split; [exists (x_type x); rewrite Hty; auto | ].
  exists (member "data" members (JObj [])), (x_email x), (x_message_id x).
  auto.
Qed.

Lemma stored_columns_come_from_the_payload_witness :
  let data := JObj [("id", JStr "evt_1"); ("type", JStr "email.bounced");
                    ("data", JObj [("email", JStr "a@x.com");
                                   ("email_id", JStr "m_1")])] in
  let r := resend_webhook_view sample_clock sample_lib no_receivers
             (post data) empty_world in
  exists row,
    rows (view_world r) = [row]
    /\ payload row = data
    /\ get_payload_type row = Ok (JStr "email.bounced")
    /\ event_type row = JStr "email.bounced"
    /\ email row = JStr "a@x.com"
    /\ message_id row = JStr "m_1".
Proof.
  intros data r.
  assert (A : rows (view_world r) <> rows empty_world)
    by (vm_compute; discriminate).
  destruct (stored_columns_come_from_the_payload sample_clock sample_lib
              no_receivers data empty_world A)
    as [row [Hrows [Hp _]]].
  exists row. split; [exact Hrows | split; [exact Hp | ]].
  fold r in Hrows. vm_compute in Hrows. inversion Hrows. subst row.
  vm_compute. repeat split.
Defined.

(** X13. Which address is stored, for a row the receiver has just stored
    from a payload whose [data] is an object: if [data.to] is a non-empty
    list, its first element, whatever [email] and [recipient] hold; if
    [data.to] is absent or false (also [[]] and ['']) and [data.email] is a
    non-empty text, that text; if [to], [email] and [recipient] are all
    absent, null. *)
Theorem stored_email_follows_the_priority :
  forall clock lib signals members fields w,
    let r := resend_webhook_view clock lib signals (post (JObj members)) w in
    rows (view_world r) <> rows w ->
    member "data" members (JObj []) = JObj fields ->
    exists row,
      rows (view_world r) = rows w ++ [row]
      /\ (forall first others,
            member "to" fields JNull = JArr (first :: others) ->
            email row = char_field lib first)
      /\ (forall s,
            truthy (member "to" fields JNull) = false ->
            member "email" fields JNull = JStr s -> s <> ""%string ->
            email row = JStr s)
      /\ (assoc "to" fields = None -> assoc "email" fields = None ->
          assoc "recipient" fields = None ->
          email row = JNull).
Proof.
  intros clock lib signals members fields w r Hcreated Hdata.
  destruct (stored_row clock lib signals (JObj members) w Hcreated)
    as [w1 [x [Hx Hrows]]].
  destruct (extract_read clock lib (JObj members) w w1 x Hx)
    as [members' [Hd [_ [_ [_ [Hmail _]]]]]].
  inversion Hd. subst members'. clear Hd.
  rewrite Hdata in Hmail. unfold read_email in Hmail.
  cbn [get bind] in Hmail.
  inversion Hmail as [Hm]. clear Hmail.
  eexists. split; [exact Hrows | ]. cbn [email]. rewrite <- Hm.
  split; [ | split].
  - intros first others Hto. rewrite Hto. reflexivity.
  - intros s Hto Hem Hs. unfold py_or. rewrite Hto, Hem.
    assert (Ht : truthy (JStr s) = true).
    { simpl. destruct (String.eqb_spec s ""); [contradiction | reflexivity]. }
    rewrite Ht. reflexivity.
  - intros Hto Hem Hrc. unfold member. rewrite Hto, Hem, Hrc. reflexivity.
Qed.

Lemma stored_email_follows_the_priority_witness :
  let fields := [("to", JArr [JStr "a@x.com"; JStr "b@x.com"]);
                 ("email", JStr "c@x.com")] in
  let members := [("id", JStr "evt_1"); ("data", JObj fields)] in
  let r := resend_webhook_view sample_clock sample_lib no_receivers
             (post (JObj members)) empty_world in
  exists row, rows (view_world r) = [row] /\ email row = JStr "a@x.com".
Proof.
  intros fields members r.
  assert (A : rows (view_world r) <> rows empty_world)
    by (vm_compute; discriminate).
  destruct (stored_email_follows_the_priority sample_clock sample_lib
              no_receivers members fields empty_world A eq_refl)
    as [row [Hrows [Hto _]]].
  exists row. split; [exact Hrows | ].
  exact (Hto (JStr "a@x.com") [JStr "b@x.com"] eq_refl).
Defined.

(** X14. Which time is stored, for a row the receiver has just stored whose
    payload carries a non-empty text as [created_at]: if [parse_datetime]
    reads it as a date, that date; if it is no date but [float] and
    [fromtimestamp] read it as a number of seconds, that instant.  In both
    cases the [timestamp] member of the payload is not looked at and the
    clock is not read for it: the first reading goes to [created_at]. *)
Theorem readable_timestamp_is_stored :
  forall clock lib signals members s w,
    let r := resend_webhook_view clock lib signals (post (JObj members)) w in
    rows (view_world r) <> rows w ->
    member "created_at" members JNull = JStr s ->
    s <> ""%string ->
    exists row,
      rows (view_world r) = rows w ++ [row]
      /\ (forall t, parse_datetime lib s = Ok (Some t) ->
                    timestamp row = t /\ created_at row = clock (ticks w))
      /\ (forall x t, parse_datetime lib s = Ok None ->
                      float_of_str lib s = Ok x ->
                      fromtimestamp lib x = Ok t ->
                      timestamp row = t /\ created_at row = clock (ticks w)).
Proof.
  intros clock lib signals members s w r Hcreated Hca Hs.
  destruct (stored_row clock lib signals (JObj members) w Hcreated)
    as [w1 [x [Hx Hrows]]].
  destruct (extract_read clock lib (JObj members) w w1 x Hx)
    as [members' [Hd [_ [_ [Hts _]]]]].
  inversion Hd. subst members'. clear Hd.
  assert (Ht : truthy (JStr s) = true).
  { simpl. destruct (String.eqb_spec s ""); [contradiction | reflexivity]. }
  rewrite Hca in Hts. unfold py_or in Hts. rewrite Ht in Hts.
  unfold parse_timestamp in Hts. rewrite Ht in Hts.
  eexists. split; [exact Hrows | ]. cbn [created_at timestamp].
  assert (Hread : forall t, read_datetime lib (JStr s) = Ok t ->
            x_timestamp x = t /\ clock (ticks w1) = clock (ticks w)).
  { intros t Hrd. rewrite Hrd in Hts. inversion Hts. auto. }
  split.
  - intros t Hp. apply Hread. unfold read_datetime. rewrite Hp. reflexivity.
  - intros fx t Hp Hf Hft. apply Hread. unfold read_datetime.
    rewrite Hp. simpl. rewrite Hf. simpl. exact Hft.
Qed.

Lemma readable_timestamp_is_stored_witness :
  let members := [("id", JStr "evt_1");
                  ("created_at", JStr "2024-01-15T10:30:00+00:00");
                  ("timestamp", JStr "inf")] in
  let r := resend_webhook_view sample_clock sample_lib no_receivers
             (post (JObj members)) empty_world in
  exists row,
    rows (view_world r) = [row]
    /\ timestamp row = 1705314600
    /\ created_at row = sample_clock 0.
Proof.
  intros members r.
  assert (A : rows (view_world r) <> rows empty_world)
    by (vm_compute; discriminate).
  assert (B : "2024-01-15T10:30:00+00:00"%string <> ""%string)
    by discriminate.
  destruct (readable_timestamp_is_stored sample_clock sample_lib
              no_receivers members "2024-01-15T10:30:00+00:00" empty_world
              A eq_refl B) as [row [Hrows [Hdate _]]].
  exists row. split; [exact Hrows | ].
  exact (Hdate 1705314600 eq_refl).
Defined.

(** X15. A [created_at] that is a true value but not a text - a number of
    seconds, for instance - is never read as a time: for a row the
    receiver has just stored from such a payload, [timestamp] is the clock
    reading taken at the fallback (the receipt time), whatever the number
    and whatever the [timestamp] member holds. *)
Theorem non_text_timestamp_gives_receipt_time :
  forall clock lib signals members v w,
    let r := resend_webhook_view clock lib signals (post (JObj members)) w in
    rows (view_world r) <> rows w ->
    member "created_at" members JNull = v ->
    truthy v = true ->
    (forall s, v <> JStr s) ->
    exists row,
      rows (view_world r) = rows w ++ [row]
      /\ timestamp row = clock (ticks w)
      /\ created_at row = clock (S (ticks w)).
Proof.
  intros clock lib signals members v w r Hcreated Hca Ht Hv.
  destruct (stored_row clock lib signals (JObj members) w Hcreated)
    as [w1 [x [Hx Hrows]]].
  destruct (extract_read clock lib (JObj members) w w1 x Hx)
    as [members' [Hd [_ [_ [Hts _]]]]].
  inversion Hd. subst members'. clear Hd.
  rewrite Hca in Hts. unfold py_or in Hts. rewrite Ht in Hts.
  unfold parse_timestamp in Hts. rewrite Ht in Hts.
  assert (Hrd : read_datetime lib v
                = Raise (mkExn TypeError
                           "fromisoformat: argument must be str")).
  { destruct v; try reflexivity. exfalso. exact (Hv s eq_refl). }
  rewrite Hrd in Hts. simpl in Hts. inversion Hts as [[Hw Hx1]]. subst w1.
  eexists. split; [exact Hrows | ]. cbn [timestamp created_at ticks].
  split; [symmetry; exact Hx1 | reflexivity].
Qed.

Lemma non_text_timestamp_gives_receipt_time_witness :
  let members := [("id", JStr "evt_1"); ("created_at", JNum 1700000000);
                  ("timestamp", JStr "2024-01-15T10:30:00+00:00")] in
  let r := resend_webhook_view sample_clock sample_lib no_receivers
             (post (JObj members)) empty_world in
  exists row,
    rows (view_world r) = [row]
    /\ timestamp row = sample_clock 0
    /\ created_at row = sample_clock 1.
Proof.
  intros members r.
  assert (A : rows (view_world r) <> rows empty_world)
    by (vm_compute; discriminate).
  assert (B : forall s, JNum 1700000000 <> JStr s)
    by (intros s E; discriminate E).
  exact (non_text_timestamp_gives_receipt_time sample_clock sample_lib
           no_receivers members (JNum 1700000000) empty_world
           A eq_refl eq_refl B).
Defined.

(** ** The admin actions *)

Lemma bulk_update_rows : forall queryset change w,
  rows (bulk_update queryset change w)
    = map (fun row => if queryset row then change row else row) (rows w).
Proof. reflexivity. Qed.

(** The count taken after the update, when the update does not move rows in
    or out of the selection. *)
Lemma count_after_stable_update : forall (queryset : Selection) change rs,
  (forall row, queryset (change row) = queryset row) ->
  List.length
    (filter queryset
       (map (fun row => if queryset row then change row else row) rs))
  = List.length (filter queryset rs).
Proof.
  intros queryset change rs Hst.
  induction rs as [ | row rs IH]; simpl; [reflexivity | ].
  destruct (queryset row) eqn:E.
  - rewrite Hst, E. simpl. rewrite IH. reflexivity.
  - rewrite E. exact IH.
Qed.

(** The count taken after the update, when the update moves every selected
    row out of the selection. *)
Lemma count_after_leaving_update : forall (queryset : Selection) change rs,
  (forall row, queryset (change row) = false) ->
  filter queryset
    (map (fun row => if queryset row then change row else row) rs) = [].
Proof.
  intros queryset change rs Hout.
  induction rs as [ | row rs IH]; simpl; [reflexivity | ].
  destruct (queryset row) eqn:E.
  - rewrite Hout. exact IH.
  - rewrite E. exact IH.
Qed.

(** X16. The number an admin action reports is counted after the update, by
    running the selection again.  When the selection does not depend on the
    status (rows picked by key), it is the number of rows the action was
    applied to.  When the selection is a changelist filtered on Failed,
    "mark selected as pending" reports 0 whatever it has changed, because
    the rows it has reset no longer match. *)
Theorem admin_action_reports_the_count_after_the_update :
  forall w (queryset : Selection),
    ((forall row s, queryset (set_status s row) = queryset row) ->
     reported (mark_as_pending queryset w) = selected_count queryset w
     /\ reported (mark_as_failed queryset w) = selected_count queryset w)
    /\ (let failed_only :=
          fun row => status_eqb (status row) STATUS_FAILED && queryset row in
        reported (mark_as_pending failed_only w) = 0
        /\ forall row, In row (rows w) -> failed_only row = true ->
             In (set_status STATUS_PENDING row)
               (rows (action_world (mark_as_pending failed_only w)))).
Proof.
  intros w queryset. split.
  - intro Hst. unfold mark_as_pending, mark_as_failed, reported,
      selected_count. rewrite !bulk_update_rows.
    rewrite !count_after_stable_update by (intro row; apply Hst).
    split; reflexivity.
  - cbv zeta. split.
    + unfold mark_as_pending, reported, selected_count.
      rewrite bulk_update_rows.
      rewrite count_after_leaving_update; [reflexivity | ].
      intro row. reflexivity.
    + intros row Hin Hsel. unfold mark_as_pending, action_world.
      rewrite bulk_update_rows. apply in_map_iff.
      exists row. rewrite Hsel. auto.
Qed.

Lemma admin_action_reports_the_count_after_the_update_witness :
  let w := mkWorld [sample_event 1 10 STATUS_FAILED 1;
                    sample_event 2 20 STATUS_PROCESSED 0] 3 0 in
  let by_key : Selection := fun row => pk row =? 1 in
  reported (mark_as_pending by_key w) = 1
  /\ reported (mark_as_failed by_key w) = 1.
Proof.
  intros w by_key.
  exact (proj1 (admin_action_reports_the_count_after_the_update w by_key)
           (fun row s => eq_refl)).
Defined.

(** X18. The re-queue path through the admin: after "mark selected as
    pending", a run of [process_pending_events] without limit and type
    ("failed" receivers returning) calls the handler on every selected
    event, whatever its status was - a Processed event is processed
    again. *)
Theorem admin_requeue_reaches_the_handler :
  forall clock signals w (queryset : Selection) h row,
    (forall named, send (failed_receivers signals) named = None) ->
    In row (rows w) ->
    queryset row = true ->
    let w1 := action_world (mark_as_pending queryset w) in
    let r := process_pending_events clock signals None None (Some h) w1 in
    In (pk row) (handled (batch_log r)).
Proof.
  intros clock signals w queryset h row Hquiet Hin Hsel w1 r.
  assert (Hreset : In (set_status STATUS_PENDING row) (rows w1)).
  { unfold w1, mark_as_pending, action_world. rewrite bulk_update_rows.
    apply in_map_iff. exists row. rewrite Hsel. auto. }
  set (selected := fetch (mkQuery STATUS_PENDING None None None) w1).
  assert (Hs : In (set_status STATUS_PENDING row) selected).
  { apply (Permutation_in _
             (Permutation_sym
                (fetch_unsliced (mkQuery STATUS_PENDING None None None) w1
                   eq_refl))).
    apply filter_In. split; [exact Hreset | reflexivity]. }
  assert (Hall : Forall (fun e => status e = STATUS_PENDING
                           /\ has_pk (pk e) (rows w1) = true) selected).
  { apply Forall_forall. intros e He. apply fetch_in in He.
    destruct He as [Hine Hm]. unfold matches in Hm. simpl in Hm.
    rewrite !andb_true_r in Hm.
    split; [apply status_eqb_eq; exact Hm | apply has_pk_in; exact Hine]. }
  destruct (pending_loop_runs_all clock signals Hquiet (Some h) selected w1
              [] (mkStats 0 0 0) Hall) as [final [_ [_ [_ Hlog]]]].
  unfold r, process_pending_events. simpl get_pending_events. cbv iota beta.
  fold selected. rewrite Hlog. simpl.
  change (pk row) with (pk (set_status STATUS_PENDING row)).
  apply in_map. exact Hs.
Qed.

Lemma admin_requeue_reaches_the_handler_witness :
  let row := sample_event 1 10 STATUS_PROCESSED 0 in
  let w := mkWorld [row; sample_event 2 20 STATUS_FAILED 3] 3 0 in
  let w1 := action_world (mark_as_pending (fun r => pk r =? 1) w) in
  let r := process_pending_events sample_clock no_receivers None None
             (Some returns_quietly) w1 in
  In (pk row) (handled (batch_log r)).
Proof.
  intros row w w1 r.
  apply (admin_requeue_reaches_the_handler sample_clock no_receivers w
           (fun r => pk r =? 1) returns_quietly row (fun _ => eq_refl)).
  - left. reflexivity.
  - reflexivity.
Defined.

(** ** The short form of an id (admin.py, lines 60-64) *)

Lemma py_len_append : forall s t,
  py_len (s ++ t)%string = (py_len s + py_len t)%nat.
Proof.
  induction s as [ | c s IH]; intro t; simpl; [reflexivity | ].
  rewrite IH. destruct (is_continuation c); reflexivity.
Qed.

Lemma py_len_prefix : forall s n,
  py_len (py_prefix n s) = Nat.min n (py_len s).
Proof.
  induction s as [ | c s IH]; intro n; simpl.
  - rewrite Nat.min_0_r. reflexivity.
  - destruct (is_continuation c) eqn:E; simpl.
    + rewrite E. apply IH.
    + destruct n as [ | m]; simpl; [reflexivity | ].
      rewrite E, IH. reflexivity.
Qed.

(** The first [n] characters of the first [n] characters followed by the
    dots are the first [n] characters. *)
Lemma py_prefix_of_prefix : forall s n,
  (n <= py_len s)%nat ->
  py_prefix n (py_prefix n s ++ "...")%string = py_prefix n s.
Proof.
  induction s as [ | c s IH]; intros n Hn; simpl in *.
  - assert (n = 0%nat) by lia. subst n. reflexivity.
  - destruct (is_continuation c) eqn:E; simpl.
    + rewrite E, IH by exact Hn. reflexivity.
    + destruct n as [ | m]; simpl; [reflexivity | ].
      rewrite E, IH by lia. reflexivity.
Qed.

(** A text of one-byte characters has as many characters as bytes, and its
    first [n] characters are its first [n] bytes. *)
Lemma py_len_one_byte : forall s,
  Forall (fun c => is_continuation c = false) (list_ascii_of_string s) ->
  py_len s = String.length s.
Proof.
  induction s as [ | c s IH]; intro H; simpl; [reflexivity | ].
  inversion H as [ | ? ? Hc Hs]; subst. rewrite Hc, IH by exact Hs.
  reflexivity.
Qed.

(** X19. [event_id_short] of a stored id (a text), lengths counted in
    characters as [len] and slicing do, not in bytes: the result has at
    most 23 characters; an id of at most 20 characters is shown as it is; a
    longer one is cut to its first 20 characters followed by three dots;
    and shortening a shortened id changes nothing. *)
Theorem event_id_short_is_bounded_and_stable :
  forall obj id,
    event_id obj = JStr id ->
    exists short,
      event_id_short obj = Ok short
      /\ (py_len short <= 23)%nat
      /\ ((py_len id <= 20)%nat -> short = id)
      /\ ((20 < py_len id)%nat ->
          short = (py_prefix 20 id ++ "...")%string
          /\ py_len (py_prefix 20 id) = 20%nat
          /\ py_len short = 23%nat)
      /\ (forall obj', event_id obj' = JStr short ->
                       event_id_short obj' = Ok short).
Proof.
  intros obj id Hid. unfold event_id_short. rewrite Hid.
  eexists. split; [reflexivity | ].
  destruct (20 <? py_len id)%nat eqn:E.
  - apply Nat.ltb_lt in E.
    assert (Hcut : py_len (py_prefix 20 id) = 20%nat).
    { rewrite py_len_prefix. apply Nat.min_l. lia. }
    assert (Hlen : py_len (py_prefix 20 id ++ "...")%string = 23%nat).
    { rewrite py_len_append, Hcut. reflexivity. }
    split; [rewrite Hlen; lia | ].
    split; [intro H; lia | ].
    split; [intros _; split; [reflexivity | split; assumption] | ].
    intros obj' Hid'. rewrite Hid'. rewrite Hlen. simpl Nat.ltb.
    cbv iota. rewrite py_prefix_of_prefix by lia. reflexivity.
  - apply Nat.ltb_ge in E.
    split; [lia | ].
    split; [reflexivity | ].
    split; [intro H; lia | ].
    intros obj' Hid'. rewrite Hid'.
    destruct (20 <? py_len id)%nat eqn:E';
      [apply Nat.ltb_lt in E'; lia | reflexivity].
Qed.

Lemma event_id_short_is_bounded_and_stable_witness :
  let e_acute := String (Ascii.ascii_of_nat 195)
                   (String (Ascii.ascii_of_nat 169) EmptyString) in
  let id := (e_acute ++ "vt_0123456789abcdefghi")%string in
  let obj := mkEvent 1 (JStr id) (JStr "email.sent")
               10 JNull JNull JNull STATUS_PENDING 10 10 None "" 0 in
  String.length id = 24%nat
  /\ py_len id = 23%nat
  /\ exists short,
       event_id_short obj = Ok short
       /\ short = (e_acute ++ "vt_0123456789abcdef...")%string
       /\ py_len short = 23%nat.
Proof.
  intros e_acute id obj.
  split; [reflexivity | split; [reflexivity | ]].
  destruct (event_id_short_is_bounded_and_stable obj id eq_refl)
    as [short [Hshort [_ [_ [Hlong _]]]]].
  exists short. split; [exact Hshort | ].
  assert (L : (20 < py_len id)%nat) by (vm_compute; lia).
  destruct (Hlong L) as [Heq [_ Hlen]].
  split; [rewrite Heq; reflexivity | exact Hlen].
Defined.

(** ** The API client *)

Lemma assoc_dict_set : forall key value items k,
  assoc k (dict_set key value items)
    = if (key =? k)%string then Some value else assoc k items.
Proof.
  intros key value items k.
  induction items as [ | [k' v'] rest IH]; simpl.
  - reflexivity.
  - destruct (k' =? key)%string eqn:E; simpl.
    + apply String.eqb_eq in E. subst k'.
      destruct (key =? k)%string; reflexivity.
    + rewrite IH. destruct (key =? k)%string eqn:E2; [ | reflexivity].
      apply String.eqb_eq in E2. subst k. rewrite E. reflexivity.
Qed.

(** [update] with a dict: a key of [kwargs] takes its value there, any
    other key keeps its own. *)
Lemma assoc_dict_update : forall kwargs items k,
  NoDup (map fst kwargs) ->
  assoc k (dict_update items kwargs)
    = match assoc k kwargs with
      | Some v => Some v
      | None => assoc k items
      end.
Proof.
  unfold dict_update.
  induction kwargs as [ | [k' v'] rest IH]; intros items k Hnd; simpl.
  - reflexivity.
  - inversion Hnd as [ | ? ? Hnotin Hnd']; subst.
    rewrite IH by exact Hnd'. rewrite assoc_dict_set.
    destruct (assoc k rest) as [v | ] eqn:Hr.
    + destruct (k' =? k)%string eqn:E; [ | reflexivity].
      apply String.eqb_eq in E. subst k'. exfalso. apply Hnotin.
      clear - Hr. induction rest as [ | [a b] rest IH]; simpl in *;
        [discriminate Hr | ].
      destruct (a =? k)%string eqn:E; [ | right; exact (IH Hr)].
      left. apply String.eqb_eq. exact E.
    + destruct (k' =? k)%string; reflexivity.
Qed.

Lemma as_list_truthy : forall v, truthy v = true -> truthy (as_list v) = true.
Proof. intros v H. destruct v; simpl in *; auto. Qed.

(** X20. How a client gets its key (lines 41-54): without the package the
    constructor raises and nothing else happens; a true [api_key] argument
    is used and the setting is not looked at; a false one ([None], ['']) is
    replaced by the [RESEND_APIKEY] setting; with neither, the constructor
    raises [ValueError] and the module's key is left as it was.  A client
    that is built has a true key, and the module's key is then that key. *)
Theorem client_key_resolution :
  forall key settings (resend : ResendModule),
    let made := ResendClient_init key settings resend in
    match resend with
    | None => fst made = None /\ exists e, snd made = Raise e
    | Some before =>
        let setting := member "RESEND_APIKEY" settings (JStr "") in
        if truthy key
        then made = (Some key, Ok (mkClient key))
        else if truthy setting
             then made = (Some setting, Ok (mkClient setting))
             else fst made = Some before
                  /\ exists e, snd made = Raise e
                               /\ exn_cls e = ValueError
    end
    /\ (forall client, snd made = Ok client ->
          truthy (api_key client) = true
          /\ fst made = Some (api_key client)).
Proof.
  intros key settings resend made. unfold made, ResendClient_init.
  destruct resend as [before | ].
  - unfold get_resend_api_key, py_or. cbv zeta.
    destruct (truthy key) eqn:Hk.
    + rewrite Hk. simpl. split; [reflexivity | ].
      intros client H. inversion H. simpl. auto.
    + destruct (truthy (member "RESEND_APIKEY" settings (JStr ""))) eqn:Hs;
        simpl.
      * split; [reflexivity | ].
        intros client H. inversion H. simpl. auto.
      * split; [split; [reflexivity | eexists; split; reflexivity] | ].
        intros client H. discriminate H.
  - simpl. split; [split; [reflexivity | eexists; reflexivity] | ].
    intros client H. discriminate H.
Qed.

Lemma client_key_resolution_witness :
  let made := ResendClient_init JNull [("RESEND_APIKEY", JStr "re_123")]
                (Some JNull) in
  exists client,
    snd made = Ok client
    /\ truthy (api_key client) = true
    /\ fst made = Some (api_key client).
Proof.
  intro made. exists (mkClient (JStr "re_123")).
  split; [reflexivity | ].
  exact (proj2 (client_key_resolution JNull
                  [("RESEND_APIKEY", JStr "re_123")] (Some JNull))
           (mkClient (JStr "re_123")) eq_refl).
Defined.

(** X21. The key lives in the module, not in the client: when a second
    client is built with another key, a mail sent through the first client
    goes out in a module whose key is the second one, though the first
    client still holds its own. *)
Theorem second_client_repoints_the_first :
  forall emails_send settings before key1 key2 to subject o kwargs,
    truthy key1 = true ->
    truthy key2 = true ->
    let '(module1, made1) := ResendClient_init key1 settings (Some before) in
    let '(module2, made2) := ResendClient_init key2 settings module1 in
    exists client1,
      made1 = Ok client1
      /\ api_key client1 = key1
      /\ module2 = Some key2
      /\ client_send_email emails_send module2 client1 to subject o kwargs
         = bind (emails_send key2 (JObj (build_params to subject o kwargs)))
             (fun response =>
                bind (get response "id" JNull) (fun _ => Ok response)).
Proof.
  intros emails_send settings before key1 key2 to subject o kwargs H1 H2.
  unfold ResendClient_init, py_or. rewrite H1, H2. simpl.
  rewrite H1, H2. simpl.
  exists (mkClient key1). repeat split.
Qed.

Lemma second_client_repoints_the_first_witness :
  let '(module1, made1) :=
    ResendClient_init (JStr "key_a") [] (Some JNull) in
  let '(module2, made2) := ResendClient_init (JStr "key_b") [] module1 in
  exists client1,
    made1 = Ok client1
    /\ api_key client1 = JStr "key_a"
    /\ module2 = Some (JStr "key_b")
    /\ client_send_email (fun k _ => Ok (JObj [("id", k)])) module2 client1
         (JStr "a@x.com") (JStr "Hello")
         (mkOptional JNull JNull JNull JNull JNull JNull JNull JNull JNull)
         []
       = bind ((fun k _ => Ok (JObj [("id", k)])) (JStr "key_b")
                 (JObj (build_params (JStr "a@x.com") (JStr "Hello")
                          (mkOptional JNull JNull JNull JNull JNull JNull
                             JNull JNull JNull) [])))
           (fun response =>
              bind (get response "id" JNull) (fun _ => Ok response)).
Proof.
  exact (second_client_repoints_the_first
           (fun k _ => Ok (JObj [("id", k)])) [] JNull
           (JStr "key_a") (JStr "key_b") (JStr "a@x.com") (JStr "Hello")
           (mkOptional JNull JNull JNull JNull JNull JNull JNull JNull JNull)
           [] eq_refl eq_refl).
Defined.

Section Params.

Variables to subject : json.
Variable o : Optional.

(** Every optional key that [build_params] sets holds a true value. *)
Lemma build_params_plain_values : forall k v,
  assoc k (build_params to subject o []) = Some v ->
  k = "to"%string \/ k = "subject"%string \/ truthy v = true.
Proof.
  cbv beta iota zeta delta [build_params dict_update fold_left].
  assert (Hset : forall (cond value : json) key d,
            truthy value = true ->
            (forall k v, assoc k d = Some v ->
                         k = "to"%string \/ k = "subject"%string
                         \/ truthy v = true) ->
            forall k v,
              assoc k (if truthy cond then dict_set key value d else d)
                = Some v ->
              k = "to"%string \/ k = "subject"%string \/ truthy v = true).
  { intros cond value key d Hv Hd k v.
    destruct (truthy cond); [ | apply Hd].
    rewrite assoc_dict_set. destruct (key =? k)%string; [ | apply Hd].
    intro H. inversion H. subst. auto. }
  assert (Hset' : forall (value : json) key d,
            (forall k v, assoc k d = Some v ->
                         k = "to"%string \/ k = "subject"%string
                         \/ truthy v = true) ->
            forall k v,
              assoc k (if truthy value then dict_set key value d else d)
                = Some v ->
              k = "to"%string \/ k = "subject"%string \/ truthy v = true).
  { intros value key d Hd k v.
    destruct (truthy value) eqn:E; [ | apply Hd].
    rewrite assoc_dict_set. destruct (key =? k)%string; [ | apply Hd].
    intro H. inversion H. subst. auto. }
  assert (Hlist : forall (value : json) key d,
            (forall k v, assoc k d = Some v ->
                         k = "to"%string \/ k = "subject"%string
                         \/ truthy v = true) ->
            forall k v,
              assoc k (if truthy value
                       then dict_set key (as_list value) d else d)
                = Some v ->
              k = "to"%string \/ k = "subject"%string \/ truthy v = true).
  { intros value key d Hd k v.
    destruct (truthy value) eqn:E; [ | apply Hd].
    rewrite assoc_dict_set. destruct (key =? k)%string; [ | apply Hd].
    intro H. inversion H. subst. right. right. apply as_list_truthy.
    exact E. }
  apply Hset'. apply Hset'. apply Hset'. apply Hlist. apply Hlist.
  apply Hlist. apply Hset'. apply Hset'. apply Hset'.
  intros k v. cbn [assoc].
  destruct ("to" =? k)%string eqn:E1;
    [intros _; left; apply String.eqb_eq in E1; auto | ].
  destruct ("subject" =? k)%string eqn:E2;
    [intros _; right; left; apply String.eqb_eq in E2; auto | ].
  intro H. discriminate H.
Qed.

End Params.

Lemma assoc_skip : forall k key (c : bool) value items,
  (key =? k)%string = false ->
  assoc k (if c then dict_set key value items else items) = assoc k items.
Proof.
  intros k key c value items H. destruct c; [ | reflexivity].
  rewrite assoc_dict_set, H. reflexivity.
Qed.

Lemma build_params_to : forall to subject o,
  assoc "to" (build_params to subject o []) = Some (as_list to).
Proof.
  intros to subject o.
  cbv beta iota zeta delta [build_params dict_update fold_left].
  rewrite !assoc_skip by reflexivity. reflexivity.
Qed.

Lemma build_params_kwargs : forall to subject o kwargs k,
  NoDup (map fst kwargs) ->
  assoc k (build_params to subject o kwargs)
    = match assoc k kwargs with
      | Some v => Some v
      | None => assoc k (build_params to subject o [])
      end.
Proof.
  intros to subject o kwargs k Hnd. unfold build_params.
  rewrite assoc_dict_update by exact Hnd. reflexivity.
Qed.

(** X22. The params [send_email] builds, for the keys that [kwargs] does
    not set: [to] is always a list - the list passed, or the one-element
    list of what was passed - and no other key but [subject] holds a false
    value: an argument left out, [None] or empty leaves no key in the
    params. *)
Theorem send_email_params_are_clean :
  forall to subject o kwargs,
    NoDup (map fst kwargs) ->
    let params := build_params to subject o kwargs in
    (assoc "to" kwargs = None ->
     exists items,
       assoc "to" params = Some (JArr items)
       /\ (forall l, to = JArr l -> items = l)
       /\ ((forall l, to <> JArr l) -> items = [to]))
    /\ (forall k v,
          assoc k kwargs = None -> assoc k params = Some v ->
          k = "to"%string \/ k = "subject"%string \/ truthy v = true).
Proof.
  intros to subject o kwargs Hnd params. split.
  - intro Hto. unfold params.
    rewrite build_params_kwargs by exact Hnd. rewrite Hto, build_params_to.
    destruct to as [ | b | n | s | l | m];
      try (eexists; split; [reflexivity | ];
           split; [intros l' E; discriminate E | reflexivity]).
    exists l. split; [reflexivity | ].
    split; [intros l' E; inversion E; reflexivity | ].
    intro H. exfalso. exact (H l eq_refl).
  - intros k v Hk Hv. unfold params in Hv.
    rewrite build_params_kwargs in Hv by exact Hnd. rewrite Hk in Hv.
    exact (build_params_plain_values to subject o k v Hv).
Qed.

Lemma send_email_params_are_clean_witness :
  let o := mkOptional (JStr "<p>Hi</p>") (JStr "") JNull JNull JNull JNull
             JNull JNull JNull in
  let params := build_params (JStr "a@x.com") (JStr "Hello") o [] in
  assoc "to" params = Some (JArr [JStr "a@x.com"])
  /\ assoc "text" params = None
  /\ map fst params = ["to"; "subject"; "html"]%string.
Proof.
  intros o params.
  destruct (send_email_params_are_clean (JStr "a@x.com") (JStr "Hello") o []
              (NoDup_nil _)) as [Hto _].
  destruct (Hto eq_refl) as [items [Hitems [_ Hone]]].
  fold params in Hitems. rewrite Hitems.
  rewrite (Hone (fun l E => ltac:(discriminate E))).
  split; [reflexivity | split; vm_compute; reflexivity].
Defined.

(** X23. Keyword arguments win: a key passed in [kwargs] is in the params
    with exactly the value passed, whatever the named arguments say - so
    [from] given in [kwargs] replaces the [from_email] argument - and a key
    that [kwargs] does not set keeps the value built from the named
    arguments. *)
Theorem send_email_kwargs_win :
  forall to subject o kwargs,
    NoDup (map fst kwargs) ->
    let params := build_params to subject o kwargs in
    (forall k v, assoc k kwargs = Some v -> assoc k params = Some v)
    /\ (forall k, assoc k kwargs = None ->
                  assoc k params = assoc k (build_params to subject o []))
    /\ (forall sender,
          assoc "from" kwargs = None -> truthy (from_email o) = true ->
          from_email o = sender -> assoc "from" params = Some sender).
Proof.
  intros to subject o kwargs Hnd params. unfold params.
  split; [ | split].
  - intros k v Hk. rewrite build_params_kwargs by exact Hnd.
    rewrite Hk. reflexivity.
  - intros k Hk. rewrite build_params_kwargs by exact Hnd.
    rewrite Hk. reflexivity.
  - intros sender Hk Ht Hs. rewrite build_params_kwargs by exact Hnd.
    rewrite Hk.
    cbv beta iota zeta delta [build_params dict_update fold_left].
    rewrite !assoc_skip by reflexivity.
    rewrite Ht, assoc_dict_set. simpl. rewrite Hs. reflexivity.
Qed.

Lemma send_email_kwargs_win_witness :
  let o := mkOptional JNull JNull (JStr "a@x.com") JNull JNull JNull JNull
             JNull JNull in
  let params := build_params (JStr "c@x.com") (JStr "Hello") o
                  [("from", JStr "b@x.com")] in
  assoc "from" params = Some (JStr "b@x.com").
Proof.
  intros o params.
  assert (N : NoDup (map fst [("from", JStr "b@x.com")])).
  { simpl. constructor; [intros [] | constructor]. }
  exact (proj1 (send_email_kwargs_win (JStr "c@x.com") (JStr "Hello") o
                  [("from", JStr "b@x.com")] N)
           "from"%string (JStr "b@x.com") eq_refl).
Defined.

(** X24. What comes back from [send_email]: an exception of the API call
    is raised again as it is; an answer that is a dict is returned as it
    is; an answer that is not a dict makes the log line raise, and that
    exception is what the caller gets although the mail has been
    accepted. *)
Theorem send_email_passes_the_answer_on :
  forall emails_send key client to subject o kwargs,
    let params := JObj (build_params to subject o kwargs) in
    let result := client_send_email emails_send (Some key) client to
                    subject o kwargs in
    (forall e, emails_send key params = Raise e -> result = Raise e)
    /\ (forall members, emails_send key params = Ok (JObj members) ->
                        result = Ok (JObj members))
    /\ (forall answer, emails_send key params = Ok answer ->
                       (forall members, answer <> JObj members) ->
                       exists e, result = Raise e
                                 /\ exn_cls e = AttributeError).
Proof.
  intros emails_send key client to subject o kwargs params result.
  unfold result, client_send_email. fold params.
  split; [ | split].
  - intros e H. rewrite H. reflexivity.
  - intros members H. rewrite H. reflexivity.
  - intros answer H Hn. rewrite H.
    destruct answer; simpl; try (eexists; split; reflexivity).
    exfalso. exact (Hn members eq_refl).
Qed.

Lemma send_email_passes_the_answer_on_witness :
  let api : json -> json -> outcome json :=
    fun _ _ => Ok (JStr "queued") in
  exists e,
    client_send_email api (Some (JStr "key")) (mkClient (JStr "key"))
      (JStr "a@x.com") (JStr "Hello")
      (mkOptional JNull JNull JNull JNull JNull JNull JNull JNull JNull) []
    = Raise e
    /\ exn_cls e = AttributeError.
Proof.
  intro api.
  apply (proj2 (proj2 (send_email_passes_the_answer_on api (JStr "key")
                         (mkClient (JStr "key")) (JStr "a@x.com")
                         (JStr "Hello")
                         (mkOptional JNull JNull JNull JNull JNull JNull
                            JNull JNull JNull) []))
           (JStr "queued") eq_refl).
  intros members E. discriminate E.
Defined.

Lemma assoc_filter_keys : forall (keep : string -> bool) items k,
  assoc k (filter (fun kv => keep (fst kv)) items)
    = if keep k then assoc k items else None.
Proof.
  intros keep items k.
  induction items as [ | [k' v'] rest IH]; simpl.
  - destruct (keep k); reflexivity.
  - destruct (keep k') eqn:E; simpl.
    + destruct (k' =? k)%string eqn:E2; [ | exact IH].
      apply String.eqb_eq in E2. subst k'. rewrite E. reflexivity.
    + rewrite IH. destruct (k' =? k)%string eqn:E2; [ | reflexivity].
      apply String.eqb_eq in E2. subst k'. rewrite E. reflexivity.
Qed.

Lemma NoDup_filter_keys : forall (keep : string * json -> bool) items,
  NoDup (map fst items) -> NoDup (map fst (filter keep items)).
Proof.
  intros keep items H.
  induction items as [ | [k v] kw IH]; [constructor | ].
  inversion H as [ | ? ? Hnotin Hnd']; subst.
  cbn [filter]. destruct (keep (k, v)); [ | apply IH; exact Hnd'].
  cbn [map fst]. constructor; [ | apply IH; exact Hnd'].
  intro Hin. apply Hnotin. apply in_map_iff in Hin.
  destruct Hin as [[k' v'] [Hk Hin]]. simpl in Hk. subst k'.
  apply filter_In in Hin. destruct Hin as [Hin _].
  apply in_map_iff. exists (k, v'). auto.
Qed.

(** X25. The module-level [send_email] builds a client from the settings
    each time.  Without a true [RESEND_APIKEY] it raises [ValueError]
    before any call to the API and leaves the module's key alone.  With
    one, the call is made in a module whose key is the setting, and a
    [from_email] keyword reaches the API under the key [from], never under
    its own name. *)
Theorem module_send_email_uses_the_settings :
  forall emails_send settings before to subject html text kwargs,
    let setting := member "RESEND_APIKEY" settings (JStr "") in
    let run := send_email emails_send settings (Some before) to subject
                 html text kwargs in
    (truthy setting = false ->
     fst run = Some before
     /\ exists e, snd run = Raise e /\ exn_cls e = ValueError)
    /\ (truthy setting = true ->
        exists params,
          fst run = Some setting
          /\ snd run
             = bind (emails_send setting (JObj params))
                 (fun response =>
                    bind (get response "id" JNull) (fun _ => Ok response))
          /\ assoc "from_email" params = None
          /\ (NoDup (map fst kwargs) -> assoc "from" kwargs = None ->
              truthy (member "from_email" kwargs JNull) = true ->
              assoc "from" params
                = Some (member "from_email" kwargs JNull))).
Proof.
  intros emails_send settings before to subject h t kwargs setting run.
  unfold run, send_email, ResendClient_init, get_resend_api_key, py_or.
  simpl truthy. cbv iota. fold setting.
  split.
  - intro Hs. rewrite Hs. simpl.
    split; [reflexivity | eexists; split; reflexivity].
  - intro Hs. rewrite Hs. simpl.
    eexists. split; [reflexivity | split; [reflexivity | ]].
    set (rest := filter _ kwargs).
    assert (Hrest : forall k,
              assoc k rest
              = if negb (existsb (String.eqb k) bound_names)
                then assoc k kwargs else None).
    { intro k. unfold rest.
      exact (assoc_filter_keys
               (fun key => negb (existsb (String.eqb key) bound_names))
               kwargs k). }
    assert (Hnd : NoDup (map fst kwargs) -> NoDup (map fst rest)).
    { intro H. unfold rest. apply NoDup_filter_keys. exact H. }
    split.
    + (* [from_email] is a bound name: it is not in [rest], and
         [build_params] sets no such key *)
      unfold build_params, dict_update.
      assert (Hfold : forall items d,
                assoc "from_email" items = None ->
                assoc "from_email" d = None ->
                assoc "from_email"
                  (fold_left (fun d kv => dict_set (fst kv) (snd kv) d)
                     items d) = None).
      { induction items as [ | [k v] items IH]; intros d Hi Hd; simpl;
          [exact Hd | ].
        simpl in Hi. destruct (k =? "from_email")%string eqn:E;
          [discriminate Hi | ].
        apply IH; [exact Hi | ].
        rewrite assoc_dict_set, E. exact Hd. }
      apply Hfold; [rewrite Hrest; reflexivity | ].
      rewrite !assoc_skip by reflexivity. reflexivity.
    + intros Hk Hfrom Ht.
      rewrite build_params_kwargs by (apply Hnd; exact Hk).
      rewrite Hrest. simpl negb. cbv iota. rewrite Hfrom.
      cbv beta iota zeta delta [build_params dict_update fold_left from_email
                                  html text reply_to cc bcc tags attachments
                                  headers].
      rewrite !assoc_skip by reflexivity.
      rewrite Ht, assoc_dict_set. reflexivity.
Qed.

Lemma module_send_email_uses_the_settings_witness :
  let api : json -> json -> outcome json :=
    fun key params => Ok (JObj [("id", key); ("sent", params)]) in
  let unset := send_email api [] (Some JNull) (JStr "a@x.com")
                 (JStr "Hello") (JStr "<p>Hi</p>") JNull [] in
  let set := send_email api [("RESEND_APIKEY", JStr "re_123")] (Some JNull)
               (JStr "a@x.com") (JStr "Hello") (JStr "<p>Hi</p>") JNull
               [("from_email", JStr "me@x.com")] in
  (fst unset = Some JNull
   /\ exists e, snd unset = Raise e /\ exn_cls e = ValueError)
  /\ exists params,
       fst set = Some (JStr "re_123")
       /\ assoc "from_email" params = None
       /\ assoc "from" params = Some (JStr "me@x.com").
Proof.
  intros api unset set. split.
  - exact (proj1 (module_send_email_uses_the_settings api [] JNull
                    (JStr "a@x.com") (JStr "Hello") (JStr "<p>Hi</p>") JNull
                    []) eq_refl).
  - destruct (proj2 (module_send_email_uses_the_settings api
                       [("RESEND_APIKEY", JStr "re_123")] JNull
                       (JStr "a@x.com") (JStr "Hello") (JStr "<p>Hi</p>")
                       JNull [("from_email", JStr "me@x.com")]) eq_refl)
      as [params [Hfst [_ [Hnone Hfrom]]]].
    exists params. split; [exact Hfst | split; [exact Hnone | ]].
    apply Hfrom; [ | reflexivity | reflexivity].
    simpl. constructor; [intros [] | constructor].
Defined.
